(** * antivirus.py: the single-pass file scanner [is_infected]

    A shallow embedding of [src/python/antivirus.py].  The Python function
    streams a file in chunks of 8192 bytes, feeds every chunk to two
    [hashlib] objects and to a 256-bucket byte histogram, applies the
    per-chunk detectors and, once the stream is exhausted, the post-stream
    checks (digest blacklists, entropy, heuristic flags).

    Layout of the development:
    - [Bytes], [Word32]  byte strings ([startswith], [in], [lower], hex)
                         and 32-bit words;
    - [HashObject]       the [update]/[hexdigest] interface of a [hashlib]
                         object as a Merkle-Damgard accumulator, with its
                         instances [MD5] and [SHA256];
    - [Float], [Int64]   the floats and the numpy integers that the entropy
                         step handles, and [scipy.stats.entropy];
    - [Scanner]          the tables, the file system, the mutable [result]
                         dictionary, the statements of [is_infected];
    - [Verdict], [Information], [Samples]
                         the vocabulary of the statements and sample files;
    - [Decision], [Frequencies]
                         the result of a scan as a function of the content;
    - [Json], [Main]     [json.dumps] and the block under [__main__];
    - [Logged], [Journal]
                         the scanner with its calls of [logging], and the
                         records that a scan logs;
    - the facts, the properties of the scanner, and further facts and
      properties of the scanner and of the script.

    What the embedding leaves out or idealises: logging in [Scanner] (it
    writes to stderr only; [Logged] puts it back); rounding in float
    arithmetic (finite floats are real numbers); changes to the file while
    it is being scanned. *)

From Stdlib Require Import ZArith List String Ascii Bool Lia Arith.
From Stdlib.Strings Require Import Byte.
From Stdlib Require Import DecimalString.
From Stdlib Require Import Reals Lra.
Import ListNotations.

Set Warnings "-abstract-large-number".
Set Warnings "-register-all".

(* [String] also exports [length] and [concat]; the ones meant here are on
   lists. *)
Abbreviation length := List.length (only parsing).
Abbreviation concat := List.concat (only parsing).

(* string literals; [++] is list append, numerals are in [Z] *)
Local Open Scope string_scope.
Local Open Scope list_scope.
Local Open Scope Z_scope.

(* ------------------------------------------------------------------ *)
(** ** Byte strings *)

Module Bytes.

Definition bytes := list byte.

Definition byte_val (b : byte) : Z := Z.of_N (Byte.to_N b).

Definition byte_of_Z (z : Z) : byte :=
  match Byte.of_N (Z.to_N (z mod 256)) with
  | Some b => b
  | None => x00
  end.

Definition of_string (s : string) : bytes := list_byte_of_string s.

(** [chunk.startswith(sig)] *)
Fixpoint startswith (chunk sig : bytes) : bool :=
  match sig, chunk with
  | [], _ => true
  | _ :: _, [] => false
  | s :: sig', c :: chunk' => Byte.eqb c s && startswith chunk' sig'
  end.

(** [needle in hay] on [bytes] objects: substring search. *)
Fixpoint contains (needle hay : bytes) : bool :=
  startswith hay needle ||
  match hay with
  | [] => false
  | _ :: hay' => contains needle hay'
  end.

(** [bytes.lower()]: only the ASCII letters A-Z are mapped. *)
Definition lower_byte (b : byte) : byte :=
  let v := byte_val b in
  if (65 <=? v) && (v <=? 90) then byte_of_Z (v + 32) else b.

Definition lower (s : bytes) : bytes := map lower_byte s.

(** [b * n] for a one-byte string. *)
Definition replicate (n : nat) (b : byte) : bytes := repeat b n.

Definition bytes_eqb (a b : bytes) : bool :=
  (length a =? length b)%nat && startswith a b.

Definition hex_digit (d : Z) : ascii :=
  if d <? 10 then ascii_of_N (Z.to_N (48 + d))
  else ascii_of_N (Z.to_N (87 + d)).

(** Lowercase hexadecimal rendering, two digits per byte. *)
Fixpoint hex (s : bytes) : string :=
  match s with
  | [] => EmptyString
  | b :: s' =>
      String (hex_digit (byte_val b / 16))
        (String (hex_digit (byte_val b mod 16)) (hex s'))
  end.

End Bytes.
Import Bytes.

(* ------------------------------------------------------------------ *)
(** ** 32-bit words *)

Module Word32.

Definition modulus : Z := 2 ^ 32.
Definition wrap (x : Z) : Z := x mod modulus.
Definition add (x y : Z) : Z := wrap (x + y).
Definition not (x : Z) : Z := Z.lxor x (modulus - 1).
Definition rotl (x n : Z) : Z :=
  wrap (Z.lor (Z.shiftl x n) (Z.shiftr x (32 - n))).
Definition rotr (x n : Z) : Z :=
  wrap (Z.lor (Z.shiftr x n) (Z.shiftl x (32 - n))).

(** Little- and big-endian decoding of four bytes. *)
Definition of_le (b0 b1 b2 b3 : byte) : Z :=
  byte_val b0 + 256 * (byte_val b1 + 256 * (byte_val b2 + 256 * byte_val b3)).
Definition of_be (b0 b1 b2 b3 : byte) : Z := of_le b3 b2 b1 b0.

Fixpoint words (dec : byte -> byte -> byte -> byte -> Z) (s : bytes)
  : list Z :=
  match s with
  | b0 :: b1 :: b2 :: b3 :: s' => dec b0 b1 b2 b3 :: words dec s'
  | _ => []
  end.

(** The [n] low bytes of [x], least significant first. *)
Fixpoint le_bytes (n : nat) (x : Z) : bytes :=
  match n with
  | O => []
  | S n' => byte_of_Z x :: le_bytes n' (x / 256)
  end.
Definition be_bytes (n : nat) (x : Z) : bytes := rev (le_bytes n x).

End Word32.

(* ------------------------------------------------------------------ *)
(** ** hashlib objects

    [hashlib.md5()] and [hashlib.sha256()] are library objects with the
    interface [update(data)] / [hexdigest()].  Both algorithms are
    Merkle-Damgard constructions over 64-byte blocks; the object keeps the
    chaining value, the bytes of the block not yet complete and the number
    of bytes fed so far.  The section is parametric in the compression
    function, the length encoding of the padding and the output encoding. *)

Module HashObject.
Section Generic.

Variable chain : Type.
Variable iv : chain.
Variable compress : chain -> bytes -> chain.
(** encoding of the 64-bit message length in bits *)
Variable length_field : Z -> bytes.
Variable encode : chain -> bytes.

Definition block_size : nat := 64.

Record hasher : Type := Hasher {
  h_chain : chain;
  h_buffer : bytes;
  h_count : Z
}.

(** [hashlib.md5()], [hashlib.sha256()]: a fresh object *)
Definition new : hasher := Hasher iv [] 0.

(** Consume as many whole blocks of [l] as there are; [n] bounds the
    number of blocks. *)
Fixpoint absorb (n : nat) (c : chain) (l : bytes) : chain * bytes :=
  match n with
  | O => (c, l)
  | S n' =>
      if (block_size <=? length l)%nat
      then absorb n' (compress c (firstn block_size l)) (skipn block_size l)
      else (c, l)
  end.

Definition absorb_all (c : chain) (l : bytes) : chain * bytes :=
  absorb (length l) c l.

(** [h.update(data)]: the buffered bytes followed by [data] are consumed
    block by block; what does not fill a block stays in the buffer. *)
Definition update (h : hasher) (data : bytes) : hasher :=
  let '(c, rest) := absorb_all (h_chain h) (h_buffer h ++ data) in
  Hasher c rest (h_count h + Z.of_nat (length data)).

(** [0x80], then zero bytes up to 56 modulo 64, then the bit length. *)
Definition padding (count : Z) : bytes :=
  x80 :: repeat x00 (Z.to_nat ((55 - count) mod 64))
      ++ length_field ((8 * count) mod 2 ^ 64).

(** The buffer of an object never holds a whole block. *)
Definition buffer_ok (h : hasher) : Prop :=
  (length (h_buffer h) < block_size)%nat.

(** [h.digest()]: the object itself is left untouched. *)
Definition digest (h : hasher) : bytes :=
  encode (fst (absorb_all (h_chain h) (h_buffer h ++ padding (h_count h)))).

(** [h.hexdigest()] *)
Definition hexdigest (h : hasher) : string := hex (digest h).

(** The single-shot digest of a complete message: pad it, then run the
    compression function over all its blocks. *)
Definition oneshot (msg : bytes) : string :=
  hex (encode (fst (absorb_all iv
                      (msg ++ padding (Z.of_nat (length msg)))))).

End Generic.

Arguments Hasher {chain} _ _ _.
Arguments h_chain {chain} _.
Arguments h_buffer {chain} _.
Arguments h_count {chain} _.
Arguments new {chain} _.
Arguments absorb {chain} _ _ _ _.
Arguments absorb_all {chain} _ _ _.
Arguments update {chain} _ _ _.
Arguments buffer_ok {chain} _.
Arguments digest {chain} _ _ _ _.
Arguments hexdigest {chain} _ _ _ _.
Arguments oneshot {chain} _ _ _ _ _.

End HashObject.

(* ------------------------------------------------------------------ *)
(** ** MD5 (RFC 1321) *)

Module MD5.
Import Word32.

Definition chain : Type := Z * Z * Z * Z.

Definition iv : chain := (0x67452301, 0xefcdab89, 0x98badcfe, 0x10325476).

(** [floor (2^32 * |sin (i + 1)|)] *)
Definition T : list Z :=
  [ 0xd76aa478; 0xe8c7b756; 0x242070db; 0xc1bdceee;
    0xf57c0faf; 0x4787c62a; 0xa8304613; 0xfd469501;
    0x698098d8; 0x8b44f7af; 0xffff5bb1; 0x895cd7be;
    0x6b901122; 0xfd987193; 0xa679438e; 0x49b40821;
    0xf61e2562; 0xc040b340; 0x265e5a51; 0xe9b6c7aa;
    0xd62f105d; 0x02441453; 0xd8a1e681; 0xe7d3fbc8;
    0x21e1cde6; 0xc33707d6; 0xf4d50d87; 0x455a14ed;
    0xa9e3e905; 0xfcefa3f8; 0x676f02d9; 0x8d2a4c8a;
    0xfffa3942; 0x8771f681; 0x6d9d6122; 0xfde5380c;
    0xa4beea44; 0x4bdecfa9; 0xf6bb4b60; 0xbebfbc70;
    0x289b7ec6; 0xeaa127fa; 0xd4ef3085; 0x04881d05;
    0xd9d4d039; 0xe6db99e5; 0x1fa27cf8; 0xc4ac5665;
    0xf4292244; 0x432aff97; 0xab9423a7; 0xfc93a039;
    0x655b59c3; 0x8f0ccc92; 0xffeff47d; 0x85845dd1;
    0x6fa87e4f; 0xfe2ce6e0; 0xa3014314; 0x4e0811a1;
    0xf7537e82; 0xbd3af235; 0x2ad7d2bb; 0xeb86d391 ].

(** per-round left rotations *)
Definition shifts : list Z :=
  [ 7; 12; 17; 22; 7; 12; 17; 22; 7; 12; 17; 22; 7; 12; 17; 22;
    5; 9; 14; 20; 5; 9; 14; 20; 5; 9; 14; 20; 5; 9; 14; 20;
    4; 11; 16; 23; 4; 11; 16; 23; 4; 11; 16; 23; 4; 11; 16; 23;
    6; 10; 15; 21; 6; 10; 15; 21; 6; 10; 15; 21; 6; 10; 15; 21 ].

Definition step (X : list Z) (st : chain) (i : nat) : chain :=
  let '(a, b, c, d) := st in
  let '(f, g) :=
    if (i <? 16)%nat then
      (Z.lor (Z.land b c) (Z.land (not b) d), i)
    else if (i <? 32)%nat then
      (Z.lor (Z.land d b) (Z.land (not d) c), ((5 * i + 1) mod 16)%nat)
    else if (i <? 48)%nat then
      (Z.lxor (Z.lxor b c) d, ((3 * i + 5) mod 16)%nat)
    else
      (Z.lxor c (Z.lor b (not d)), ((7 * i) mod 16)%nat) in
  let f' := add (add (add f a) (nth i T 0)) (nth g X 0) in
  (d, add b (rotl f' (nth i shifts 0)), b, c).

Definition compress (h : chain) (block : bytes) : chain :=
  let X := words of_le block in
  let '(a0, b0, c0, d0) := h in
  let '(a, b, c, d) := fold_left (step X) (seq 0 64) h in
  (add a0 a, add b0 b, add c0 c, add d0 d).

Definition encode (h : chain) : bytes :=
  let '(a, b, c, d) := h in
  le_bytes 4 a ++ le_bytes 4 b ++ le_bytes 4 c ++ le_bytes 4 d.

Definition length_field (bits : Z) : bytes := le_bytes 8 bits.

Definition hasher : Type := HashObject.hasher chain.
Definition md5 : hasher := HashObject.new iv.
Definition update : hasher -> bytes -> hasher := HashObject.update compress.
Definition hexdigest : hasher -> string :=
  HashObject.hexdigest compress length_field encode.
Definition oneshot : bytes -> string :=
  HashObject.oneshot iv compress length_field encode.

End MD5.

(* ------------------------------------------------------------------ *)
(** ** SHA-256 (FIPS 180-4) *)

Module SHA256.
Import Word32.

Record chain : Type := Chain {
  ha : Z; hb : Z; hc : Z; hd : Z; he : Z; hf : Z; hg : Z; hh : Z
}.

(** The first sixty-four primes. *)
Definition primes : list Z :=
  [
    2; 3; 5; 7; 11; 13; 17; 19; 23; 29; 31; 37; 41; 43; 47; 53;
    59; 61; 67; 71; 73; 79; 83; 89; 97; 101; 103; 107; 109; 113; 127; 131;
    137; 139; 149; 151; 157; 163; 167; 173; 179; 181; 191; 193; 197; 199; 211; 223;
    227; 229; 233; 239; 241; 251; 257; 263; 269; 271; 277; 281; 283; 293; 307; 311 ].

(** Integer cube root, bit by bit from the top: the largest [r] below
    [2 ^ bits] with [r ^ 3 <= n]. *)
Fixpoint cube_root (bits : nat) (n r : Z) : Z :=
  match bits with
  | O => r
  | S b =>
      let c := r + 2 ^ Z.of_nat b in
      cube_root b n (if c * c * c <=? n then c else r)
  end.

(** The first 32 bits of the fractional part of the square root and of the
    cube root of [p]. *)
Definition frac_sqrt (p : Z) : Z := wrap (Z.sqrt (p * 2 ^ 64)).
Definition frac_cbrt (p : Z) : Z := wrap (cube_root 40 (p * 2 ^ 96) 0).

(** The initial hash value: from the square roots of the first eight
    primes ([6a09e667], [bb67ae85], ...). *)
Definition iv : chain :=
  Eval vm_compute in
    match map frac_sqrt (firstn 8 primes) with
    | [a; b; c; d; e; f; g; h] => Chain a b c d e f g h
    | _ => Chain 0 0 0 0 0 0 0 0
    end.

(** The round constants: from the cube roots of the first sixty-four
    primes ([428a2f98], [71374491], ...). *)
Definition K : list Z := Eval vm_compute in map frac_cbrt primes.

Definition xor3 (x y z : Z) : Z := Z.lxor (Z.lxor x y) z.

Definition Ch (x y z : Z) : Z := Z.lxor (Z.land x y) (Z.land (not x) z).
Definition Maj (x y z : Z) : Z :=
  xor3 (Z.land x y) (Z.land x z) (Z.land y z).
Definition big_sigma0 (x : Z) : Z := xor3 (rotr x 2) (rotr x 13) (rotr x 22).
Definition big_sigma1 (x : Z) : Z := xor3 (rotr x 6) (rotr x 11) (rotr x 25).
Definition small_sigma0 (x : Z) : Z :=
  xor3 (rotr x 7) (rotr x 18) (Z.shiftr x 3).
Definition small_sigma1 (x : Z) : Z :=
  xor3 (rotr x 17) (rotr x 19) (Z.shiftr x 10).

(** The message schedule: [W] holds the words computed so far; each of the
    [n] rounds appends word number [length W]. *)
Fixpoint schedule (n : nat) (W : list Z) : list Z :=
  match n with
  | O => W
  | S n' =>
      let t := length W in
      let w :=
        add (add (add (small_sigma1 (nth (t - 2) W 0)) (nth (t - 7) W 0))
                 (small_sigma0 (nth (t - 15) W 0)))
            (nth (t - 16) W 0) in
      schedule n' (W ++ [w])
  end.

Definition round (W : list Z) (s : chain) (t : nat) : chain :=
  let T1 :=
    add (add (add (add (hh s) (big_sigma1 (he s)))
                       (Ch (he s) (hf s) (hg s)))
             (nth t K 0))
        (nth t W 0) in
  let T2 := add (big_sigma0 (ha s)) (Maj (ha s) (hb s) (hc s)) in
  Chain (add T1 T2) (ha s) (hb s) (hc s) (add (hd s) T1) (he s) (hf s) (hg s).

Definition compress (h : chain) (block : bytes) : chain :=
  let W := schedule 48 (words of_be block) in
  let s := fold_left (round W) (seq 0 64) h in
  Chain (add (ha h) (ha s)) (add (hb h) (hb s))
        (add (hc h) (hc s)) (add (hd h) (hd s))
        (add (he h) (he s)) (add (hf h) (hf s))
        (add (hg h) (hg s)) (add (hh h) (hh s)).

Definition encode (h : chain) : bytes :=
  flat_map (be_bytes 4)
    [ha h; hb h; hc h; hd h; he h; hf h; hg h; hh h].

Definition length_field (bits : Z) : bytes := be_bytes 8 bits.

Definition hasher : Type := HashObject.hasher chain.
Definition sha256 : hasher := HashObject.new iv.
Definition update : hasher -> bytes -> hasher := HashObject.update compress.
Definition hexdigest : hasher -> string :=
  HashObject.hexdigest compress length_field encode.
Definition oneshot : bytes -> string :=
  HashObject.oneshot iv compress length_field encode.

End SHA256.

(* ------------------------------------------------------------------ *)
(** ** Floats, numpy division and scipy.stats.entropy

    Finite float values are idealised as real numbers (no rounding); the
    special values of IEEE 754 that numpy produces instead of raising are
    kept, since they decide which way [file_entropy > ENTROPY_THRESHOLD]
    goes.  The sign of zero is not tracked: every zero denominator that
    occurs here is the conversion of the integer 0. *)

Module Float.

Inductive float : Type :=
| Fin (x : R)
| PInf
| NInf
| NaN.

Definition of_int (z : Z) : float := Fin (IZR z).

Definition add (a b : float) : float :=
  match a, b with
  | NaN, _ | _, NaN => NaN
  | Fin x, Fin y => Fin (x + y)
  | PInf, NInf | NInf, PInf => NaN
  | PInf, _ | _, PInf => PInf
  | NInf, _ | _, NInf => NInf
  end.

Definition signed_inf (positive : bool) : float :=
  if positive then PInf else NInf.

(** IEEE division: a nonzero value over zero is an infinity, 0/0 and
    inf/inf are NaN; nothing raises. *)
Definition div (a b : float) : float :=
  match a, b with
  | NaN, _ | _, NaN => NaN
  | Fin x, Fin y =>
      if Req_dec_T y 0 then
        if Req_dec_T x 0 then NaN
        else signed_inf (if Rlt_dec 0 x then true else false)
      else Fin (x / y)
  | Fin _, (PInf | NInf) => Fin 0
  | PInf, Fin y => signed_inf (if Rlt_dec y 0 then false else true)
  | NInf, Fin y => signed_inf (if Rlt_dec y 0 then true else false)
  | (PInf | NInf), (PInf | NInf) => NaN
  end.

(** [a > b] on floats; any comparison with NaN is false. *)
Definition gt (a b : float) : bool :=
  match a, b with
  | NaN, _ | _, NaN => false
  | Fin x, Fin y => if Rgt_dec x y then true else false
  | PInf, (Fin _ | NInf) => true
  | Fin _, NInf => true
  | _, _ => false
  end.

(** [np.sum] of a float array *)
Definition sum (l : list float) : float := fold_left add l (Fin 0).

(** [scipy.special.entr]: [-x log x] for [x > 0], [0] at [0], [-inf]
    below; the logarithm is the natural one. *)
Definition entr (a : float) : float :=
  match a with
  | Fin x =>
      if Rlt_dec 0 x then Fin (- x * ln x)
      else if Req_dec_T x 0 then Fin 0
      else NInf
  | PInf | NInf => NInf
  | NaN => NaN
  end.

(** [scipy.stats.entropy(pk)] with the default [base=None]: [pk] is
    normalised to sum 1, the result is [sum(entr(pk))], in nats. *)
Definition entropy (pk : list float) : float :=
  let total := sum pk in
  sum (map (fun p => entr (div p total)) pk).

End Float.

(** 64-bit signed integers of numpy ([dtype=int]). *)
Module Int64.
Definition wrap (x : Z) : Z := (x + 2 ^ 63) mod 2 ^ 64 - 2 ^ 63.
Definition add (x y : Z) : Z := wrap (x + y).
(** [a.sum()] of an int64 array *)
Definition sum (l : list Z) : Z := fold_left add l 0.
End Int64.

(* ------------------------------------------------------------------ *)
(** ** The scanner *)

Module Scanner.
Import Float.

(** *** Module-level tables *)

Definition KNOWN_BAD_MD5 : list (string * string) :=
  [ ("f0f322dcfe9953991c03746984b923ed", "DDoS Malware");
    ("1fa3fc9ac5eb03d95bfa401a26111447", "Remcos RAT");
    ("f3109e3234a83452de39ad40a285a5fd", "Remcos RAT Variant");
    ("6a8401448a5bd2b540850f811b20a66d", "Dridex");
    ("7d1f2798bd70c6cf04f5ad4de1aa68d2", "Formbook");
    ("f2752c991000ad9d807fcbe188f03695", "Formbook Variant");
    ("44d88612fea8a8f36de82e1278abb02f", "EICAR Test (Production Placeholder)");
    ("6690cbf0c23303701f41bc3972ae9829", "Unknown Malware Sample") ].

Definition KNOWN_BAD_SHA256 : list (string * string) :=
  [ ("9001567e2025f83c936b8746fd3b01e44572f70d8ddec39b75b9459f7e5089c8",
     "Unknown Malware");
    ("178ba564b39bd07577e974a9b677dfd86ffa1f1d0299dfd958eb883c5ef6c3e1",
     "Dridex");
    ("8571a354b5cdd9ec3735b84fa207e72c7aea1ab82ea2e4ffea1373335b3e88f4",
     "IISShellModule");
    ("ef537f25c895bfa782526529a9b63d97aa631564d5d789c2b765448c8635fb6c",
     "Agent Tesla");
    ("795db7bdad1befdd3ad942be79715f6b0c5083d859901b81657b590c9628790f",
     "Ryuk Ransomware");
    ("3c5afa0fe75dcb4b1d86bbf19c75d64ae1ec00a6ed2bd6b34e88af8c23df9bfa",
     "Unknown Malware Sample");
    ("fb55414848281f804858ce188c3dc659d129e283bd62d58d34f6e6f568feab37",
     "Suspicious File") ].

Definition ENTROPY_THRESHOLD : float := Fin (79 / 10).

Definition PDF_SIG : bytes := of_string "%PDF-".

(** In insertion order, as [dict.items()] yields them. *)
Definition EXECUTABLE_HEADERS : list (bytes * string) :=
  [ ([x4d; x5a], "Windows PE (MZ)");
    (x7f :: of_string "ELF", "Linux ELF");
    ([xfe; xed; xfa; xce], "Mach-O (macOS)");
    ([xfe; xed; xfa; xcf], "Mach-O (macOS 64-bit)");
    (PDF_SIG, "PDF (check for embedded JS)") ].

Definition suspicious_strings : list bytes :=
  map of_string
    [ "bitcoin"; "ransom"; "encrypt"; "decrypt"; "cmd.exe /c";
      "powershell.exe" ].

Definition CHUNK_SIZE : nat := 8192.

(** [key in table] and [table[key]] on a dict with string keys *)
Fixpoint lookup (table : list (string * string)) (key : string)
  : option string :=
  match table with
  | [] => None
  | (k, v) :: table' => if String.eqb key k then Some v else lookup table' key
  end.

(** *** The result dictionary *)

Record hashes_t : Type := Hashes {
  md5 : option string;
  sha256 : option string
}.

Record result : Type := Result {
  infected : bool;
  reason : option string;
  filename : string;
  size : Z;
  hashes : hashes_t;
  entropy : float
}.

Definition with_infected (v : bool) (r : result) : result :=
  Result v (reason r) (filename r) (size r) (hashes r) (entropy r).
Definition with_reason (v : string) (r : result) : result :=
  Result (infected r) (Some v) (filename r) (size r) (hashes r) (entropy r).
Definition with_size (v : Z) (r : result) : result :=
  Result (infected r) (reason r) (filename r) v (hashes r) (entropy r).
Definition with_md5 (v : string) (r : result) : result :=
  Result (infected r) (reason r) (filename r) (size r)
         (Hashes (Some v) (sha256 (hashes r))) (entropy r).
Definition with_sha256 (v : string) (r : result) : result :=
  Result (infected r) (reason r) (filename r) (size r)
         (Hashes (md5 (hashes r)) (Some v)) (entropy r).
Definition with_entropy (v : float) (r : result) : result :=
  Result (infected r) (reason r) (filename r) (size r) (hashes r) v.

(** [os.path.basename]: what follows the last slash. *)
Fixpoint after_last_slash (p : string) : option string :=
  match p with
  | EmptyString => None
  | String c p' =>
      match after_last_slash p' with
      | Some t => Some t
      | None => if Ascii.eqb c "/" then Some p' else None
      end
  end.

Definition basename (p : string) : string :=
  match after_last_slash p with
  | Some t => t
  | None => p
  end.

(** *** The file system

    A path names nothing, something that is not a regular file (a
    directory, a device), or a regular file.  Of a regular file the model
    keeps [st_size], the size that [stat] reports, and [data], the bytes
    that reading it delivers: the two agree on an ordinary file, not on
    the files of procfs or sysfs, whose size is reported as 0 or as a page
    whatever they hold.  A regular file may carry an I/O fault: [open]
    fails, or the [n]-th call of [f.read] fails (counting from 0), each
    with the text that [str(e)] gives; and closing it may fail, with the
    text [close].  Nothing changes during a scan. *)

Inductive io_fault : Type :=
| NoFault
| OpenFails (msg : string)
| ReadFails (n : nat) (msg : string).

Inductive node : Type :=
| Missing
| NotRegular (st_size : Z)
| Regular (st_size : Z) (data : bytes) (fault : io_fault)
          (close : option string).

Definition filesystem : Type := string -> node.

Inductive read_result : Type :=
| Data (chunk : bytes)
| IOError (msg : string).

(** The non-empty chunks that [f.read(8192)] returns in turn: each read
    consumes at least one byte, so [length data] rounds are enough. *)
Fixpoint chunks_of (fuel : nat) (data : bytes) : list bytes :=
  match fuel with
  | O => []
  | S fuel' =>
      match data with
      | [] => []
      | _ :: _ =>
          firstn CHUNK_SIZE data :: chunks_of fuel' (skipn CHUNK_SIZE data)
      end
  end.

Definition chunks (data : bytes) : list bytes :=
  chunks_of (length data) data.

(** An open file: the outcomes of the successive calls [f.read(8192)].
    After the chunks comes the empty read at end of file. *)
Definition reads (data : bytes) (fault : io_fault) : list read_result :=
  let ok := map Data (chunks data ++ [[]]) in
  match fault with
  | ReadFails n msg =>
      if (n <? length ok)%nat then firstn n ok ++ [IOError msg] else ok
  | _ => ok
  end.

(** *** Statements: state, early return and exceptions

    A statement runs on the [result] dictionary, which it may mutate, and
    completes normally, by [return result], or by raising. *)

Inductive completion (A : Type) : Type :=
| Normal (a : A)
| Returned
| Raised (msg : string).
Arguments Normal {A} _.
Arguments Returned {A}.
Arguments Raised {A} _.

Definition py (A : Type) : Type := result -> completion A * result.

Definition ret {A} (a : A) : py A := fun r => (Normal a, r).

Definition bind {A B} (m : py A) (k : A -> py B) : py B :=
  fun r =>
    match m r with
    | (Normal a, r') => k a r'
    | (Returned, r') => (Returned, r')
    | (Raised msg, r') => (Raised msg, r')
    end.

Definition return_result {A} : py A := fun r => (Returned, r).
Definition raise {A} (msg : string) : py A := fun r => (Raised msg, r).
Definition assign (f : result -> result) : py unit :=
  fun r => (Normal tt, f r).
Definition read_result_field {A} (f : result -> A) : py A :=
  fun r => (Normal (f r), r).

Declare Scope py_scope.
Delimit Scope py_scope with py.
Notation "x <- m ;; k" := (bind m (fun x => k))
  (at level 61, m at next level, right associativity) : py_scope.
Notation "m ;; k" := (bind m (fun _ => k))
  (at level 61, right associativity) : py_scope.
Local Open Scope py_scope.

(** [os.path.isfile], [os.path.getsize], [open(path, 'rb')] *)
Definition isfile (fs : filesystem) (p : string) : bool :=
  match fs p with
  | Regular _ _ _ _ => true
  | _ => false
  end.

Definition getsize (fs : filesystem) (p : string) : py Z :=
  match fs p with
  | Regular st_size _ _ _ => ret st_size
  | NotRegular st_size => ret st_size
  | Missing => raise "[Errno 2] No such file or directory"
  end.

(** An open file: what its reads give in turn, and the exception that
    closing it raises, if any. *)
Record file_object : Type := FileObject {
  stream : list read_result;
  close_error : option string
}.

Definition open_rb (fs : filesystem) (p : string) : py file_object :=
  match fs p with
  | Regular _ data (OpenFails msg) _ => raise msg
  | Regular _ data fault close => ret (FileObject (reads data fault) close)
  | NotRegular _ => raise "[Errno 21] Is a directory"
  | Missing => raise "[Errno 2] No such file or directory"
  end.

(** [with ... as f: body]: however the body is left, normally, by
    [return] or by an exception, the file is closed on the way out; an
    exception that [f.close()] raises takes the place of what left the
    body, the dictionary being as the body left it. *)
Definition with_closing {A} (f : file_object) (body : py A) : py A :=
  fun r =>
    match close_error f with
    | None => body r
    | Some msg => (Raised msg, snd (body r))
    end.

(** *** Local variables of the streaming loop *)

Record locals : Type := Locals {
  md5_hash : MD5.hasher;
  sha256_hash : SHA256.hasher;
  byte_counts : list Z;
  header_checked : bool;
  pdf_checked : bool;
  suspicious_content : bool;
  shellcode_detected : bool
}.

(** [np.zeros(256, dtype=int)] *)
Definition zeros : list Z := repeat 0 256.

Definition initial_locals : locals :=
  Locals MD5.md5 SHA256.sha256 zeros false false false false.

(** [a[i] += 1] on an int64 array *)
Fixpoint increment (i : nat) (a : list Z) : list Z :=
  match a with
  | [] => []
  | c :: a' =>
      match i with
      | O => Int64.add c 1 :: a'
      | S i' => c :: increment i' a'
      end
  end.

(** [for byte in chunk: byte_counts[byte] += 1] *)
Definition count_bytes (chunk : bytes) (counts : list Z) : list Z :=
  fold_left (fun a b => increment (Byte.to_nat b) a) chunk counts.

(** The header loop over [EXECUTABLE_HEADERS.items()]; it yields the new
    value of [pdf_checked] unless it returns. *)
Fixpoint check_headers (table : list (bytes * string)) (chunk : bytes)
    (pdf : bool) : py bool :=
  match table with
  | [] => ret pdf
  | (sig, desc) :: table' =>
      if startswith chunk sig then
        if bytes_eqb sig PDF_SIG then check_headers table' chunk true
        else
          assign (with_infected true) ;;
          assign (with_reason
                    (append "Suspicious executable header: " desc)) ;;
          return_result
      else check_headers table' chunk pdf
  end.

(** The body of the [for chunk in ...] loop. *)
Definition loop_body (chunk : bytes) (l : locals) : py locals :=
  let md5_hash' := MD5.update (md5_hash l) chunk in
  let sha256_hash' := SHA256.update (sha256_hash l) chunk in
  let byte_counts' := count_bytes chunk (byte_counts l) in
  flags <-
    (if negb (header_checked l) then
       pdf <- check_headers EXECUTABLE_HEADERS chunk (pdf_checked l) ;;
       ret (true, pdf)
     else ret (header_checked l, pdf_checked l)) ;;
  let '(header_checked', pdf_checked') := flags in
  (if pdf_checked' && contains (of_string "/JavaScript") chunk then
     assign (with_infected true) ;;
     assign (with_reason "Embedded JavaScript in PDF (potential exploit)") ;;
     return_result
   else ret tt) ;;
  let suspicious_content' :=
    if existsb (fun s => contains s (lower chunk)) suspicious_strings
    then true else suspicious_content l in
  let shellcode_detected' :=
    if contains (replicate 20 x90) chunk
    then true else shellcode_detected l in
  ret (Locals md5_hash' sha256_hash' byte_counts' header_checked'
              pdf_checked' suspicious_content' shellcode_detected').

(** [for chunk in iter(lambda: f.read(8192), b'')] *)
Fixpoint for_chunks (f : list read_result) (l : locals) : py locals :=
  match f with
  | [] => ret l
  | IOError msg :: _ => raise msg
  | Data [] :: _ => ret l
  | Data chunk :: f' => l' <- loop_body chunk l ;; for_chunks f' l'
  end.

(** What a call of the function gives its caller: a value, [None] when
    control falls off the end of the body, or an exception. *)
Inductive call_outcome : Type :=
| Returns (r : result)
| ReturnsNone
| Propagates (msg : string).

(** The dictionary built before the [try] statement. *)
Definition initial_result (file_path : string) : result :=
  Result false None (basename file_path) 0 (Hashes None None) (Fin 0).

Section Formatting.

(** How an f-string renders a float. *)
Variable format_float : float -> string.

(** Everything after the [with] block. *)
Definition post_stream (l : locals) : py unit :=
  assign (with_md5 (MD5.hexdigest (md5_hash l))) ;;
  assign (with_sha256 (SHA256.hexdigest (sha256_hash l))) ;;
  md5_hex <- read_result_field (fun r => md5 (hashes r)) ;;
  match option_map (lookup KNOWN_BAD_MD5) md5_hex with
  | Some (Some label) =>
      assign (with_infected true) ;;
      assign (with_reason (append "Known malware (MD5): " label)) ;;
      return_result
  | _ =>
  sha256_hex <- read_result_field (fun r => sha256 (hashes r)) ;;
  match option_map (lookup KNOWN_BAD_SHA256) sha256_hex with
  | Some (Some label) =>
      assign (with_infected true) ;;
      assign (with_reason (append "Known malware (SHA256): " label)) ;;
      return_result
  | _ =>
  let total := Int64.sum (byte_counts l) in
  let probs := map (fun c => div (of_int c) (of_int total))
                   (byte_counts l) in
  let file_entropy := Float.entropy probs in
  assign (with_entropy file_entropy) ;;
  if gt file_entropy ENTROPY_THRESHOLD then
    assign (with_infected true) ;;
    assign (with_reason
              (append "High file entropy: "
                 (append (format_float file_entropy)
                    " (suspected packed/encrypted malware)"))) ;;
    return_result
  else if suspicious_content l then
    assign (with_infected true) ;;
    assign (with_reason
      "Suspicious content strings (potential ransomware or command injection)") ;;
    return_result
  else if shellcode_detected l then
    assign (with_infected true) ;;
    assign (with_reason "Potential shellcode pattern (NOP sled detected)") ;;
    return_result
  else
    assign (with_reason "Scan completed: No threats detected") ;;
    return_result
  end
  end.

(** The body of the [try] statement. *)
Definition try_block (fs : filesystem) (file_path : string) : py unit :=
  if negb (isfile fs file_path) then
    assign (with_reason "File does not exist") ;;
    return_result
  else
    file_size <- getsize fs file_path ;;
    if file_size =? 0 then
      assign (with_reason "File is empty") ;;
      return_result
    else
      assign (with_size file_size) ;;
      f <- open_rb fs file_path ;;
      l <- with_closing f (for_chunks (stream f) initial_locals) ;;
      post_stream l.

(** [is_infected(file_path)]: the [try] body under the handler
    [except Exception as e]. *)
Definition is_infected (fs : filesystem) (file_path : string)
  : call_outcome :=
  match try_block fs file_path (initial_result file_path) with
  | (Returned, r) => Returns r
  | (Raised msg, r) => Returns (with_reason (append "Scan error: " msg) r)
  | (Normal _, _) => ReturnsNone
  end.

End Formatting.

End Scanner.

(* ------------------------------------------------------------------ *)
(** ** Reading a verdict *)

Module Verdict.
Import Scanner.

(** The six kinds of detection. *)
Inductive category : Type :=
| Signature
| EmbeddedScript
| DigestBlacklist
| HighEntropy
| SuspiciousContent
| ShellcodePattern.

(** The fixed text with which the reasons of a category begin. *)
Definition openings (c : category) : list string :=
  match c with
  | Signature => [ "Suspicious executable header: " ]
  | EmbeddedScript => [ "Embedded JavaScript in PDF" ]
  | DigestBlacklist => [ "Known malware (MD5): "; "Known malware (SHA256): " ]
  | HighEntropy => [ "High file entropy: " ]
  | SuspiciousContent => [ "Suspicious content strings" ]
  | ShellcodePattern => [ "Potential shellcode pattern" ]
  end.

(** [s] begins with [opening]. *)
Fixpoint begins (opening s : string) : bool :=
  match opening with
  | EmptyString => true
  | String a opening' =>
      match s with
      | EmptyString => false
      | String b s' => Ascii.eqb a b && begins opening' s'
      end
  end.

(** [reason] names the category [c]. *)
Definition names (c : category) (reason : string) : bool :=
  existsb (fun opening => begins opening reason) (openings c).

(** [needle in s] on text *)
Fixpoint mentions (needle s : string) : bool :=
  begins needle s ||
  match s with
  | EmptyString => false
  | String _ s' => mentions needle s'
  end.

(** The descriptions of the signatures that make the header loop return. *)
Definition executable_descriptions : list string :=
  map snd
    (filter (fun e => negb (bytes_eqb (fst e) PDF_SIG)) EXECUTABLE_HEADERS).

(** The reasons with which the streaming loop can return. *)
Inductive stream_reason : string -> Prop :=
| reason_header (desc : string) :
    In desc executable_descriptions ->
    stream_reason (append "Suspicious executable header: " desc)
| reason_javascript :
    stream_reason "Embedded JavaScript in PDF (potential exploit)".

(** The reasons of a result that reports an infection; [format_float] is
    the rendering of a float in an f-string. *)
Inductive detection_reason (format_float : Float.float -> string)
  : string -> Prop :=
| reason_stream (why : string) :
    stream_reason why -> detection_reason format_float why
| reason_md5 (label : string) :
    detection_reason format_float (append "Known malware (MD5): " label)
| reason_sha256 (label : string) :
    detection_reason format_float (append "Known malware (SHA256): " label)
| reason_entropy (e : Float.float) :
    detection_reason format_float
      (append "High file entropy: "
         (append (format_float e) " (suspected packed/encrypted malware)"))
| reason_suspicious :
    detection_reason format_float
      "Suspicious content strings (potential ransomware or command injection)"
| reason_shellcode :
    detection_reason format_float
      "Potential shellcode pattern (NOP sled detected)".

(** The dictionary after a detection with reason [why]. *)
Definition detected (why : string) (r : result) : result :=
  with_reason why (with_infected true r).

(** [l'] is [l] after its accumulators were fed with the chunks [cs]. *)
Definition fed (cs : list bytes) (l l' : locals) : Prop :=
  md5_hash l' = fold_left MD5.update cs (md5_hash l)
  /\ sha256_hash l' = fold_left SHA256.update cs (sha256_hash l)
  /\ byte_counts l'
     = fold_left (fun a c => count_bytes c a) cs (byte_counts l).

(** The two heuristic detectors, each on one chunk. *)
Definition suspicious_chunk (chunk : bytes) : bool :=
  existsb (fun s => contains s (lower chunk)) suspicious_strings.

Definition shellcode_chunk (chunk : bytes) : bool :=
  contains (replicate 20 x90) chunk.

(** [l'] is [l] after its two flags were raised by the chunks [cs], each
    looked at on its own. *)
Definition flagged (cs : list bytes) (l l' : locals) : Prop :=
  suspicious_content l' = existsb suspicious_chunk cs || suspicious_content l
  /\ shellcode_detected l'
     = existsb shellcode_chunk cs || shellcode_detected l.

(** The dictionary with both digests filled in. *)
Definition hashed (l : locals) (r : result) : result :=
  with_sha256 (SHA256.hexdigest (sha256_hash l))
    (with_md5 (MD5.hexdigest (md5_hash l)) r).

(** The float that the entropy step computes from the histogram. *)
Definition file_entropy (l : locals) : Float.float :=
  Float.entropy
    (map (fun c =>
            Float.div (Float.of_int c)
                      (Float.of_int (Int64.sum (byte_counts l))))
         (byte_counts l)).

(** The verdict after a complete stream as the specification words it
    (4.1, step 3): the first rule that applies, in the order MD5 blacklist,
    SHA-256 blacklist, entropy threshold, suspicious-content flag,
    shellcode flag, and a clean report when none does. *)
Definition first_rule (format_float : Float.float -> string)
    (l : locals) (r : result) : result :=
  match lookup KNOWN_BAD_MD5 (MD5.hexdigest (md5_hash l)) with
  | Some label =>
      detected (append "Known malware (MD5): " label) (hashed l r)
  | None =>
  match lookup KNOWN_BAD_SHA256 (SHA256.hexdigest (sha256_hash l)) with
  | Some label =>
      detected (append "Known malware (SHA256): " label) (hashed l r)
  | None =>
      let r' := with_entropy (file_entropy l) (hashed l r) in
      if Float.gt (file_entropy l) ENTROPY_THRESHOLD then
        detected
          (append "High file entropy: "
             (append (format_float (file_entropy l))
                " (suspected packed/encrypted malware)")) r'
      else if suspicious_content l then
        detected
          "Suspicious content strings (potential ransomware or command injection)"
          r'
      else if shellcode_detected l then
        detected "Potential shellcode pattern (NOP sled detected)" r'
      else with_reason "Scan completed: No threats detected" r'
  end
  end.

(** A file that can be opened. *)
Definition opens (fault : io_fault) : Prop :=
  match fault with
  | OpenFails _ => False
  | _ => True
  end.

(** The ways through the [try] body, with the dictionary each one leaves:
    the two validation returns; an exception once the size is stored,
    before any detection or, when closing the file fails, after a
    detection inside the streaming loop; a detection inside the loop; and
    the verdict of the first rule that applies to the locals [l] of a file
    streamed to its end. *)
Inductive scan_path (format_float : Float.float -> string)
    (fs : filesystem) (p : string) (r0 : result)
  : completion unit * result -> Prop :=
| path_missing :
    isfile fs p = false ->
    scan_path format_float fs p r0
      (Returned, with_reason "File does not exist" r0)
| path_empty (data : bytes) (fault : io_fault) (close : option string) :
    fs p = Regular 0 data fault close ->
    scan_path format_float fs p r0 (Returned, with_reason "File is empty" r0)
| path_raised (st_size : Z) (data : bytes) (fault : io_fault)
    (close : option string) (msg : string) :
    fs p = Regular st_size data fault close -> st_size <> 0 ->
    scan_path format_float fs p r0 (Raised msg, with_size st_size r0)
| path_raised_detected (st_size : Z) (data : bytes) (fault : io_fault)
    (why msg : string) :
    fs p = Regular st_size data fault (Some msg) -> st_size <> 0 ->
    opens fault -> stream_reason why ->
    scan_path format_float fs p r0
      (Raised msg, detected why (with_size st_size r0))
| path_stream_detection (st_size : Z) (data : bytes) (fault : io_fault)
    (why : string) :
    fs p = Regular st_size data fault None -> st_size <> 0 ->
    opens fault -> stream_reason why ->
    scan_path format_float fs p r0
      (Returned, detected why (with_size st_size r0))
| path_post_stream (st_size : Z) (data : bytes) (fault : io_fault)
    (l : locals) :
    fs p = Regular st_size data fault None -> st_size <> 0 ->
    opens fault ->
    fed (chunks data) initial_locals l ->
    flagged (chunks data) initial_locals l ->
    scan_path format_float fs p r0
      (Returned, first_rule format_float l (with_size st_size r0)).

(** The first [f.read] succeeds on a file that opens. *)
Definition first_read_succeeds (fault : io_fault) : Prop :=
  match fault with
  | NoFault => True
  | OpenFails _ => False
  | ReadFails n _ => n <> O
  end.

(** A file system with one regular file, an ordinary one: its size is the
    length of its content, and closing it does not fail. *)
Definition single_file (path : string) (data : bytes) (fault : io_fault)
  : filesystem :=
  fun p =>
    if String.eqb p path
    then Regular (Z.of_nat (length data)) data fault None
    else Missing.

End Verdict.

(* ------------------------------------------------------------------ *)
(** ** Histograms and their entropy, over the reals *)

Module Information.

Definition Rsum (l : list R) : R := fold_right Rplus 0%R l.

(** [- x ln x], continued by 0 at 0 *)
Definition eta (x : R) : R :=
  if Rlt_dec 0 x then (- x * ln x)%R else 0%R.

(** The exact sum of a list of integers. *)
Definition Zsum (l : list Z) : Z := fold_right Z.add 0 l.

(** Shannon entropy of a histogram with the natural logarithm (nats) and
    with the logarithm in base 2 (bits). *)
Definition shannon_nats (counts : list Z) : R :=
  Rsum (map (fun c => eta (IZR c / IZR (Zsum counts))) counts).

Definition shannon_bits (counts : list Z) : R :=
  (shannon_nats counts / ln 2)%R.

(** A 256-bucket histogram of [n] bytes. *)
Definition histogram_of (n : Z) (a : list Z) : Prop :=
  length a = 256%nat /\ Forall (fun c => 0 <= c) a /\ Zsum a = n.

End Information.

(* ------------------------------------------------------------------ *)
(** ** Sample files *)

Module Samples.
Import Scanner Verdict.

(** A rendering of floats for the examples; none of them reaches it. *)
Definition digits_elided : Float.float -> string := fun _ => "...".

(** The EICAR anti-virus test file. *)
Definition eicar : bytes :=
  of_string "X5O!P%@AP[4\PZX54(P^)7CC)7}$EICAR-STANDARD-ANTIVIRUS-TEST-FILE!$H+H*".

Definition eicar_fs : filesystem := single_file "/srv/eicar.com" eicar NoFault.

(** 8182 letters followed by twenty 0x90 bytes: the run of 0x90 lies across
    the boundary between the first and the second chunk. *)
Definition straddle : bytes := repeat "A"%byte 8182 ++ repeat x90 20.

Definition straddle_fs : filesystem :=
  single_file "/srv/sled.bin" straddle NoFault.

(** A PDF header, 8182 letters, then the marker: "/Java" ends the first
    chunk, "Script" begins the second. *)
Definition pdf_straddle : bytes :=
  of_string "%PDF-" ++ repeat "A"%byte 8182 ++ of_string "/JavaScript".

Definition pdf_straddle_fs : filesystem :=
  single_file "/srv/form.pdf" pdf_straddle NoFault.

(** Every byte value once, in increasing order. *)
Definition uniform : bytes := map byte_of_Z (map Z.of_nat (seq 0 256)).

Definition uniform_fs : filesystem :=
  single_file "/srv/uniform.bin" uniform NoFault.

(** A short text file. *)
Definition note_fs : filesystem :=
  single_file "/srv/note.txt" (of_string "hello") NoFault.

(** The first bytes of a Windows executable, in a file that can be read and
    in one that cannot be opened. *)
Definition pe_header : bytes := [x4d; x5a; x90; x00; x03; x00; x00; x00].

Definition pe_fs : filesystem := single_file "C:/dl/setup.exe" pe_header NoFault.

Definition locked_pe_fs : filesystem :=
  single_file "C:/dl/locked.exe" pe_header
    (OpenFails "[Errno 13] Permission denied: 'C:/dl/locked.exe'").

(** A file whose first read fails. *)
Definition faulty_fs : filesystem :=
  single_file "/srv/upload.bin" (of_string "payload")
    (ReadFails 0 "[Errno 5] Input/output error").

(** A directory, an empty file that could not even be opened, and nothing
    else. *)
Definition validation_fs : filesystem :=
  fun p =>
    if String.eqb p "/tmp/empty.bin"
    then Regular 0 [] (OpenFails "unreachable") None
    else if String.eqb p "/tmp" then NotRegular 4096
    else Missing.

(** A file system with the one node [n] at [path]. *)
Definition file_at (path : string) (n : node) : filesystem :=
  fun p => if String.eqb p path then n else Missing.

(** A file of procfs: it has content, and its size is reported as 0. *)
Definition procfs_fs : filesystem :=
  file_at "/proc/version"
    (Regular 0 (of_string "Linux version 6.1.0") NoFault None).

(** An attribute file of sysfs: its size is reported as one page, and
    reading it delivers nothing. *)
Definition sysfs_fs : filesystem :=
  file_at "/sys/module/m/notes" (Regular 4096 [] NoFault None).

(** A Windows executable on a share where closing the file fails. *)
Definition stale_pe_fs : filesystem :=
  file_at "/mnt/share/setup.exe"
    (Regular 8 pe_header NoFault (Some "[Errno 5] Input/output error")).

(** A small PDF document that carries a script, and the same document on
    a share where closing the file fails. *)
Definition pdf_script : bytes :=
  of_string "%PDF-1.4 1 0 obj << /S /JavaScript /JS (app.alert(1)) >> endobj".

Definition stale_pdf_fs : filesystem :=
  file_at "/mnt/share/form.pdf"
    (Regular 63 pdf_script NoFault (Some "[Errno 5] Input/output error")).

End Samples.

(* ------------------------------------------------------------------ *)
(** ** The scan in closed form

    What a scan returns, written as a function of the size that
    [os.path.getsize] gives, of the content of the file and of its faults;
    the facts below show that [is_infected] computes it. *)

Module Decision.
Import Float Scanner Verdict.

(** The entries of [EXECUTABLE_HEADERS] on which the header loop returns:
    all but the PDF one. *)
Definition executable_signatures : list (bytes * string) :=
  filter (fun e => negb (bytes_eqb (fst e) PDF_SIG)) EXECUTABLE_HEADERS.

(** The description of the executable signature with which [chunk] begins,
    the first in the order of the table. *)
Definition header_of (chunk : bytes) : option string :=
  option_map snd
    (find (fun e => startswith chunk (fst e)) executable_signatures).

(** [b'/JavaScript' in chunk] *)
Definition javascript_chunk (chunk : bytes) : bool :=
  contains (of_string "/JavaScript") chunk.

(** The two reasons with which the loop returns. *)
Definition header_reason (desc : string) : string :=
  append "Suspicious executable header: " desc.

Definition javascript_reason : string :=
  "Embedded JavaScript in PDF (potential exploit)".

(** The detection inside the loop over the chunks [cs], if there is one:
    an executable signature at the head of the first chunk; failing that,
    in a file whose first chunk begins with the PDF signature, a chunk
    that holds the marker "/JavaScript". *)
Definition stream_detection (cs : list bytes) : option string :=
  match cs with
  | [] => None
  | c :: _ =>
      match header_of c with
      | Some desc => Some (header_reason desc)
      | None =>
          if startswith c PDF_SIG && existsb javascript_chunk cs
          then Some javascript_reason
          else None
      end
  end.

(** The locals after one round of the loop that did not return, [pdf]
    being the value of [pdf_checked] in that round. *)
Definition absorbed (pdf : bool) (l : locals) (c : bytes) : locals :=
  Locals (MD5.update (md5_hash l) c) (SHA256.update (sha256_hash l) c)
         (count_bytes c (byte_counts l)) true pdf
         (if suspicious_chunk c then true else suspicious_content l)
         (if shellcode_chunk c then true else shellcode_detected l).

(** The locals after the chunks [cs] went through the loop without a
    return. *)
Definition streamed (cs : list bytes) : locals :=
  fold_left
    (absorbed (match cs with c :: _ => startswith c PDF_SIG | [] => false end))
    cs initial_locals.

(** The dictionary with the digests of [data] filled in. *)
Definition digests (data : bytes) (r : result) : result :=
  with_sha256 (SHA256.oneshot data) (with_md5 (MD5.oneshot data) r).

(** The float that the entropy step computes on the histogram of [data]. *)
Definition content_entropy (data : bytes) : float :=
  let counts := count_bytes data zeros in
  Float.entropy
    (map (fun c => div (of_int c) (of_int (Int64.sum counts))) counts).

(** The dictionary once the size [st_size] has been stored. *)
Definition sized (p : string) (st_size : Z) : result :=
  with_size st_size (initial_result p).

(** The verdict on a file that went through the loop, read off its
    content: the digest lists, then the two flags; the entropy is stored
    but decides nothing. *)
Definition content_verdict (p : string) (st_size : Z) (data : bytes)
  : result :=
  match lookup KNOWN_BAD_MD5 (MD5.oneshot data) with
  | Some label =>
      detected (append "Known malware (MD5): " label)
        (digests data (sized p st_size))
  | None =>
  match lookup KNOWN_BAD_SHA256 (SHA256.oneshot data) with
  | Some label =>
      detected (append "Known malware (SHA256): " label)
        (digests data (sized p st_size))
  | None =>
      let r := with_entropy (content_entropy data)
                 (digests data (sized p st_size)) in
      if existsb suspicious_chunk (chunks data) then
        detected
          "Suspicious content strings (potential ransomware or command injection)"
          r
      else if existsb shellcode_chunk (chunks data) then
        detected "Potential shellcode pattern (NOP sled detected)" r
      else with_reason "Scan completed: No threats detected" r
  end
  end.

(** The result of scanning a file of non-zero size that is read to its
    end and closed without a failure. *)
Definition decision (p : string) (st_size : Z) (data : bytes) : result :=
  match stream_detection (chunks data) with
  | Some why => detected why (sized p st_size)
  | None => content_verdict p st_size data
  end.

(** What the exception handler makes of the dictionary [r]. *)
Definition handled (msg : string) (r : result) : result :=
  with_reason (append "Scan error: " msg) r.

(** The dictionary that the handler returns when nothing was detected. *)
Definition scan_error (p : string) (st_size : Z) (msg : string) : result :=
  handled msg (sized p st_size).

(** The chunks that the reads deliver before a read fails or the file
    ends, and the text of the failure of the read that follows them. *)
Definition delivered (data : bytes) (fault : io_fault) : list bytes :=
  match fault with
  | ReadFails n _ => firstn n (chunks data)
  | _ => chunks data
  end.

Definition read_error (data : bytes) (fault : io_fault) : option string :=
  match fault with
  | ReadFails n msg =>
      if (n <=? length (chunks data))%nat then Some msg else None
  | _ => None
  end.

(** The result of scanning a regular file of non-zero size, whatever its
    faults.  A detection inside the loop stands unless closing the file
    fails: the handler then overwrites the reason and leaves the flag.
    Without a detection, a failure of [close] or else of a read is
    reported; failing both, the verdict is the one on the content. *)
Definition outcome (p : string) (st_size : Z) (data : bytes)
    (fault : io_fault) (close : option string) : result :=
  match fault with
  | OpenFails msg => scan_error p st_size msg
  | _ =>
      match stream_detection (delivered data fault) with
      | Some why =>
          match close with
          | Some msg => handled msg (detected why (sized p st_size))
          | None => detected why (sized p st_size)
          end
      | None =>
          match close, read_error data fault with
          | Some msg, _ => scan_error p st_size msg
          | None, Some msg => scan_error p st_size msg
          | None, None => content_verdict p st_size data
          end
      end
  end.

End Decision.

(* ------------------------------------------------------------------ *)
(** ** Byte frequencies *)

Module Frequencies.
Import Information.

(** How often the byte [b] occurs in [data]. *)
Definition occurrences (b : byte) (data : bytes) : Z :=
  Z.of_nat (count_occ Byte.byte_eq_dec data b).

(** The 256 byte values in increasing order. *)
Definition all_bytes : list byte := map byte_of_Z (map Z.of_nat (seq 0 256)).

(** The Shannon entropy, in nats, of the distribution of the byte values
    of [data]. *)
Definition byte_entropy (data : bytes) : R :=
  Rsum (map (fun b =>
               eta (IZR (occurrences b data) / IZR (Z.of_nat (length data))))
            all_bytes).

End Frequencies.

(* ------------------------------------------------------------------ *)
(** ** The script: [json.dumps] and the block under [__main__]

    Text is a sequence of characters with code points below 256.  The
    rendering of a finite float by [float.__repr__] and the ability of
    [sys.stdout] to encode a text are left open. *)

Module Json.
Import Float.

(** The values that are handed to [json.dumps]. *)
Inductive value : Type :=
| Null
| Bool (b : bool)
| Int (z : Z)
| Number (x : float)
| Str (s : string)
| Object (members : list (string * value)).

Definition backslash : ascii := ascii_of_nat 92.
Definition double_quote : ascii := ascii_of_nat 34.

Definition code (c : ascii) : Z := Z.of_nat (nat_of_ascii c).

(** One character of a string literal: the short escapes of [ESCAPE_DCT],
    a [\u00XX] escape for the other control characters and, under
    [ensure_ascii], for what lies beyond the tilde. *)
Definition escape_char (ensure_ascii : bool) (c : ascii) : string :=
  let n := code c in
  if n =? 34 then String backslash (String double_quote EmptyString)
  else if n =? 92 then String backslash (String backslash EmptyString)
  else if n =? 8 then "\b"
  else if n =? 12 then "\f"
  else if n =? 10 then "\n"
  else if n =? 13 then "\r"
  else if n =? 9 then "\t"
  else if (n <? 32) || (ensure_ascii && (126 <? n)) then
    append "\u00"
      (String (hex_digit (n / 16)) (String (hex_digit (n mod 16)) EmptyString))
  else String c EmptyString.

Fixpoint escape (ensure_ascii : bool) (s : string) : string :=
  match s with
  | EmptyString => EmptyString
  | String c s' => append (escape_char ensure_ascii c) (escape ensure_ascii s')
  end.

(** No character of [s] is a control character below the space: [s] has no
    line break in particular. *)
Fixpoint control_free (s : string) : bool :=
  match s with
  | EmptyString => true
  | String c s' => (32 <=? code c) && control_free s'
  end.

Definition encode_string (ensure_ascii : bool) (s : string) : string :=
  String double_quote
    (append (escape ensure_ascii s) (String double_quote EmptyString)).

(** [int.__repr__] *)
Definition encode_int (z : Z) : string := NilZero.string_of_int (Z.to_int z).

Section Dumps.

(** [float.__repr__] on the finite floats. *)
Variable float_repr : R -> string.

Definition encode_float (x : float) : string :=
  match x with
  | Fin r => float_repr r
  | PInf => "Infinity"
  | NInf => "-Infinity"
  | NaN => "NaN"
  end.

(** [json.dumps(v, ensure_ascii=...)] with the default separators. *)
Fixpoint dumps (ensure_ascii : bool) (v : value) : string :=
  match v with
  | Null => "null"
  | Bool true => "true"
  | Bool false => "false"
  | Int z => encode_int z
  | Number x => encode_float x
  | Str s => encode_string ensure_ascii s
  | Object members =>
      let fix items (first : bool) (ms : list (string * value)) : string :=
        match ms with
        | [] => EmptyString
        | (k, x) :: ms' =>
            append (if first then EmptyString else ", ")
              (append (encode_string ensure_ascii k)
                 (append ": "
                    (append (dumps ensure_ascii x) (items false ms'))))
        end in
      String "{" (append (items true members) "}")
  end.

End Dumps.

End Json.

Module Main.
Import Float Scanner Json.

Definition optional (s : option string) : value :=
  match s with
  | Some t => Str t
  | None => Null
  end.

(** The dictionary that [is_infected] returns, as a JSON value; the keys
    come in the order of their insertion. *)
Definition to_json (r : result) : value :=
  Object
    [ ("infected", Bool (infected r));
      ("reason", optional (reason r));
      ("filename", Str (filename r));
      ("size", Int (size r));
      ("hashes",
       Object [ ("md5", optional (md5 (hashes r)));
                ("sha256", optional (sha256 (hashes r))) ]);
      ("entropy", Number (entropy r)) ].

(** What a run of the script leaves: the text on standard output and the
    exit status. *)
Record run : Type := Run {
  stdout : string;
  status : Z
}.

Definition newline : string := String (ascii_of_nat 10) EmptyString.

Section Script.

Variable format_float : float -> string.
Variable float_repr : R -> string.

(** Whether [sys.stdout] can encode a text; [print] raises
    [UnicodeEncodeError] before writing anything when it cannot. *)
Variable encodable : string -> bool.

(** [print(text)] followed by the rest of the script, which ends with the
    status [after]; an exception that nothing catches ends the run with
    status 1. *)
Definition print (text : string) (after : Z) : run :=
  if encodable text then Run (append text newline) after else Run EmptyString 1.

(** The block under [if __name__ == "__main__"]. *)
Definition main (fs : filesystem) (argv : list string) : run :=
  if (length argv <? 2)%nat then
    print
      (dumps float_repr true
         (Object [ ("infected", Bool false);
                   ("reason", Str "No file path provided") ]))
      1
  else
    let file_path := nth 1 argv EmptyString in
    match is_infected format_float fs file_path with
    | Returns scan_result =>
        print (dumps float_repr false (to_json scan_result)) 0
    | ReturnsNone => print (dumps float_repr false Null) 0
    | Propagates _ => Run EmptyString 1
    end.

End Script.

End Main.

(* ------------------------------------------------------------------ *)
(** ** More sample files *)

Module MoreSamples.
Import Scanner Verdict Samples.

(** The first bytes of a Linux executable. *)
Definition elf_header : bytes :=
  x7f :: of_string "ELF" ++ [x02; x01; x01; x00].

Definition elf_fs : filesystem := single_file "/usr/bin/tool" elf_header NoFault.

(** The PDF document [pdf_script] in an ordinary file. *)
Definition pdf_script_fs : filesystem :=
  single_file "/srv/in/form.pdf" pdf_script NoFault.

(** The EICAR test file on a device where the read that follows its only
    chunk fails. *)
Definition eicar_io_fs : filesystem :=
  single_file "/mnt/usb/eicar.com" eicar
    (ReadFails 1 "[Errno 5] Input/output error").

(** A ransom note, capitals included. *)
Definition ransom_note : bytes :=
  of_string "Your files are locked. Send 2 BitCoin to the address below.".

Definition ransom_fs : filesystem :=
  single_file "/home/u/README.txt" ransom_note NoFault.

(** A file of 4096 zero bytes. *)
Definition zero_fs : filesystem :=
  single_file "/var/swap.img" (repeat x00 4096) NoFault.

End MoreSamples.

(* ------------------------------------------------------------------ *)
(** ** The scanner with its log

    The same statements as in [Scanner], with the calls of [logging] put
    back: a statement now runs on the [result] dictionary and on the list
    of the records logged so far.  The root logger is configured at level
    INFO, so every record of the three levels used is emitted; of a record
    the level and the message are kept, not the time stamp. *)

Module Logged.
Import Float Scanner.

Inductive level : Type :=
| WARNING
| ERROR
| CRITICAL.

Record entry : Type := Entry {
  levelname : level;
  message : string
}.

Definition logged (A : Type) : Type :=
  result * list entry -> completion A * (result * list entry).

(** A statement of [Scanner], which logs nothing. *)
Definition lift {A} (m : py A) : logged A :=
  fun s => let (c, r) := m (fst s) in (c, (r, snd s)).

Definition bind {A B} (m : logged A) (k : A -> logged B) : logged B :=
  fun s =>
    match m s with
    | (Normal a, s') => k a s'
    | (Returned, s') => (Returned, s')
    | (Raised msg, s') => (Raised msg, s')
    end.

(** [logging.warning(msg)], [logging.error(msg)], [logging.critical(msg)] *)
Definition emit (lv : level) (msg : string) : logged unit :=
  fun s => (Normal tt, (fst s, snd s ++ [Entry lv msg])).

(** [with ... as f: body], as in [Scanner]: an exception that closing the
    file raises takes the place of what left the body; the dictionary and
    the log are as the body left them. *)
Definition with_closing {A} (f : file_object) (body : logged A) : logged A :=
  fun s =>
    match close_error f with
    | None => body s
    | Some msg => (Raised msg, snd (body s))
    end.

(** [logging.<level>(result["reason"] + text)] *)
Definition emit_reason (lv : level) (text : string) : logged unit :=
  fun s =>
    match reason (fst s) with
    | Some why => emit lv (append why text) s
    | None =>
        (Raised "unsupported operand type(s) for +: 'NoneType' and 'str'", s)
    end.

Declare Scope logged_scope.
Delimit Scope logged_scope with logged.
Notation "x <- m ;; k" := (bind m (fun x => k))
  (at level 61, m at next level, right associativity) : logged_scope.
Notation "m ;; k" := (bind m (fun _ => k))
  (at level 61, right associativity) : logged_scope.
Local Open Scope logged_scope.

Fixpoint check_headers (file_path : string) (table : list (bytes * string))
    (chunk : bytes) (pdf : bool) : logged bool :=
  match table with
  | [] => lift (ret pdf)
  | (sig, desc) :: table' =>
      if startswith chunk sig then
        if bytes_eqb sig PDF_SIG then check_headers file_path table' chunk true
        else
          emit CRITICAL
            (append "Executable header detected: "
               (append desc (append " in " file_path))) ;;
          lift (assign (with_infected true)) ;;
          lift (assign (with_reason
                          (append "Suspicious executable header: " desc))) ;;
          lift return_result
      else check_headers file_path table' chunk pdf
  end.

Definition loop_body (file_path : string) (chunk : bytes) (l : locals)
  : logged locals :=
  let md5_hash' := MD5.update (md5_hash l) chunk in
  let sha256_hash' := SHA256.update (sha256_hash l) chunk in
  let byte_counts' := count_bytes chunk (byte_counts l) in
  flags <-
    (if negb (header_checked l) then
       pdf <- check_headers file_path EXECUTABLE_HEADERS chunk
                (pdf_checked l) ;;
       lift (ret (true, pdf))
     else lift (ret (header_checked l, pdf_checked l))) ;;
  let '(header_checked', pdf_checked') := flags in
  (if pdf_checked' && contains (of_string "/JavaScript") chunk then
     emit CRITICAL (append "Embedded JavaScript detected in PDF: " file_path) ;;
     lift (assign (with_infected true)) ;;
     lift (assign
             (with_reason "Embedded JavaScript in PDF (potential exploit)")) ;;
     lift return_result
   else lift (ret tt)) ;;
  let suspicious_content' :=
    if existsb (fun s => contains s (lower chunk)) suspicious_strings
    then true else suspicious_content l in
  let shellcode_detected' :=
    if contains (replicate 20 x90) chunk
    then true else shellcode_detected l in
  lift (ret (Locals md5_hash' sha256_hash' byte_counts' header_checked'
                    pdf_checked' suspicious_content' shellcode_detected')).

Fixpoint for_chunks (file_path : string) (f : list read_result) (l : locals)
  : logged locals :=
  match f with
  | [] => lift (ret l)
  | IOError msg :: _ => lift (raise msg)
  | Data [] :: _ => lift (ret l)
  | Data chunk :: f' =>
      l' <- loop_body file_path chunk l ;; for_chunks file_path f' l'
  end.

Section Formatting.

Variable format_float : float -> string.

Definition post_stream (file_path : string) (l : locals) : logged unit :=
  lift (assign (with_md5 (MD5.hexdigest (md5_hash l)))) ;;
  lift (assign (with_sha256 (SHA256.hexdigest (sha256_hash l)))) ;;
  md5_hex <- lift (read_result_field (fun r => md5 (hashes r))) ;;
  match option_map (lookup KNOWN_BAD_MD5) md5_hex with
  | Some (Some label) =>
      emit CRITICAL
        (append "MD5 blacklist match: "
           (append label (append " in " file_path))) ;;
      lift (assign (with_infected true)) ;;
      lift (assign (with_reason (append "Known malware (MD5): " label))) ;;
      lift return_result
  | _ =>
  sha256_hex <- lift (read_result_field (fun r => sha256 (hashes r))) ;;
  match option_map (lookup KNOWN_BAD_SHA256) sha256_hex with
  | Some (Some label) =>
      emit CRITICAL
        (append "SHA256 blacklist match: "
           (append label (append " in " file_path))) ;;
      lift (assign (with_infected true)) ;;
      lift (assign (with_reason (append "Known malware (SHA256): " label))) ;;
      lift return_result
  | _ =>
  let total := Int64.sum (byte_counts l) in
  let probs := map (fun c => div (of_int c) (of_int total))
                   (byte_counts l) in
  let file_entropy := Float.entropy probs in
  lift (assign (with_entropy file_entropy)) ;;
  if gt file_entropy ENTROPY_THRESHOLD then
    emit WARNING
      (append "High entropy detected (possible encrypted malware): "
         (append (format_float file_entropy) (append " in " file_path))) ;;
    lift (assign (with_infected true)) ;;
    lift (assign
            (with_reason
               (append "High file entropy: "
                  (append (format_float file_entropy)
                     " (suspected packed/encrypted malware)")))) ;;
    lift return_result
  else if suspicious_content l then
    emit WARNING (append "Suspicious strings detected in " file_path) ;;
    lift (assign (with_infected true)) ;;
    lift (assign (with_reason
      "Suspicious content strings (potential ransomware or command injection)")) ;;
    lift return_result
  else if shellcode_detected l then
    emit WARNING
      (append "Potential shellcode detected (NOP sled) in " file_path) ;;
    lift (assign (with_infected true)) ;;
    lift (assign
            (with_reason "Potential shellcode pattern (NOP sled detected)")) ;;
    lift return_result
  else
    lift (assign (with_reason "Scan completed: No threats detected")) ;;
    lift return_result
  end
  end.

Definition try_block (fs : filesystem) (file_path : string) : logged unit :=
  if negb (isfile fs file_path) then
    lift (assign (with_reason "File does not exist")) ;;
    emit_reason ERROR (append ": " file_path) ;;
    lift return_result
  else
    file_size <- lift (getsize fs file_path) ;;
    if file_size =? 0 then
      lift (assign (with_reason "File is empty")) ;;
      emit_reason WARNING (append ": " file_path) ;;
      lift return_result
    else
      lift (assign (with_size file_size)) ;;
      f <- lift (open_rb fs file_path) ;;
      l <- with_closing f (for_chunks file_path (stream f) initial_locals) ;;
      post_stream file_path l.

(** [is_infected(file_path)] with the records that the call logs. *)
Definition is_infected (fs : filesystem) (file_path : string)
  : call_outcome * list entry :=
  match try_block fs file_path (initial_result file_path, []) with
  | (Returned, (r, log)) => (Returns r, log)
  | (Raised msg, (r, log)) =>
      (Returns (with_reason (append "Scan error: " msg) r),
       log ++ [Entry ERROR
                 (append "Unexpected error scanning "
                    (append file_path (append ": " msg)))])
  | (Normal _, (_, log)) => (ReturnsNone, log)
  end.

End Formatting.

End Logged.

(** The records that a scan logs, read off the file. *)
Module Journal.
Import Float Scanner Verdict Decision Logged.

Definition critical (msg : string) : list entry := [Entry CRITICAL msg].
Definition warning (msg : string) : list entry := [Entry WARNING msg].
Definition error (msg : string) : list entry := [Entry ERROR msg].

(** What the loop logs on the chunks [cs]. *)
Definition stream_log (p : string) (cs : list bytes) : list entry :=
  match cs with
  | [] => []
  | c :: _ =>
      match header_of c with
      | Some desc =>
          critical (append "Executable header detected: "
                      (append desc (append " in " p)))
      | None =>
          if startswith c PDF_SIG && existsb javascript_chunk cs
          then critical (append "Embedded JavaScript detected in PDF: " p)
          else []
      end
  end.

(** What the statements after the loop log. *)
Definition content_log (p : string) (data : bytes) : list entry :=
  match lookup KNOWN_BAD_MD5 (MD5.oneshot data) with
  | Some label =>
      critical (append "MD5 blacklist match: " (append label (append " in " p)))
  | None =>
  match lookup KNOWN_BAD_SHA256 (SHA256.oneshot data) with
  | Some label =>
      critical
        (append "SHA256 blacklist match: " (append label (append " in " p)))
  | None =>
      if existsb suspicious_chunk (chunks data) then
        warning (append "Suspicious strings detected in " p)
      else if existsb shellcode_chunk (chunks data) then
        warning (append "Potential shellcode detected (NOP sled) in " p)
      else []
  end
  end.

Definition error_log (p msg : string) : list entry :=
  error (append "Unexpected error scanning " (append p (append ": " msg))).

(** What the scan of a regular file of non-zero size logs. *)
Definition outcome_log (p : string) (data : bytes) (fault : io_fault)
    (close : option string) : list entry :=
  match fault with
  | OpenFails msg => error_log p msg
  | _ =>
      match stream_detection (delivered data fault) with
      | Some _ =>
          stream_log p (delivered data fault)
            ++ match close with
               | Some msg => error_log p msg
               | None => []
               end
      | None =>
          match close, read_error data fault with
          | Some msg, _ => error_log p msg
          | None, Some msg => error_log p msg
          | None, None => content_log p data
          end
      end
  end.

(** The records of a call. *)
Definition journal (fs : filesystem) (p : string) : list entry :=
  match fs p with
  | Regular st_size data fault close =>
      if st_size =? 0 then warning (append "File is empty" (append ": " p))
      else outcome_log p data fault close
  | _ => error (append "File does not exist" (append ": " p))
  end.

(** The level of the last record that the call which returned [r] has
    logged, if it has logged one. *)
Definition level_of (r : result) : option level :=
  match reason r with
  | None => None
  | Some why =>
      if String.eqb why "Scan completed: No threats detected" then None
      else if begins "Scan error: " why then Some ERROR
      else if infected r then
        if names Signature why || names EmbeddedScript why
           || names DigestBlacklist why
        then Some CRITICAL else Some WARNING
      else if String.eqb why "File is empty" then Some WARNING
      else Some ERROR
  end.

(** A result that reports an infection and a scan error at once. *)
Definition error_after_detection (r : result) : bool :=
  infected r
  && match reason r with
     | Some why => begins "Scan error: " why
     | None => false
     end.

End Journal.

(* ================================================================== *)
(** * Facts *)

(** ** Test vectors of the digests *)

Import Samples.

Example md5_empty :
  MD5.hexdigest MD5.md5 = "d41d8cd98f00b204e9800998ecf8427e".
Proof. vm_compute. reflexivity. Qed.

Example md5_abc :
  MD5.hexdigest (MD5.update MD5.md5 (of_string "abc"))
  = "900150983cd24fb0d6963f7d28e17f72".
Proof. vm_compute. reflexivity. Qed.

Example sha256_abc :
  SHA256.hexdigest (SHA256.update SHA256.sha256 (of_string "abc"))
  = "ba7816bf8f01cfea414140de5dae2223b00361a396177a9cb410ff61f20015ad".
Proof. vm_compute. reflexivity. Qed.

Example md5_eicar :
  MD5.oneshot eicar = "44d88612fea8a8f36de82e1278abb02f".
Proof. vm_compute. reflexivity. Qed.

Example md5_uniform :
  MD5.oneshot uniform = "e2c865db4162bed963bfaa9ef6ac18f0".
Proof. vm_compute. reflexivity. Qed.

Example sha256_uniform :
  SHA256.oneshot uniform
  = "40aff2e9d2d8922e47afd4648e6967497158785fbd1da870e7110266bf944880".
Proof. vm_compute. reflexivity. Qed.

Example sha256_eicar :
  SHA256.oneshot eicar
  = "275a021bbfb6489e54d471899f7db9d1663fc695ec2fe2a2c4538aabf651fd0f".
Proof. vm_compute. reflexivity. Qed.

(** ** hashlib objects: feeding in pieces *)

Section HashObjectFacts.

Import HashObject.

Variable chain : Type.
Variable iv : chain.
Variable compress : chain -> bytes -> chain.
Variable length_field : Z -> bytes.
Variable encode : chain -> bytes.

Local Abbreviation absorb := (HashObject.absorb compress).
Local Abbreviation absorb_all := (HashObject.absorb_all compress).
Local Abbreviation update := (HashObject.update compress).

Lemma absorb_S (n : nat) (c : chain) (l : bytes) :
  absorb (S n) c l
  = if (block_size <=? length l)%nat
    then absorb n (compress c (firstn block_size l)) (skipn block_size l)
    else (c, l).
Proof. reflexivity. Qed.

(** Any bound at least the length of the input gives the same result. *)
Lemma absorb_fuel (n : nat) :
  forall (m : nat) (c : chain) (l : bytes),
    (length l <= n)%nat -> (length l <= m)%nat ->
    absorb n c l = absorb m c l.
Proof.
  induction n as [|n IH]; intros m c l Hn Hm.
  - destruct l; [|simpl in Hn; lia]. destruct m; reflexivity.
  - destruct m as [|m].
    + destruct l; [reflexivity | simpl in Hm; lia].
    + rewrite !absorb_S.
      destruct (Nat.leb_spec block_size (length l)) as [E|E];
        [|reflexivity].
      unfold block_size in *.
      apply IH; rewrite length_skipn; lia.
Qed.

Lemma absorb_all_short (c : chain) (l : bytes) :
  (length l < block_size)%nat -> absorb_all c l = (c, l).
Proof.
  intros H. unfold HashObject.absorb_all.
  destruct (length l) as [|n] eqn:E; [reflexivity|].
  rewrite absorb_S, E.
  destruct (Nat.leb_spec block_size (S n)) as [E'|E']; [lia|reflexivity].
Qed.

Lemma absorb_all_step (c : chain) (l : bytes) :
  (block_size <= length l)%nat ->
  absorb_all c l
  = absorb_all (compress c (firstn block_size l)) (skipn block_size l).
Proof.
  intros H. unfold HashObject.absorb_all.
  destruct (length l) as [|n] eqn:E; [unfold block_size in H; lia|].
  rewrite absorb_S, E.
  destruct (Nat.leb_spec block_size (S n)) as [E'|E']; [|lia].
  apply absorb_fuel; rewrite length_skipn; unfold block_size; lia.
Qed.

(** What is left over is always less than a block. *)
Lemma absorb_all_rest (l : bytes) :
  forall c, (length (snd (absorb_all c l)) < block_size)%nat.
Proof.
  remember (length l) as n eqn:En. revert l En.
  induction n as [n IH] using lt_wf_ind. intros l En c.
  destruct (le_lt_dec block_size (length l)) as [Hge|Hlt].
  - rewrite absorb_all_step by exact Hge.
    apply (IH (length (skipn block_size l))); [|reflexivity].
    rewrite length_skipn. unfold block_size in *. lia.
  - rewrite absorb_all_short by exact Hlt. exact Hlt.
Qed.

(** Absorbing [l1 ++ l2] is absorbing [l1], then what [l1] left over
    followed by [l2]. *)
Lemma absorb_all_app (l1 : bytes) :
  forall (c : chain) (l2 : bytes),
    absorb_all c (l1 ++ l2)
    = absorb_all (fst (absorb_all c l1)) (snd (absorb_all c l1) ++ l2).
Proof.
  remember (length l1) as n eqn:En. revert l1 En.
  induction n as [n IH] using lt_wf_ind. intros l1 En c l2.
  destruct (le_lt_dec block_size (length l1)) as [Hge|Hlt].
  - rewrite (absorb_all_step c l1) by exact Hge.
    rewrite (absorb_all_step c (l1 ++ l2))
      by (rewrite length_app; lia).
    rewrite firstn_app, skipn_app.
    replace (block_size - length l1)%nat with O by lia.
    simpl firstn. simpl skipn. rewrite app_nil_r.
    apply (IH (length (skipn block_size l1))); [|reflexivity].
    rewrite length_skipn. unfold block_size in *. lia.
  - rewrite (absorb_all_short c l1) by exact Hlt. reflexivity.
Qed.

Lemma new_buffer_ok : buffer_ok (new iv).
Proof. unfold buffer_ok, block_size. simpl. lia. Qed.

Lemma update_buffer_ok (h : hasher chain) (data : bytes) :
  buffer_ok (update h data).
Proof.
  unfold buffer_ok, HashObject.update.
  pose proof (absorb_all_rest (h_buffer h ++ data) (h_chain h)) as H.
  destruct (absorb_all (h_chain h) (h_buffer h ++ data)) as [c rest].
  exact H.
Qed.

Lemma update_nil (h : hasher chain) :
  buffer_ok h -> update h [] = h.
Proof.
  intros H. unfold HashObject.update. rewrite app_nil_r.
  rewrite absorb_all_short by exact H.
  destruct h as [c b n]. simpl. f_equal. lia.
Qed.

(** Two successive updates are one update with the concatenation. *)
Lemma update_update (h : hasher chain) (a b : bytes) :
  update (update h a) b = update h (a ++ b).
Proof.
  unfold HashObject.update.
  rewrite app_assoc.
  rewrite (absorb_all_app (h_buffer h ++ a) (h_chain h) b).
  destruct (absorb_all (h_chain h) (h_buffer h ++ a)) as [c rest].
  simpl.
  destruct (absorb_all c (rest ++ b)) as [c' rest'].
  f_equal. rewrite length_app. lia.
Qed.

Lemma fold_update (chunks : list bytes) :
  forall h : hasher chain,
    buffer_ok h ->
    fold_left update chunks h = update h (concat chunks).
Proof.
  induction chunks as [|ch chunks IH]; intros h Hh; simpl.
  - symmetry. apply update_nil. exact Hh.
  - rewrite IH by apply update_buffer_ok. apply update_update.
Qed.

Lemma hexdigest_update_new (msg : bytes) :
  hexdigest compress length_field encode (update (new iv) msg)
  = oneshot iv compress length_field encode msg.
Proof.
  unfold hexdigest, digest, oneshot, HashObject.update. simpl.
  rewrite (absorb_all_app msg iv).
  destruct (absorb_all iv msg) as [c rest]. reflexivity.
Qed.

(** Feeding the pieces of a message one after the other and finalising
    gives the single-shot digest of the whole message. *)
Lemma hexdigest_fold_update (chunks : list bytes) :
  hexdigest compress length_field encode (fold_left update chunks (new iv))
  = oneshot iv compress length_field encode (concat chunks).
Proof.
  rewrite fold_update by apply new_buffer_ok.
  apply hexdigest_update_new.
Qed.

End HashObjectFacts.

(** ** Streaming: chunks and reads *)

Module StreamFacts.
Import Scanner.

Lemma CHUNK_SIZE_pos : (0 < CHUNK_SIZE)%nat.
Proof. apply Nat.ltb_lt. vm_compute. reflexivity. Qed.

Lemma chunks_of_concat (fuel : nat) :
  forall data : bytes,
    (length data <= fuel)%nat -> concat (chunks_of fuel data) = data.
Proof.
  pose proof CHUNK_SIZE_pos as Hpos.
  induction fuel as [|fuel IH]; intros data Hlen.
  - destruct data; [reflexivity | simpl in Hlen; lia].
  - destruct data as [|b data]; [reflexivity|].
    change (firstn CHUNK_SIZE (b :: data)
              ++ concat (chunks_of fuel (skipn CHUNK_SIZE (b :: data)))
            = b :: data).
    rewrite IH; [apply firstn_skipn|].
    rewrite length_skipn. simpl in *. lia.
Qed.

Lemma chunks_concat (data : bytes) : concat (chunks data) = data.
Proof. apply chunks_of_concat. apply Nat.le_refl. Qed.

Lemma chunks_of_nonempty (fuel : nat) :
  forall data : bytes, Forall (fun c => c <> []) (chunks_of fuel data).
Proof.
  pose proof CHUNK_SIZE_pos as Hpos.
  induction fuel as [|fuel IH]; intros data; [constructor|].
  destruct data as [|b data]; [constructor|].
  change (Forall (fun c => c <> [])
            (firstn CHUNK_SIZE (b :: data)
               :: chunks_of fuel (skipn CHUNK_SIZE (b :: data)))).
  constructor; [|apply IH].
  destruct CHUNK_SIZE; [lia | discriminate].
Qed.

Lemma chunks_nonempty (data : bytes) :
  Forall (fun c => c <> []) (chunks data).
Proof. apply chunks_of_nonempty. Qed.

Lemma Forall_firstn {A} (P : A -> Prop) (n : nat) (l : list A) :
  Forall P l -> Forall P (firstn n l).
Proof.
  intros H. rewrite <- (firstn_skipn n l) in H.
  apply Forall_app in H. apply H.
Qed.

(** An open file is its chunks followed by the empty read, or, when a
    read fails, some of its chunks followed by the failure. *)
Lemma reads_shape (data : bytes) (fault : io_fault) :
  reads data fault = map Data (chunks data) ++ [Data []]
  \/ exists n msg,
       reads data fault = map Data (firstn n (chunks data)) ++ [IOError msg].
Proof.
  unfold reads. rewrite map_app. change (map Data [[]]) with [Data []].
  destruct fault as [|msg|n msg]; try (left; reflexivity).
  destruct (Nat.ltb_spec n (length (map Data (chunks data) ++ [Data []])))
    as [Hlt|Hge]; [|left; reflexivity].
  right. exists n, msg. f_equal.
  rewrite length_app, length_map in Hlt. simpl in Hlt.
  rewrite firstn_app, length_map.
  replace (n - length (chunks data))%nat with O by lia.
  simpl firstn at 2. rewrite app_nil_r. apply firstn_map.
Qed.

End StreamFacts.

(** ** Control flow of the streaming loop *)

Module LoopFacts.
Import Scanner Verdict StreamFacts.
Local Open Scope py_scope.

Ltac run := cbv [bind assign ret return_result raise read_result_field].

Lemma check_headers_cases (table : list (bytes * string)) (chunk : bytes) :
  forall (pdf : bool) (r : result),
    (exists pdf', check_headers table chunk pdf r = (Normal pdf', r))
    \/ (exists sig desc,
          In (sig, desc) table /\ bytes_eqb sig PDF_SIG = false
          /\ check_headers table chunk pdf r
             = (Returned,
                detected (append "Suspicious executable header: " desc) r)).
Proof.
  induction table as [|[sig desc] table IH]; intros pdf r.
  - left. exists pdf. reflexivity.
  - simpl check_headers.
    destruct (startswith chunk sig).
    + destruct (bytes_eqb sig PDF_SIG) eqn:E.
      * destruct (IH true r) as [[pdf' H]|(s & d & Hin & Hs & H)].
        -- left. exists pdf'. exact H.
        -- right. exists s, d. repeat split; auto. right. exact Hin.
      * right. exists sig, desc. repeat split; auto. left. reflexivity.
    + destruct (IH pdf r) as [[pdf' H]|(s & d & Hin & Hs & H)].
      * left. exists pdf'. exact H.
      * right. exists s, d. repeat split; auto. right. exact Hin.
Qed.

Lemma executable_description (sig : bytes) (desc : string) :
  In (sig, desc) EXECUTABLE_HEADERS -> bytes_eqb sig PDF_SIG = false ->
  In desc executable_descriptions.
Proof.
  intros Hin Hs. unfold executable_descriptions.
  apply in_map_iff. exists (sig, desc). split; [reflexivity|].
  apply filter_In. split; [exact Hin|]. simpl. rewrite Hs. reflexivity.
Qed.

(** One round of the loop either goes on, with the [result] dictionary
    untouched, the three accumulators fed with the chunk and the two flags
    raised if the chunk calls for it, or returns with a detection. *)
Lemma loop_body_cases (chunk : bytes) (l : locals) (r : result) :
  (exists l',
      loop_body chunk l r = (Normal l', r)
      /\ fed [chunk] l l' /\ flagged [chunk] l l')
  \/ (exists why,
        stream_reason why /\ loop_body chunk l r = (Returned, detected why r)).
Proof.
  assert (Hflag : forall b x : bool, (if b then true else x) = b || false || x)
    by (intros [|] [|]; reflexivity).
  unfold loop_body.
  destruct (header_checked l) eqn:Hc; simpl negb; cbv iota.
  - run.
    destruct (pdf_checked l && contains (of_string "/JavaScript") chunk).
    + right. eexists. split; [apply reason_javascript | reflexivity].
    + left. eexists. split; [reflexivity|].
      split; [repeat split | split; apply Hflag].
  - run.
    destruct (check_headers_cases EXECUTABLE_HEADERS chunk (pdf_checked l) r)
      as [[pdf' H]|(s & d & Hin & Hs & H)]; rewrite !H.
    + destruct (pdf' && contains (of_string "/JavaScript") chunk).
      * right. eexists. split; [apply reason_javascript | reflexivity].
      * left. eexists. split; [reflexivity|].
        split; [repeat split | split; apply Hflag].
    + right. eexists. split; [|reflexivity].
      apply reason_header. eapply executable_description; eassumption.
Qed.

(** The loop over an open file: it ends normally, returns with a
    detection, or an exception leaves it; the [result] dictionary changes
    only in the second case. *)
Lemma for_chunks_cases (f : list read_result) :
  forall (l : locals) (r : result),
    (exists l', for_chunks f l r = (Normal l', r))
    \/ (exists why,
          stream_reason why /\ for_chunks f l r = (Returned, detected why r))
    \/ (exists msg, for_chunks f l r = (Raised msg, r)).
Proof.
  induction f as [|[chunk|msg] f IH]; intros l r.
  - left. exists l. reflexivity.
  - destruct chunk as [|b chunk].
    + left. exists l. reflexivity.
    + change (for_chunks (Data (b :: chunk) :: f) l r)
        with (bind (loop_body (b :: chunk) l) (for_chunks f) r).
      unfold bind.
      destruct (loop_body_cases (b :: chunk) l r)
        as [(l' & H & _)|(why & Hwhy & H)]; rewrite H.
      * apply IH.
      * right. left. exists why. split; [exact Hwhy | reflexivity].
  - right. right. exists msg. reflexivity.
Qed.

Lemma fed_cons (c : bytes) (cs : list bytes) (l l1 l' : locals) :
  fed [c] l l1 -> fed cs l1 l' -> fed (c :: cs) l l'.
Proof.
  intros (Hm & Hs & Hb) (Fm & Fs & Fb). unfold fed in *.
  cbn [fold_left] in *. rewrite <- Hm, <- Hs, <- Hb. auto.
Qed.

Lemma flagged_cons (c : bytes) (cs : list bytes) (l l1 l' : locals) :
  flagged [c] l l1 -> flagged cs l1 l' -> flagged (c :: cs) l l'.
Proof.
  intros (Hs & Hn) (Fs & Fn). unfold flagged in *.
  cbn [existsb] in *. rewrite Fs, Fn, Hs, Hn.
  split.
  - destruct (suspicious_chunk c), (existsb suspicious_chunk cs),
      (suspicious_content l); reflexivity.
  - destruct (shellcode_chunk c), (existsb shellcode_chunk cs),
      (shellcode_detected l); reflexivity.
Qed.

Lemma for_chunks_prefix (cs : list bytes) (rest : list read_result) :
  Forall (fun c => c <> []) cs ->
  forall (l l' : locals) (r r' : result),
    for_chunks (map Data cs ++ rest) l r = (Normal l', r') ->
    exists lm,
      fed cs l lm /\ flagged cs l lm
      /\ for_chunks rest lm r = (Normal l', r').
Proof.
  induction 1 as [|c cs Hc Hcs IH]; intros l l' r r' H.
  - exists l. split; [repeat split|]. split; [split; reflexivity | exact H].
  - destruct c as [|b c]; [congruence|].
    change (bind (loop_body (b :: c) l)
              (for_chunks (map Data cs ++ rest)) r = (Normal l', r')) in H.
    unfold bind in H.
    destruct (loop_body_cases (b :: c) l r)
      as [(l1 & E & Hfed & Hflag)|(why & _ & E)]; rewrite E in H;
      [|discriminate].
    destruct (IH _ _ _ _ H) as (lm & Ffed & Fflag & Hrest).
    exists lm. split; [|split; [|exact Hrest]].
    + eapply fed_cons; eassumption.
    + eapply flagged_cons; eassumption.
Qed.

(** When the loop over a file ends normally the dictionary is as before,
    every chunk of the file has been fed to the accumulators, and each
    flag tells whether some chunk, taken alone, set off its detector. *)
Lemma for_chunks_complete (data : bytes) (fault : io_fault)
    (l l' : locals) (r r' : result) :
  for_chunks (reads data fault) l r = (Normal l', r') ->
  r' = r /\ fed (chunks data) l l' /\ flagged (chunks data) l l'.
Proof.
  intros H.
  assert (Hr : r' = r).
  { destruct (for_chunks_cases (reads data fault) l r)
      as [[l1 E]|[(why & _ & E)|[msg E]]]; rewrite E in H; congruence. }
  split; [exact Hr|].
  destruct (reads_shape data fault) as [E|(n & msg & E)]; rewrite E in H.
  - apply for_chunks_prefix in H; [|apply chunks_nonempty].
    destruct H as (lm & Hfed & Hflag & Hend). simpl in Hend.
    unfold ret in Hend. inversion Hend; subst. split; assumption.
  - apply for_chunks_prefix in H;
      [|apply Forall_firstn, chunks_nonempty].
    destruct H as (lm & _ & _ & Hend). discriminate.
Qed.

Lemma for_chunks_normal (data : bytes) (fault : io_fault)
    (l l' : locals) (r r' : result) :
  for_chunks (reads data fault) l r = (Normal l', r') ->
  r' = r /\ fed (chunks data) l l'.
Proof.
  intros H. destruct (for_chunks_complete _ _ _ _ _ _ H) as (Hr & Hfed & _).
  split; assumption.
Qed.

End LoopFacts.

(** ** Entropy of a histogram *)

Module EntropyFacts.
Import Float Information.
Local Open Scope R_scope.

Lemma sum_Fin_from (xs : list R) :
  forall a : R, fold_left add (map Fin xs) (Fin a) = Fin (a + Rsum xs).
Proof.
  induction xs as [|x xs IH]; intros a; simpl.
  - f_equal. lra.
  - rewrite IH. f_equal. lra.
Qed.

Lemma sum_Fin (xs : list R) : Float.sum (map Fin xs) = Fin (Rsum xs).
Proof. unfold Float.sum. rewrite sum_Fin_from. f_equal. lra. Qed.

Lemma ln_le_pred (y : R) : 0 < y -> ln y <= y - 1.
Proof.
  intros Hy. pose proof (exp_ineq1_le (ln y)) as H.
  rewrite exp_ln in H by exact Hy. lra.
Qed.

Lemma eta_bound (n x : R) :
  0 < n -> 0 <= x -> eta x <= x * ln n + / n - x.
Proof.
  intros Hn Hx. unfold eta.
  destruct (Rlt_dec 0 x) as [Hpos|Hnpos].
  - assert (Hy : 0 < / (n * x)).
    { apply Rinv_0_lt_compat. apply Rmult_lt_0_compat; assumption. }
    pose proof (ln_le_pred _ Hy) as H.
    rewrite ln_Rinv in H by (apply Rmult_lt_0_compat; assumption).
    rewrite ln_mult in H by assumption.
    apply (Rmult_le_compat_l x) in H; [|lra].
    replace (x * (/ (n * x) - 1)) with (/ n - x) in H by (field; lra).
    lra.
  - assert (x = 0) by lra. subst x.
    assert (0 < / n) by (apply Rinv_0_lt_compat; exact Hn). lra.
Qed.

Lemma Rsum_eta_bound (n : R) (xs : list R) :
  0 < n -> Forall (fun x => 0 <= x) xs ->
  Rsum (map eta xs)
  <= Rsum xs * ln n + INR (length xs) * / n - Rsum xs.
Proof.
  intros Hn H. induction H as [|x xs Hx Hxs IH].
  - simpl. lra.
  - change (eta x + Rsum (map eta xs)
            <= (x + Rsum xs) * ln n + INR (S (length xs)) * / n
               - (x + Rsum xs)).
    rewrite S_INR. pose proof (eta_bound n x Hn Hx). lra.
Qed.

Lemma ln_2_bound : ln 2 < 19 / 25.
Proof.
  rewrite <- (ln_exp (19 / 25)).
  apply ln_increasing; [lra|].
  replace (19 / 25) with (19 / 100 + 19 / 100 + 19 / 100 + 19 / 100) by lra.
  rewrite !exp_plus.
  pose proof (exp_ineq1_le (19 / 100)) as H.
  assert (H1 : 119 / 100 <= exp (19 / 100)) by lra.
  assert (H2 : (119 / 100) * (119 / 100)
               <= exp (19 / 100) * exp (19 / 100)).
  { apply Rmult_le_compat; lra. }
  assert (H4 : (119 / 100) * (119 / 100) * ((119 / 100) * (119 / 100))
               <= exp (19 / 100) * exp (19 / 100)
                  * (exp (19 / 100) * exp (19 / 100))).
  { apply Rmult_le_compat; lra. }
  lra.
Qed.

Lemma ln_256 : ln 256 = 8 * ln 2.
Proof.
  replace 256 with (2 ^ 8) by lra.
  rewrite ln_pow by lra. simpl INR. lra.
Qed.

Lemma ln_256_bound : ln 256 < 79 / 10.
Proof. rewrite ln_256. pose proof ln_2_bound. lra. Qed.

(** Numpy's division of the histogram by a nonzero total. *)
Lemma probs_Fin (total : Z) (counts : list Z) :
  total <> 0%Z ->
  map (fun c => div (of_int c) (of_int total)) counts
  = map Fin (map (fun c => IZR c / IZR total) counts).
Proof.
  intros Ht. rewrite map_map. apply map_ext. intros c.
  unfold div, of_int.
  destruct (Req_dec_T (IZR total) 0) as [E|E]; [|reflexivity].
  apply eq_IZR_R0 in E. contradiction.
Qed.

Lemma Rsum_scaled (d : R) (counts : list Z) :
  Rsum (map (fun c => IZR c / d) counts) = IZR (Zsum counts) / d.
Proof.
  induction counts as [|c counts IH]; simpl.
  - lra.
  - rewrite IH, plus_IZR. unfold Rdiv. lra.
Qed.

Lemma entr_normalised (p : R) :
  0 <= p -> entr (div (Fin p) (Fin 1)) = Fin (eta p).
Proof.
  intros Hp. unfold div.
  destruct (Req_dec_T 1 0) as [E|_]; [lra|].
  replace (p / 1) with p by lra.
  unfold entr, eta.
  destruct (Rlt_dec 0 p) as [H|H]; [reflexivity|].
  destruct (Req_dec_T p 0) as [E|E]; [reflexivity | lra].
Qed.

(** On a histogram without negative entries and with a positive total the
    entropy is the sum of [- p ln p] over the frequencies [p]. *)
Lemma entropy_of_counts (counts : list Z) :
  Forall (fun c => (0 <= c)%Z) counts -> (0 < Zsum counts)%Z ->
  Float.entropy
    (map (fun c => div (of_int c) (of_int (Zsum counts))) counts)
  = Fin (shannon_nats counts).
Proof.
  intros Hnn Hpos. unfold Float.entropy.
  rewrite probs_Fin by lia.
  rewrite sum_Fin, Rsum_scaled.
  assert (Hn : 0 < IZR (Zsum counts)) by (apply IZR_lt; exact Hpos).
  replace (IZR (Zsum counts) / IZR (Zsum counts)) with 1 by (field; lra).
  unfold shannon_nats. rewrite <- sum_Fin. f_equal.
  rewrite !map_map.
  apply map_ext_in. intros c Hc.
  apply entr_normalised.
  rewrite Forall_forall in Hnn. specialize (Hnn c Hc).
  apply Rmult_le_pos; [apply IZR_le; exact Hnn|].
  apply Rlt_le, Rinv_0_lt_compat. exact Hn.
Qed.

Lemma shannon_nats_bound (counts : list Z) :
  Forall (fun c => (0 <= c)%Z) counts -> (0 < Zsum counts)%Z ->
  (0 < length counts)%nat ->
  shannon_nats counts <= ln (INR (length counts)).
Proof.
  intros Hnn Hpos Hlen. unfold shannon_nats.
  assert (Hn : 0 < IZR (Zsum counts)) by (apply IZR_lt; exact Hpos).
  assert (Hk : 0 < INR (length counts)) by (apply lt_0_INR; exact Hlen).
  rewrite <- (map_map (fun c => IZR c / IZR (Zsum counts)) eta).
  pose proof (Rsum_eta_bound (INR (length counts))
                (map (fun c => IZR c / IZR (Zsum counts)) counts) Hk) as H.
  rewrite length_map, Rsum_scaled in H.
  replace (IZR (Zsum counts) / IZR (Zsum counts)) with 1 in H
    by (field; lra).
  replace (INR (length counts) * / INR (length counts)) with 1 in H
    by (field; lra).
  assert (Hall : Forall (fun x => 0 <= x)
                   (map (fun c => IZR c / IZR (Zsum counts)) counts)).
  { apply Forall_map. eapply Forall_impl; [|exact Hnn].
    intros c Hc. simpl.
    apply Rmult_le_pos; [apply IZR_le; exact Hc|].
    apply Rlt_le, Rinv_0_lt_compat. exact Hn. }
  specialize (H Hall). lra.
Qed.

Lemma INR_256 : INR 256 = 256.
Proof. rewrite INR_IZR_INZ. f_equal. Qed.

(** The entropy of a 256-bucket histogram never exceeds the threshold. *)
Lemma entropy_below_threshold (counts : list Z) :
  Forall (fun c => (0 <= c)%Z) counts -> (0 < Zsum counts)%Z ->
  length counts = 256%nat ->
  gt (Float.entropy
        (map (fun c => div (of_int c) (of_int (Zsum counts))) counts))
     Scanner.ENTROPY_THRESHOLD = false.
Proof.
  intros Hnn Hpos Hlen.
  rewrite entropy_of_counts by assumption.
  pose proof (shannon_nats_bound counts Hnn Hpos) as H.
  rewrite Hlen, INR_256 in H.
  assert (Hb : shannon_nats counts <= ln 256).
  { apply H. apply Nat.ltb_lt. reflexivity. }
  pose proof ln_256_bound.
  unfold gt, Scanner.ENTROPY_THRESHOLD.
  destruct (Rgt_dec (shannon_nats counts) (79 / 10)) as [G|G];
    [lra | reflexivity].
Qed.

(** *** Any array of floats *)

Lemma add_Fin_inv (a b : float) (h : R) :
  add a b = Fin h -> exists x y, a = Fin x /\ b = Fin y /\ h = x + y.
Proof.
  destruct a, b; simpl; intros H; try discriminate.
  inversion H. eauto.
Qed.

(** A sum of floats that is finite is a sum of finite floats. *)
Lemma sum_Fin_inv_from (l : list float) :
  forall (acc : float) (h : R),
    fold_left add l acc = Fin h ->
    exists a xs, acc = Fin a /\ l = map Fin xs /\ h = a + Rsum xs.
Proof.
  induction l as [|x l IH]; intros acc h H.
  - simpl in H. subst acc. exists h, []. simpl. repeat split. lra.
  - cbn [fold_left] in H.
    destruct (IH _ _ H) as (a' & xs & Ha & Hl & Hh).
    destruct (add_Fin_inv _ _ _ Ha) as (a & b & -> & -> & ->).
    exists a, (b :: xs). subst l. simpl. repeat split. lra.
Qed.

Lemma sum_Fin_inv (l : list float) (h : R) :
  Float.sum l = Fin h -> exists xs, l = map Fin xs /\ h = Rsum xs.
Proof.
  intros H. destruct (sum_Fin_inv_from l _ _ H) as (a & xs & Ha & Hl & Hh).
  inversion Ha; subst. exists xs. split; [reflexivity | lra].
Qed.

Lemma add_PInf_inv (a b : float) :
  add a b = PInf -> a = PInf \/ b = PInf.
Proof. destruct a, b; simpl; intros H; try discriminate; auto. Qed.

Lemma sum_PInf_inv_from (l : list float) :
  forall acc : float,
    fold_left add l acc = PInf -> acc = PInf \/ In PInf l.
Proof.
  induction l as [|x l IH]; intros acc H.
  - left. exact H.
  - cbn [fold_left] in H. destruct (IH _ H) as [E|E].
    + destruct (add_PInf_inv _ _ E) as [->| ->]; [left | right; left];
        reflexivity.
    + right. right. exact E.
Qed.

Lemma entr_not_PInf (a : float) : entr a <> PInf.
Proof.
  destruct a; simpl; try discriminate.
  destruct (Rlt_dec 0 x); [discriminate|].
  destruct (Req_dec_T x 0); discriminate.
Qed.

Lemma entr_Fin_inv (y h : R) :
  entr (Fin y) = Fin h -> 0 <= y /\ h = eta y.
Proof.
  unfold entr, eta. destruct (Rlt_dec 0 y) as [H|H].
  - intros E. inversion E. split; [lra | reflexivity].
  - destruct (Req_dec_T y 0) as [Z|NZ]; [|discriminate].
    intros E. inversion E. split; [lra | reflexivity].
Qed.

(** When [entr] of a quotient is finite, either the quotient is that of two
    finite numbers, or the divisor is infinite and the value is 0. *)
Lemma entr_div_Fin (p s : float) (h : R) :
  entr (div p s) = Fin h ->
  (exists x s0,
      p = Fin x /\ s = Fin s0 /\ s0 <> 0 /\ 0 <= x / s0 /\ h = eta (x / s0))
  \/ (h = 0 /\ exists x, p = Fin x /\ (s = PInf \/ s = NInf)).
Proof.
  destruct p as [x| | |], s as [s0| | |]; unfold div; try discriminate.
  - destruct (Req_dec_T s0 0) as [E|E].
    + destruct (Req_dec_T x 0); [discriminate|].
      destruct (Rlt_dec 0 x); discriminate.
    + intros H. apply entr_Fin_inv in H. destruct H as [Hx Hh].
      left. exists x, s0. auto.
  - intros H. apply entr_Fin_inv in H. destruct H as [_ Hh].
    right. split; [|eauto].
    rewrite Hh. unfold eta. destruct (Rlt_dec 0 0); lra.
  - intros H. apply entr_Fin_inv in H. destruct H as [_ Hh].
    right. split; [|eauto].
    rewrite Hh. unfold eta. destruct (Rlt_dec 0 0); lra.
  - destruct (Rlt_dec s0 0); discriminate.
  - destruct (Rlt_dec s0 0); discriminate.
Qed.

(** The finite contributions to the entropy when the total is a nonzero
    finite number: every entry is finite, and their quotients by the total
    are not negative. *)
Lemma contributions_finite (s0 : R) (pk : list float) :
  forall hs : list R,
    map (fun p => entr (div p (Fin s0))) pk = map Fin hs ->
    exists xs,
      pk = map Fin xs
      /\ Forall (fun x => 0 <= x / s0) xs
      /\ hs = map (fun x => eta (x / s0)) xs.
Proof.
  induction pk as [|p pk IH]; intros hs H.
  - destruct hs; [|discriminate]. exists []. repeat split. constructor.
  - destruct hs as [|h hs]; [discriminate|].
    cbn [map] in H. inversion H as [[Hp Hrest]].
    destruct (IH _ Hrest) as (xs & -> & Hxs & ->).
    destruct (entr_div_Fin _ _ _ Hp)
      as [(x & s1 & -> & E & _ & Hx & ->)|(_ & x & _ & [E|E])];
      try discriminate.
    inversion E; subst s1.
    exists (x :: xs). repeat split. constructor; assumption.
Qed.

(** Otherwise every finite contribution is zero. *)
Lemma contributions_degenerate (s : float) (pk : list float) :
  (forall s0, s = Fin s0 -> s0 = 0) ->
  forall hs : list R,
    map (fun p => entr (div p s)) pk = map Fin hs ->
    Forall (fun h => h = 0) hs.
Proof.
  intros Hs. induction pk as [|p pk IH]; intros hs H.
  - destruct hs; [|discriminate]. constructor.
  - destruct hs as [|h hs]; [discriminate|].
    cbn [map] in H. inversion H as [[Hp Hrest]].
    constructor; [|apply IH; exact Hrest].
    destruct (entr_div_Fin _ _ _ Hp)
      as [(x & s0 & _ & E & Hs0 & _ & _)|(E & _)]; [|exact E].
    elim Hs0. apply Hs. exact E.
Qed.

Lemma Rsum_zero (hs : list R) : Forall (fun h => h = 0) hs -> Rsum hs = 0.
Proof. induction 1 as [|h hs Hh _ IH]; simpl; lra. Qed.

Lemma Rsum_divided (d : R) (xs : list R) :
  Rsum (map (fun x => x / d) xs) = Rsum xs / d.
Proof.
  induction xs as [|x xs IH]; simpl.
  - lra.
  - rewrite IH. unfold Rdiv. lra.
Qed.

Lemma ln_256_nonneg : 0 <= ln 256.
Proof. rewrite ln_256. pose proof ln_lt_2. lra. Qed.

(** Whatever the array, of at most 256 floats: the entropy is NaN, or
    minus infinity, or a number that is at most [ln 256]. *)
Lemma entropy_bounded (pk : list float) :
  (length pk <= 256)%nat ->
  match Float.entropy pk with
  | Fin h => h <= ln 256
  | PInf => False
  | NInf | NaN => True
  end.
Proof.
  intros Hlen. unfold Float.entropy.
  destruct (Float.sum (map (fun p => entr (div p (Float.sum pk))) pk))
    as [h| | |] eqn:E; try exact I.
  - destruct (sum_Fin_inv _ _ E) as (hs & Hhs & ->).
    destruct (Float.sum pk) as [s0| | |] eqn:Es.
    + destruct (Req_dec_T s0 0) as [Z|NZ].
      * rewrite (Rsum_zero hs); [apply ln_256_nonneg|].
        eapply contributions_degenerate; [|exact Hhs].
        intros s1 E1. inversion E1. subst. reflexivity.
      * destruct (contributions_finite _ _ _ Hhs) as (xs & -> & Hxs & ->).
        rewrite sum_Fin in Es. inversion Es as [Hs0].
        rewrite length_map in Hlen.
        assert (H256 : 0 < 256) by lra.
        pose proof (Rsum_eta_bound 256 (map (fun x => x / s0) xs) H256) as B.
        rewrite map_map in B.
        rewrite length_map, Rsum_divided, Hs0 in B.
        replace (s0 / s0) with 1 in B by (field; exact NZ).
        assert (Hn : INR (length xs) <= 256).
        { rewrite <- INR_256. apply le_INR. exact Hlen. }
        assert (Hall : Forall (fun x => 0 <= x) (map (fun x => x / s0) xs)).
        { apply Forall_map. exact Hxs. }
        specialize (B Hall). rewrite Hs0. lra.
    + rewrite (Rsum_zero hs); [apply ln_256_nonneg|].
      eapply contributions_degenerate; [|exact Hhs]. discriminate.
    + rewrite (Rsum_zero hs); [apply ln_256_nonneg|].
      eapply contributions_degenerate; [|exact Hhs]. discriminate.
    + rewrite (Rsum_zero hs); [apply ln_256_nonneg|].
      eapply contributions_degenerate; [|exact Hhs]. discriminate.
  - unfold Float.sum in E.
    destruct (sum_PInf_inv_from _ _ E) as [H|H]; [discriminate|].
    apply in_map_iff in H. destruct H as (p & Hp & _).
    exact (entr_not_PInf _ Hp).
Qed.

(** The comparison with the threshold is false on every array of at most
    256 floats. *)
Lemma entropy_never_exceeds (pk : list float) :
  (length pk <= 256)%nat ->
  gt (Float.entropy pk) Scanner.ENTROPY_THRESHOLD = false.
Proof.
  intros Hlen. pose proof (entropy_bounded pk Hlen) as H.
  pose proof ln_256_bound as B.
  unfold gt, Scanner.ENTROPY_THRESHOLD.
  destruct (Float.entropy pk) as [h| | |]; try reflexivity.
  - destruct (Rgt_dec h (79 / 10)); [lra | reflexivity].
  - contradiction.
Qed.

End EntropyFacts.

(** ** Counting bytes *)

Module CountFacts.
Import Scanner Verdict Information StreamFacts.

Lemma int64_wrap_small (x : Z) :
  - 2 ^ 63 <= x < 2 ^ 63 -> Int64.wrap x = x.
Proof.
  intros H. unfold Int64.wrap. rewrite Z.mod_small; lia.
Qed.

Lemma Zsum_nonneg (a : list Z) :
  Forall (fun c => 0 <= c) a -> 0 <= Zsum a.
Proof. induction 1; simpl; lia. Qed.

Lemma increment_spec (a : list Z) :
  forall i : nat,
    (i < length a)%nat -> Forall (fun c => 0 <= c) a ->
    Zsum a + 1 < 2 ^ 63 ->
    length (increment i a) = length a
    /\ Forall (fun c => 0 <= c) (increment i a)
    /\ Zsum (increment i a) = Zsum a + 1.
Proof.
  induction a as [|c a IH]; intros i Hi Hnn Hb; [simpl in Hi; lia|].
  inversion Hnn as [|? ? Hc Ha]; subst.
  pose proof (Zsum_nonneg a Ha) as Hs.
  change (Zsum (c :: a)) with (c + Zsum a) in *.
  destruct i as [|i].
  - change (increment 0 (c :: a)) with (Int64.add c 1 :: a).
    unfold Int64.add. rewrite int64_wrap_small by lia.
    repeat split.
    + constructor; [lia | exact Ha].
    + change (Zsum (c + 1 :: a)) with (c + 1 + Zsum a). lia.
  - change (increment (S i) (c :: a)) with (c :: increment i a).
    destruct (IH i) as (Hl & Hf & Hz); [simpl in Hi; lia | exact Ha | lia |].
    repeat split.
    + simpl. rewrite Hl. reflexivity.
    + constructor; assumption.
    + change (Zsum (c :: increment i a)) with (c + Zsum (increment i a)).
      lia.
Qed.

Lemma increment_histogram (n : Z) (a : list Z) (b : byte) :
  histogram_of n a -> n + 1 < 2 ^ 63 ->
  histogram_of (n + 1) (increment (Byte.to_nat b) a).
Proof.
  intros (Hl & Hf & Hz) Hb.
  pose proof (Byte.to_nat_bounded b) as Hi.
  destruct (increment_spec a (Byte.to_nat b)) as (Hl' & Hf' & Hz');
    [lia | exact Hf | lia |].
  repeat split; [congruence | exact Hf' | lia].
Qed.

Lemma count_bytes_histogram (chunk : bytes) :
  forall (n : Z) (a : list Z),
    histogram_of n a -> n + Z.of_nat (length chunk) < 2 ^ 63 ->
    histogram_of (n + Z.of_nat (length chunk)) (count_bytes chunk a).
Proof.
  unfold count_bytes.
  induction chunk as [|b chunk IH]; intros n a Ha Hb.
  - simpl. replace (n + 0) with n by lia. exact Ha.
  - cbn [fold_left].
    change (length (b :: chunk)) with (S (length chunk)) in *.
    replace (n + Z.of_nat (S (length chunk)))
      with (n + 1 + Z.of_nat (length chunk)) in * by lia.
    apply IH; [|lia].
    apply increment_histogram; [exact Ha | lia].
Qed.

Lemma count_bytes_concat (cs : list bytes) :
  forall a : list Z,
    fold_left (fun a c => count_bytes c a) cs a = count_bytes (concat cs) a.
Proof.
  induction cs as [|c cs IH]; intros a; [reflexivity|].
  cbn [fold_left List.concat]. rewrite IH.
  unfold count_bytes. rewrite fold_left_app. reflexivity.
Qed.

Lemma zeros_histogram : histogram_of 0 zeros.
Proof.
  unfold histogram_of, zeros. split; [|split].
  - apply repeat_length.
  - apply Forall_forall. intros c Hc. apply repeat_spec in Hc. lia.
  - vm_compute. reflexivity.
Qed.

Lemma int64_sum_from (a : list Z) :
  forall acc : Z,
    Forall (fun c => 0 <= c) a -> 0 <= acc -> acc + Zsum a < 2 ^ 63 ->
    fold_left Int64.add a acc = acc + Zsum a.
Proof.
  induction a as [|c a IH]; intros acc Hnn Hacc Hb.
  - simpl. lia.
  - inversion Hnn as [|? ? Hc Ha]; subst.
    pose proof (Zsum_nonneg a Ha) as Hs.
    change (Zsum (c :: a)) with (c + Zsum a) in *.
    cbn [fold_left]. unfold Int64.add at 2.
    rewrite int64_wrap_small by lia.
    rewrite IH; [lia | exact Ha | lia | lia].
Qed.

(** Without overflow the int64 sum of a histogram is its number of bytes. *)
Lemma int64_sum_histogram (n : Z) (a : list Z) :
  histogram_of n a -> n < 2 ^ 63 -> Int64.sum a = n.
Proof.
  intros (Hl & Hf & Hz) Hb. unfold Int64.sum.
  rewrite int64_sum_from; [lia | exact Hf | lia | lia].
Qed.

(** The histogram of a file streamed to the end. *)
Lemma streamed_histogram (data : bytes) (l : locals) :
  fed (chunks data) initial_locals l ->
  Z.of_nat (length data) < 2 ^ 63 ->
  histogram_of (Z.of_nat (length data)) (byte_counts l).
Proof.
  intros (_ & _ & Hc) Hb. rewrite Hc.
  rewrite count_bytes_concat, chunks_concat.
  apply (count_bytes_histogram data 0 zeros zeros_histogram). lia.
Qed.

(** *** The histogram keeps its 256 buckets *)

Lemma length_increment (a : list Z) :
  forall i : nat, length (increment i a) = length a.
Proof.
  induction a as [|c a IH]; intros i; [destruct i; reflexivity|].
  destruct i as [|i]; [reflexivity|].
  change (increment (S i) (c :: a)) with (c :: increment i a).
  simpl. rewrite IH. reflexivity.
Qed.

Lemma length_count_bytes (chunk : bytes) :
  forall a : list Z, length (count_bytes chunk a) = length a.
Proof.
  unfold count_bytes.
  induction chunk as [|b chunk IH]; intros a; [reflexivity|].
  cbn [fold_left]. rewrite IH. apply length_increment.
Qed.

Lemma fed_buckets (cs : list bytes) (l : locals) :
  fed cs initial_locals l -> length (byte_counts l) = 256%nat.
Proof.
  intros (_ & _ & H). rewrite H, count_bytes_concat, length_count_bytes.
  apply repeat_length.
Qed.

End CountFacts.

(** ** The scan, phase by phase *)

Module ScanFacts.
Import Float Scanner Verdict Information StreamFacts LoopFacts EntropyFacts CountFacts.
Local Open Scope py_scope.

Ltac run_fields :=
  cbv [bind assign ret return_result raise read_result_field
       with_md5 with_sha256 with_infected with_reason with_entropy with_size
       infected reason filename size hashes entropy md5 sha256 option_map
       detected].

Section Formatting.

Variable format_float : float -> string.

Local Abbreviation post_stream := (post_stream format_float).
Local Abbreviation try_block := (try_block format_float).
Local Abbreviation is_infected := (is_infected format_float).

Lemma post_stream_md5 (l : locals) (r : result) (label : string) :
  lookup KNOWN_BAD_MD5 (MD5.hexdigest (md5_hash l)) = Some label ->
  post_stream l r
  = (Returned, detected (append "Known malware (MD5): " label) (hashed l r)).
Proof.
  intros H. unfold Scanner.post_stream, hashed. destruct r.
  run_fields. rewrite H. reflexivity.
Qed.

Lemma post_stream_sha256 (l : locals) (r : result) (label : string) :
  lookup KNOWN_BAD_MD5 (MD5.hexdigest (md5_hash l)) = None ->
  lookup KNOWN_BAD_SHA256 (SHA256.hexdigest (sha256_hash l)) = Some label ->
  post_stream l r
  = (Returned,
     detected (append "Known malware (SHA256): " label) (hashed l r)).
Proof.
  intros H1 H2. unfold Scanner.post_stream, hashed. destruct r.
  run_fields. rewrite H1, H2. reflexivity.
Qed.

(** With both digests unlisted the entropy is stored, then the threshold
    and the two flags are consulted, in this order. *)
Lemma post_stream_unlisted (l : locals) (r : result) :
  lookup KNOWN_BAD_MD5 (MD5.hexdigest (md5_hash l)) = None ->
  lookup KNOWN_BAD_SHA256 (SHA256.hexdigest (sha256_hash l)) = None ->
  post_stream l r
  = (Returned,
     let r' := with_entropy (file_entropy l) (hashed l r) in
     if gt (file_entropy l) ENTROPY_THRESHOLD then
       detected
         (append "High file entropy: "
            (append (format_float (file_entropy l))
               " (suspected packed/encrypted malware)")) r'
     else if suspicious_content l then
       detected
         "Suspicious content strings (potential ransomware or command injection)"
         r'
     else if shellcode_detected l then
       detected "Potential shellcode pattern (NOP sled detected)" r'
     else with_reason "Scan completed: No threats detected" r').
Proof.
  intros H1 H2. unfold Scanner.post_stream, hashed, file_entropy. destruct r.
  run_fields. rewrite H1, H2.
  destruct (gt _ ENTROPY_THRESHOLD); [reflexivity|].
  destruct (suspicious_content l); [reflexivity|].
  destruct (shellcode_detected l); reflexivity.
Qed.


(** The statements after the loop return the verdict of the first rule
    that applies. *)
Lemma post_stream_first_rule (l : locals) (r : result) :
  post_stream l r = (Returned, first_rule format_float l r).
Proof.
  unfold first_rule.
  destruct (lookup KNOWN_BAD_MD5 (MD5.hexdigest (md5_hash l)))
    as [label|] eqn:E1; [apply post_stream_md5; exact E1|].
  destruct (lookup KNOWN_BAD_SHA256 (SHA256.hexdigest (sha256_hash l)))
    as [label|] eqn:E2; [apply post_stream_sha256; assumption|].
  apply post_stream_unlisted; assumption.
Qed.

(** *** The [try] body, case by case *)

Lemma try_block_missing (fs : filesystem) (p : string) (r : result) :
  isfile fs p = false ->
  try_block fs p r = (Returned, with_reason "File does not exist" r).
Proof.
  intros H. unfold Scanner.try_block. rewrite H. reflexivity.
Qed.

Lemma isfile_regular (fs : filesystem) (p : string) (st_size : Z)
    (data : bytes) (fault : io_fault) (close : option string) :
  fs p = Regular st_size data fault close -> isfile fs p = true.
Proof. intros H. unfold isfile. rewrite H. reflexivity. Qed.

Lemma try_block_empty (fs : filesystem) (p : string) (data : bytes)
    (fault : io_fault) (close : option string) (r : result) :
  fs p = Regular 0 data fault close ->
  try_block fs p r = (Returned, with_reason "File is empty" r).
Proof.
  intros H. unfold Scanner.try_block.
  rewrite (isfile_regular _ _ _ _ _ _ H). unfold getsize. rewrite H.
  reflexivity.
Qed.

Lemma size_nonzero (data : bytes) :
  data <> [] -> Z.of_nat (length data) <> 0.
Proof. intros H. destruct data; [congruence | simpl; lia]. Qed.

Lemma try_block_open_fails (fs : filesystem) (p : string) (st_size : Z)
    (data : bytes) (msg : string) (close : option string) (r : result) :
  fs p = Regular st_size data (OpenFails msg) close -> st_size <> 0 ->
  try_block fs p r = (Raised msg, with_size st_size r).
Proof.
  intros H Hs. unfold Scanner.try_block.
  rewrite (isfile_regular _ _ _ _ _ _ H). unfold getsize, open_rb. rewrite H.
  cbv [negb bind ret assign raise].
  apply Z.eqb_neq in Hs. rewrite Hs. reflexivity.
Qed.

(** Once the file is open: the loop inside the [with] block, then the
    statements after it. *)
Lemma try_block_stream (fs : filesystem) (p : string) (st_size : Z)
    (data : bytes) (fault : io_fault) (close : option string) (r : result) :
  fs p = Regular st_size data fault close -> st_size <> 0 -> opens fault ->
  try_block fs p r
  = bind (with_closing (FileObject (reads data fault) close)
            (for_chunks (reads data fault) initial_locals))
         post_stream (with_size st_size r).
Proof.
  intros H Hs Ho. unfold Scanner.try_block.
  rewrite (isfile_regular _ _ _ _ _ _ H). unfold getsize, open_rb. rewrite H.
  cbv [negb]. unfold bind at 1. unfold ret at 1.
  apply Z.eqb_neq in Hs. rewrite Hs.
  destruct fault; [reflexivity | contradiction | reflexivity].
Qed.

(** *** Every way through the [try] body *)

Lemma try_block_path (fs : filesystem) (p : string) (r0 : result) :
  scan_path format_float fs p r0 (try_block fs p r0).
Proof.
  destruct (fs p) as [|sz|st data fault close] eqn:E.
  - rewrite try_block_missing by (unfold isfile; rewrite E; reflexivity).
    apply path_missing. unfold isfile. rewrite E. reflexivity.
  - rewrite try_block_missing by (unfold isfile; rewrite E; reflexivity).
    apply path_missing. unfold isfile. rewrite E. reflexivity.
  - destruct (Z.eq_dec st 0) as [->|Hs].
    { rewrite (try_block_empty fs p data fault close r0 E).
      eapply path_empty. exact E. }
    assert (Ho : (exists msg, fault = OpenFails msg) \/ opens fault).
    { destruct fault; [right; exact I | left; eauto | right; exact I]. }
    destruct Ho as [[msg ->]|Ho].
    { rewrite (try_block_open_fails fs p st data msg close r0 E Hs).
      eapply path_raised; eassumption. }
    rewrite (try_block_stream fs p st data fault close r0 E Hs Ho).
    unfold bind, with_closing. cbn [close_error].
    set (r1 := with_size st r0).
    destruct (for_chunks_cases (reads data fault) initial_locals r1)
      as [[l H]|[(why & Hwhy & H)|[msg H]]]; rewrite H;
      destruct close as [cmsg|]; cbn [snd].
    + eapply path_raised; eassumption.
    + rewrite post_stream_first_rule.
      destruct (for_chunks_complete _ _ _ _ _ _ H) as (_ & Hfed & Hflag).
      eapply path_post_stream; eassumption.
    + eapply path_raised_detected; eassumption.
    + eapply path_stream_detection; eassumption.
    + eapply path_raised; eassumption.
    + eapply path_raised; eassumption.
Qed.

(** *** The verdict of the first rule *)

(** It sets a reason: the clean one, the infection flag being left as it
    was, or a detection, the flag being set. *)
Lemma first_rule_reason (l : locals) (r : result) :
  exists why,
    reason (first_rule format_float l r) = Some why
    /\ ((infected (first_rule format_float l r) = infected r
         /\ why = "Scan completed: No threats detected")
        \/ (infected (first_rule format_float l r) = true
            /\ detection_reason format_float why)).
Proof.
  unfold first_rule.
  destruct (lookup KNOWN_BAD_MD5 _) as [label|].
  { eexists. split; [reflexivity|]. right. split; [reflexivity|].
    apply reason_md5. }
  destruct (lookup KNOWN_BAD_SHA256 _) as [label|].
  { eexists. split; [reflexivity|]. right. split; [reflexivity|].
    apply reason_sha256. }
  cbv zeta. destruct (gt (file_entropy l) ENTROPY_THRESHOLD).
  { eexists. split; [reflexivity|]. right. split; [reflexivity|].
    apply reason_entropy. }
  destruct (suspicious_content l).
  { eexists. split; [reflexivity|]. right. split; [reflexivity|].
    apply reason_suspicious. }
  destruct (shellcode_detected l).
  { eexists. split; [reflexivity|]. right. split; [reflexivity|].
    apply reason_shellcode. }
  eexists. split; [reflexivity|]. left. split; reflexivity.
Qed.

(** It fills in both digests. *)
Lemma first_rule_hashes (l : locals) (r : result) :
  hashes (first_rule format_float l r)
  = Hashes (Some (MD5.hexdigest (md5_hash l)))
           (Some (SHA256.hexdigest (sha256_hash l))).
Proof.
  unfold first_rule.
  destruct (lookup KNOWN_BAD_MD5 _); [reflexivity|].
  destruct (lookup KNOWN_BAD_SHA256 _); [reflexivity|].
  cbv zeta. destruct (gt (file_entropy l) ENTROPY_THRESHOLD); [reflexivity|].
  destruct (suspicious_content l); [reflexivity|].
  destruct (shellcode_detected l); reflexivity.
Qed.

(** It leaves the entropy as it was or stores the one of the histogram. *)
Lemma first_rule_entropy (l : locals) (r : result) :
  entropy (first_rule format_float l r) = entropy r
  \/ entropy (first_rule format_float l r) = file_entropy l.
Proof.
  unfold first_rule.
  destruct (lookup KNOWN_BAD_MD5 _); [left; reflexivity|].
  destruct (lookup KNOWN_BAD_SHA256 _); [left; reflexivity|].
  right. cbv zeta.
  destruct (gt (file_entropy l) ENTROPY_THRESHOLD); [reflexivity|].
  destruct (suspicious_content l); [reflexivity|].
  destruct (shellcode_detected l); reflexivity.
Qed.

(** When the threshold is not exceeded its reason is not the one of the
    high-entropy category. *)
Lemma first_rule_not_high_entropy (l : locals) (r : result) (why : string) :
  gt (file_entropy l) ENTROPY_THRESHOLD = false ->
  reason (first_rule format_float l r) = Some why ->
  names HighEntropy why = false.
Proof.
  unfold first_rule. intros Hgt.
  destruct (lookup KNOWN_BAD_MD5 _);
    [intros H; inversion H; reflexivity|].
  destruct (lookup KNOWN_BAD_SHA256 _);
    [intros H; inversion H; reflexivity|].
  cbv zeta. rewrite Hgt.
  destruct (suspicious_content l); [intros H; inversion H; reflexivity|].
  destruct (shellcode_detected l); intros H; inversion H; reflexivity.
Qed.

End Formatting.
End ScanFacts.

(** ** The scan as a whole *)

Module ResultFacts.
Import Float Scanner Verdict Information Samples.
Import StreamFacts LoopFacts EntropyFacts CountFacts ScanFacts.
Local Open Scope py_scope.

(** [only_category c]: the reason of the goal names [c], and any category
    that it names is [c]. *)
Ltac only_category c :=
  exists c; split;
  [ reflexivity
  | let c' := fresh "c" in
    let H := fresh "H" in
    intros c' H; destruct c'; vm_compute in H; congruence ].

(** [by_path H]: one goal for each way through the [try] body of the call
    that [H] says has returned. *)
Ltac by_path H :=
  unfold is_infected in H;
  match type of H with
  | context [try_block ?f ?fs ?p ?r0] =>
      let P := fresh "P" in
      let c := fresh "c" in
      let r1 := fresh "r" in
      pose proof (try_block_path f fs p r0) as P;
      destruct (try_block f fs p r0) as [c r1];
      inversion P; subst; inversion H; subst; clear H
  end.

(** *** Always a dictionary *)

(** The [try] body never falls off its end and the handler catches what it
    raises: a call always returns a dictionary. *)
Lemma is_infected_total
    (format_float : float -> string) (fs : filesystem) (p : string) :
  exists r : result, is_infected format_float fs p = Returns r.
Proof.
  unfold is_infected.
  pose proof (try_block_path format_float fs p (initial_result p)) as P.
  destruct (try_block format_float fs p (initial_result p)) as [c r].
  inversion P; subst; eexists; reflexivity.
Qed.


(** Every detection reason names one category and no other. *)
Lemma detection_reason_category
    (format_float : float -> string) (why : string) :
  detection_reason format_float why ->
  exists c : category,
    names c why = true /\ forall c', names c' why = true -> c' = c.
Proof.
  intros H.
  destruct H as [why Hwhy| | | | |]; [destruct Hwhy as [desc _|]| | | | |].
  - only_category Signature.
  - only_category EmbeddedScript.
  - only_category DigestBlacklist.
  - only_category DigestBlacklist.
  - only_category HighEntropy.
  - only_category SuspiciousContent.
  - only_category ShellcodePattern.
Qed.

(** *** Digests of a streamed file *)

(** *** Digests of a streamed file *)

Lemma md5_streamed (data : bytes) (l : locals) :
  fed (chunks data) initial_locals l ->
  MD5.hexdigest (md5_hash l) = MD5.oneshot data.
Proof.
  intros (H & _ & _). rewrite H.
  unfold MD5.hexdigest, MD5.oneshot, MD5.update, initial_locals, MD5.md5.
  cbn [md5_hash].
  rewrite hexdigest_fold_update, chunks_concat. reflexivity.
Qed.

Lemma sha256_streamed (data : bytes) (l : locals) :
  fed (chunks data) initial_locals l ->
  SHA256.hexdigest (sha256_hash l) = SHA256.oneshot data.
Proof.
  intros (_ & H & _). rewrite H.
  unfold SHA256.hexdigest, SHA256.oneshot, SHA256.update, initial_locals,
    SHA256.sha256.
  cbn [sha256_hash].
  rewrite hexdigest_fold_update, chunks_concat. reflexivity.
Qed.

(** *** The first chunk *)

(** *** The first chunk *)

Lemma startswith_firstn (sig : bytes) :
  forall (n : nat) (chunk : bytes),
    (length sig <= n)%nat ->
    startswith (firstn n chunk) sig = startswith chunk sig.
Proof.
  induction sig as [|s sig IH]; intros n chunk Hn.
  - destruct (firstn n chunk), chunk; reflexivity.
  - destruct n as [|n]; [simpl in Hn; lia|].
    destruct chunk as [|c chunk]; [reflexivity|].
    simpl. rewrite IH by (simpl in Hn; lia). reflexivity.
Qed.

(** On a non-empty file that opens and whose first read succeeds, the
    first read yields the first [CHUNK_SIZE] bytes. *)
Lemma reads_first (data : bytes) (fault : io_fault) :
  data <> [] -> first_read_succeeds fault ->
  exists rest,
    reads data fault = Data (firstn CHUNK_SIZE data) :: rest
    /\ firstn CHUNK_SIZE data <> [].
Proof.
  intros Hd Hf.
  destruct data as [|b data]; [congruence|].
  assert (Hne : firstn CHUNK_SIZE (b :: data) <> []).
  { pose proof CHUNK_SIZE_pos. destruct CHUNK_SIZE; [lia | discriminate]. }
  assert (Hc : exists cs,
             chunks (b :: data) = firstn CHUNK_SIZE (b :: data) :: cs).
  { eexists. reflexivity. }
  destruct Hc as [cs Hc]. unfold reads. rewrite Hc.
  destruct fault as [|msg|n msg].
  - eexists. split; [reflexivity | exact Hne].
  - contradiction.
  - destruct n as [|n]; [simpl in Hf; congruence|].
    cbv zeta.
    destruct (S n <? _)%nat; eexists; (split; [reflexivity | exact Hne]).
Qed.

Lemma for_chunks_first (chunk : bytes) (f : list read_result)
    (l : locals) (r : result) :
  chunk <> [] ->
  for_chunks (Data chunk :: f) l r
  = bind (loop_body chunk l) (for_chunks f) r.
Proof. intros H. destruct chunk; [congruence | reflexivity]. Qed.

Lemma first_read_opens (fault : io_fault) :
  first_read_succeeds fault -> opens fault.
Proof. destruct fault; simpl; auto. Qed.

(** *** Entropy of a streamed file *)

Lemma streamed_total (data : bytes) (l : locals) :
  fed (chunks data) initial_locals l ->
  Z.of_nat (length data) < 2 ^ 63 ->
  Int64.sum (byte_counts l) = Z.of_nat (length data)
  /\ histogram_of (Z.of_nat (length data)) (byte_counts l).
Proof.
  intros Hfed Hb.
  pose proof (streamed_histogram data l Hfed Hb) as Hh.
  split; [|exact Hh]. apply int64_sum_histogram; assumption.
Qed.

Lemma length_positive (data : bytes) :
  data <> [] -> 0 < Z.of_nat (length data).
Proof. destruct data; [congruence | simpl; lia]. Qed.

Lemma streamed_entropy (data : bytes) (l : locals) :
  fed (chunks data) initial_locals l ->
  data <> [] -> Z.of_nat (length data) < 2 ^ 63 ->
  file_entropy l = Fin (shannon_nats (byte_counts l))
  /\ (shannon_nats (byte_counts l) <= ln 256)%R
  /\ gt (file_entropy l) ENTROPY_THRESHOLD = false.
Proof.
  intros Hfed Hd Hb.
  destruct (streamed_total data l Hfed Hb) as [Hs (Hl & Hnn & Hz)].
  pose proof (length_positive data Hd) as Hpos.
  unfold file_entropy. rewrite Hs, <- Hz.
  split; [|split].
  - apply entropy_of_counts; [exact Hnn | lia].
  - rewrite <- INR_256, <- Hl.
    apply shannon_nats_bound; [exact Hnn | lia | rewrite Hl].
    apply Nat.ltb_lt. reflexivity.
  - apply entropy_below_threshold; [exact Hnn | lia | exact Hl].
Qed.

(** The scan of a file streamed to its end whose digests are not listed:
    the entropy is stored, the threshold is not exceeded, and the two
    flags decide. *)
Lemma is_infected_streamed
    (format_float : float -> string) (fs : filesystem) (p : string)
    (st_size : Z) (data : bytes) (fault : io_fault) (l : locals)
    (r1 : result) :
  fs p = Regular st_size data fault None -> st_size <> 0 ->
  data <> [] -> opens fault ->
  Z.of_nat (length data) < 2 ^ 63 ->
  for_chunks (reads data fault) initial_locals
    (with_size st_size (initial_result p)) = (Normal l, r1) ->
  lookup KNOWN_BAD_MD5 (MD5.hexdigest (md5_hash l)) = None ->
  lookup KNOWN_BAD_SHA256 (SHA256.hexdigest (sha256_hash l)) = None ->
  is_infected format_float fs p
  = Returns
      (let r' :=
         with_entropy (Fin (shannon_nats (byte_counts l)))
           (hashed l (with_size st_size (initial_result p)))
       in
       if suspicious_content l then
         detected
           "Suspicious content strings (potential ransomware or command injection)"
           r'
       else if shellcode_detected l then
         detected "Potential shellcode pattern (NOP sled detected)" r'
       else with_reason "Scan completed: No threats detected" r').
Proof.
  intros Hf Hs Hd Ho Hb Hl H1 H2.
  destruct (for_chunks_normal _ _ _ _ _ _ Hl) as [-> Hfed].
  destruct (streamed_entropy data l Hfed Hd Hb) as (He & _ & Hgt).
  unfold is_infected.
  rewrite (try_block_stream format_float fs p st_size data fault None _
             Hf Hs Ho).
  unfold bind, with_closing. cbn [close_error]. rewrite Hl.
  rewrite (post_stream_unlisted format_float l _ H1 H2).
  cbv zeta. rewrite Hgt, He. reflexivity.
Qed.

(** The same on an ordinary file, whose size is the length of its
    content. *)
Lemma is_infected_unlisted
    (format_float : float -> string) (fs : filesystem) (p : string)
    (data : bytes) (fault : io_fault) (l : locals) (r1 : result) :
  fs p = Regular (Z.of_nat (length data)) data fault None ->
  data <> [] -> opens fault ->
  Z.of_nat (length data) < 2 ^ 63 ->
  for_chunks (reads data fault) initial_locals
    (with_size (Z.of_nat (length data)) (initial_result p)) = (Normal l, r1) ->
  lookup KNOWN_BAD_MD5 (MD5.hexdigest (md5_hash l)) = None ->
  lookup KNOWN_BAD_SHA256 (SHA256.hexdigest (sha256_hash l)) = None ->
  is_infected format_float fs p
  = Returns
      (let r' :=
         with_entropy (Fin (shannon_nats (byte_counts l)))
           (hashed l (with_size (Z.of_nat (length data)) (initial_result p)))
       in
       if suspicious_content l then
         detected
           "Suspicious content strings (potential ransomware or command injection)"
           r'
       else if shellcode_detected l then
         detected "Potential shellcode pattern (NOP sled detected)" r'
       else with_reason "Scan completed: No threats detected" r').
Proof.
  intros Hf Hd.
  apply (is_infected_streamed format_float fs p _ data fault l r1 Hf
           (size_nonzero data Hd) Hd).
Qed.

Lemma file_entropy_below (cs : list bytes) (l : locals) :
  fed cs initial_locals l ->
  gt (file_entropy l) ENTROPY_THRESHOLD = false
  /\ match file_entropy l with
     | Fin h => (h <= ln 256)%R
     | PInf => False
     | NInf | NaN => True
     end.
Proof.
  intros H. pose proof (fed_buckets cs l H) as Hl.
  unfold file_entropy.
  split; [apply entropy_never_exceeds | apply entropy_bounded];
    rewrite length_map, Hl; apply Nat.le_refl.
Qed.

(** *** A file of non-zero size from which no byte is read *)

Lemma div_zero_by_zero : div (of_int 0) (of_int 0) = NaN.
Proof.
  unfold div, of_int.
  destruct (Req_dec_T (IZR 0) 0) as [_|H]; [|contradiction H; reflexivity].
  reflexivity.
Qed.

Lemma sum_from_nan (l : list float) : fold_left add l NaN = NaN.
Proof.
  induction l as [|x l IH]; [reflexivity|].
  cbn [fold_left]. destruct x; exact IH.
Qed.

Lemma entropy_of_nans (n : nat) : Float.entropy (repeat NaN (S n)) = NaN.
Proof.
  unfold Float.entropy, Float.sum.
  change (repeat NaN (S n)) with (NaN :: repeat NaN n).
  cbn [map fold_left]. change (add (Fin 0) NaN) with NaN.
  rewrite !sum_from_nan. reflexivity.
Qed.

(** The histogram is still all zeros, its sum is 0, and every bucket
    becomes 0/0. *)
Lemma entropy_of_nothing : file_entropy initial_locals = NaN.
Proof.
  unfold file_entropy. cbn [initial_locals byte_counts].
  replace (Int64.sum zeros) with 0 by (vm_compute; reflexivity).
  unfold zeros. rewrite map_repeat, div_zero_by_zero.
  apply (entropy_of_nans 255).
Qed.

Lemma is_infected_nothing_read
    (format_float : float -> string) (fs : filesystem) (p : string)
    (st_size : Z) :
  fs p = Regular st_size [] NoFault None -> st_size <> 0 ->
  is_infected format_float fs p
  = Returns
      (with_reason "Scan completed: No threats detected"
         (with_entropy NaN
            (hashed initial_locals (with_size st_size (initial_result p))))).
Proof.
  intros Hf Hs. unfold is_infected.
  rewrite (try_block_stream format_float fs p st_size [] NoFault None _
             Hf Hs I).
  unfold bind, with_closing. cbn [close_error].
  assert (Hl : for_chunks (reads [] NoFault) initial_locals
                 (with_size st_size (initial_result p))
               = (Normal initial_locals,
                  with_size st_size (initial_result p)))
    by reflexivity.
  rewrite Hl.
  rewrite (post_stream_unlisted format_float initial_locals _)
    by (vm_compute; reflexivity).
  cbv zeta. rewrite entropy_of_nothing. reflexivity.
Qed.

(** *** The histogram with every byte value once *)

Lemma Rsum_repeat (x : R) (n : nat) :
  Rsum (repeat x n) = (INR n * x)%R.
Proof.
  induction n as [|n IH].
  - simpl. lra.
  - change (repeat x (S n)) with (x :: repeat x n).
    change (Rsum (x :: repeat x n)) with (x + Rsum (repeat x n))%R.
    rewrite IH, S_INR. lra.
Qed.

Lemma shannon_nats_uniform : shannon_nats (repeat 1 256) = ln 256.
Proof.
  unfold shannon_nats.
  replace (Zsum (repeat 1 256)) with 256 by (vm_compute; reflexivity).
  rewrite map_repeat, Rsum_repeat, INR_256.
  unfold eta.
  destruct (Rlt_dec 0 (1 / 256)) as [_|H]; [|lra].
  replace (1 / 256)%R with (/ 256)%R by lra.
  rewrite ln_Rinv by lra. lra.
Qed.

Lemma shannon_bits_uniform : shannon_bits (repeat 1 256) = 8%R.
Proof.
  unfold shannon_bits. rewrite shannon_nats_uniform, ln_256.
  pose proof ln_lt_2. field. lra.
Qed.

End ResultFacts.

(* ================================================================== *)
(** * The properties of the scanner *)

Import Float Scanner Verdict Information Samples.
Import StreamFacts LoopFacts EntropyFacts CountFacts ScanFacts ResultFacts.
Local Open Scope py_scope.

(** C1 does not hold of the code: the entropy stored is in nats, not in
    bits.  At the file with every byte value exactly once, whose byte
    distribution has a Shannon entropy of 8 bits, the scan completes
    without any detection and stores [ln 256], about 5.545, because
    [entropy] is called without [base=2]. *)
Theorem uniform_file_entropy_is_in_nats (format_float : float -> string) :
  count_bytes uniform zeros = repeat 1 256
  /\ shannon_bits (repeat 1 256) = 8%R
  /\ exists r : result,
       is_infected format_float uniform_fs "/srv/uniform.bin" = Returns r
       /\ reason r = Some "Scan completed: No threats detected"
       /\ entropy r = Fin (ln 256)
       /\ (ln 256 < 61 / 10)%R.
Proof.
  split; [vm_compute; reflexivity|].
  split; [apply shannon_bits_uniform|].
  eexists. split; [|split; [|split]].
  - eapply (is_infected_unlisted format_float uniform_fs "/srv/uniform.bin"
              uniform NoFault).
    + reflexivity.
    + discriminate.
    + exact I.
    + vm_compute. reflexivity.
    + vm_compute. reflexivity.
    + vm_compute. reflexivity.
    + vm_compute. reflexivity.
  - reflexivity.
  - rewrite <- shannon_nats_uniform. reflexivity.
  - rewrite ln_256. pose proof ln_2_bound. lra.
Qed.

(** C2 does not hold of the code in one case.  [is_infected] always hands
    a dictionary back to its caller: it neither lets an exception through
    nor falls off its end.  When the [try] body raises, with message
    [msg], the handler stores the reason "Scan error: " followed by [msg]
    and leaves the flag [infected] as the body left it.  The flag is
    False when the exception comes before any detection, as it does
    whenever closing the file does not fail; it is True when [f.close()]
    fails on the way out of a [return] inside the loop, which comes after
    [result["infected"] = True].  The file of [faulty_fs], whose first
    read fails, is reported uninfected.  The file of [stale_pe_fs] begins with
    the signature of a Windows executable and its closing fails: the scan
    reports an infection whose reason is a scan error. *)
Theorem scan_error_keeps_the_infected_flag
    (format_float : float -> string) :
  (forall (fs : filesystem) (p : string),
      exists r : result, is_infected format_float fs p = Returns r)
  /\ (forall (fs : filesystem) (p msg : string) (r' : result),
        try_block format_float fs p (initial_result p) = (Raised msg, r') ->
        is_infected format_float fs p
        = Returns (with_reason (append "Scan error: " msg) r')
        /\ (infected r' = false
            \/ exists (st_size : Z) (data : bytes) (fault : io_fault)
                      (why : string),
                 fs p = Regular st_size data fault (Some msg)
                 /\ stream_reason why
                 /\ r' = detected why (with_size st_size (initial_result p)))
        /\ (forall (st_size : Z) (data : bytes) (fault : io_fault),
              fs p = Regular st_size data fault None ->
              infected r' = false))
  /\ (forall (fs : filesystem) (p : string) (st_size : Z) (data : bytes)
             (msg : string) (close : option string),
        fs p = Regular st_size data (OpenFails msg) close -> st_size <> 0 ->
        is_infected format_float fs p
        = Returns
            (Result false (Some (append "Scan error: " msg)) (basename p)
                    st_size (Hashes None None) (Fin 0)))
  /\ is_infected format_float faulty_fs "/srv/upload.bin"
     = Returns
         (Result false (Some "Scan error: [Errno 5] Input/output error")
                 "upload.bin" 7 (Hashes None None) (Fin 0))
  /\ stale_pe_fs "/mnt/share/setup.exe"
     = Regular 8 pe_header NoFault (Some "[Errno 5] Input/output error")
  /\ startswith pe_header [x4d; x5a] = true
  /\ is_infected format_float stale_pe_fs "/mnt/share/setup.exe"
     = Returns
         (Result true (Some "Scan error: [Errno 5] Input/output error")
                 "setup.exe" 8 (Hashes None None) (Fin 0)).
Proof.
  split; [intros fs p; apply is_infected_total|].
  split; [|split; [|split; [|split; [|split]]]]; try reflexivity.
  - intros fs p msg r' E.
    pose proof (try_block_path format_float fs p (initial_result p)) as P.
    rewrite E in P.
    split; [unfold is_infected; rewrite E; reflexivity|].
    inversion P; subst.
    + split; [left; reflexivity|]. intros; reflexivity.
    + split; [right; eauto 10|].
      intros st' data' fault' Hf'.
      match goal with H : fs p = Regular _ _ _ (Some _) |- _ =>
        rewrite Hf' in H; discriminate end.
  - intros fs p st data msg close Hf Hs. unfold is_infected.
    rewrite (try_block_open_fails format_float fs p st data msg close _ Hf Hs).
    reflexivity.
Qed.

(** C3 does not hold of the code in one case.  The dictionary returned
    always has a reason.  When it reports an infection the reason names
    exactly one of the six detection categories, except when closing the
    file has failed after a detection inside the loop: the handler has
    then replaced the reason of the detection by "Scan error: " followed
    by the text of the exception, and has left the flag.  The document of
    [stale_pdf_fs] carries a script and its closing fails: the scan
    reports an infection whose reason names none of the categories. *)
Theorem infected_scan_error_names_no_category
    (format_float : float -> string) :
  (forall (fs : filesystem) (p : string) (r : result),
      is_infected format_float fs p = Returns r ->
      exists why : string,
        reason r = Some why
        /\ (infected r = true ->
            (exists c : category,
                names c why = true
                /\ forall c', names c' why = true -> c' = c)
            \/ (exists (msg : string) (st_size : Z) (data : bytes)
                       (fault : io_fault),
                   fs p = Regular st_size data fault (Some msg)
                   /\ why = append "Scan error: " msg)))
  /\ is_infected format_float stale_pdf_fs "/mnt/share/form.pdf"
     = Returns
         (Result true (Some "Scan error: [Errno 5] Input/output error")
                 "form.pdf" 63 (Hashes None None) (Fin 0))
  /\ (forall c : category,
        names c "Scan error: [Errno 5] Input/output error" = false).
Proof.
  split; [|split; [reflexivity | intros c; destruct c; reflexivity]].
  intros fs p r H. by_path H.
  - eexists. split; [reflexivity | discriminate].
  - eexists. split; [reflexivity | discriminate].
  - eexists. split; [reflexivity | discriminate].
  - eexists. split; [reflexivity|]. intros _. right. eauto 10.
  - eexists. split; [reflexivity|]. intros _. left.
    apply (detection_reason_category format_float).
    apply reason_stream. assumption.
  - match goal with
    | |- context [first_rule ?f ?l ?r0] =>
        destruct (first_rule_reason f l r0) as (why & Hwhy & [[Hi _]|[_ Hd]])
    end.
    + exists why. split; [exact Hwhy|]. rewrite Hi. discriminate.
    + exists why. split; [exact Hwhy|]. intros _. left.
      exact (detection_reason_category format_float why Hd).
Qed.

(** C4, as stated, fails on a file that cannot be opened: [locked_pe_fs]
    holds a file that begins with 0x4D 0x5A, and its scan returns
    [infected = False] with the report of the exception; the header is
    never looked at. *)
Lemma unreadable_pe_is_not_flagged :
  locked_pe_fs "C:/dl/locked.exe"
  = Regular 8 pe_header
      (OpenFails "[Errno 13] Permission denied: 'C:/dl/locked.exe'") None
  /\ startswith pe_header [x4d; x5a] = true
  /\ is_infected digits_elided locked_pe_fs "C:/dl/locked.exe"
     = Returns
         (Result false
            (Some
               "Scan error: [Errno 13] Permission denied: 'C:/dl/locked.exe'")
            "locked.exe" 8 (Hashes None None) (Fin 0)).
Proof. split; [|split]; reflexivity. Qed.

(** C4, amended.  A file that begins with the bytes 0x4D 0x5A, whose size
    is not reported as zero, whose first chunk is read without an I/O
    failure and whose closing does not fail is reported infected, with the
    reason "Suspicious executable header: Windows PE (MZ)"; the scan
    returns before the digests are finalised, so both stay [None] (and the
    entropy stays 0.0), whatever the content of the file, blacklisted or
    not. *)
Theorem windows_pe_short_circuit
    (format_float : float -> string) (fs : filesystem) (p : string)
    (st_size : Z) (data : bytes) (fault : io_fault) :
  fs p = Regular st_size data fault None ->
  st_size <> 0 ->
  startswith data [x4d; x5a] = true ->
  first_read_succeeds fault ->
  is_infected format_float fs p
  = Returns
      (Result true (Some "Suspicious executable header: Windows PE (MZ)")
              (basename p) st_size (Hashes None None) (Fin 0))
  /\ mentions "Windows PE" "Suspicious executable header: Windows PE (MZ)"
     = true.
Proof.
  intros Hf Hz Hs Hr. split; [|reflexivity].
  assert (Hd : data <> []) by (destruct data; [discriminate | discriminate]).
  unfold is_infected.
  rewrite (try_block_stream format_float fs p st_size data fault None _ Hf Hz
             (first_read_opens _ Hr)).
  destruct (reads_first data fault Hd Hr) as (rest & -> & Hne).
  unfold bind at 1. unfold with_closing. cbn [close_error].
  rewrite (for_chunks_first _ _ _ _ Hne).
  unfold bind at 1. unfold loop_body.
  cbn [header_checked initial_locals negb pdf_checked].
  unfold bind at 1. unfold bind at 1.
  unfold EXECUTABLE_HEADERS. cbn [check_headers].
  rewrite startswith_firstn
    by (apply Nat.leb_le; vm_compute; reflexivity).
  rewrite Hs. reflexivity.
Qed.

(** C4, amended, at a readable file with the header of an executable. *)
Lemma windows_pe_short_circuit_witness :
  is_infected digits_elided pe_fs "C:/dl/setup.exe"
  = Returns
      (Result true (Some "Suspicious executable header: Windows PE (MZ)")
              "setup.exe" 8 (Hashes None None) (Fin 0))
  /\ mentions "Windows PE" "Suspicious executable header: Windows PE (MZ)"
     = true.
Proof.
  apply (windows_pe_short_circuit digits_elided pe_fs "C:/dl/setup.exe"
           8 pe_header NoFault).
  - reflexivity.
  - discriminate.
  - reflexivity.
  - exact I.
Defined.

(** C5.  The checks after the stream fire in a fixed order: the statements
    after the loop return the verdict of the first rule that applies among
    MD5 blacklist, SHA-256 blacklist, entropy threshold, suspicious-content
    flag and shellcode flag.  So when the MD5 digest is listed, with [label],
    the verdict is an infection with the reason "Known malware (MD5): "
    followed by [label], whatever the histogram and the flags in the
    locals; and a file that is streamed to its end, closed without a
    failure, and whose MD5 digest is listed is reported so, the entropy
    being not even computed (it stays 0.0). *)
Theorem md5_blacklist_has_priority (format_float : float -> string) :
  (forall (l : locals) (r : result),
      post_stream format_float l r = (Returned, first_rule format_float l r))
  /\ (forall (l : locals) (r : result) (label : string),
        lookup KNOWN_BAD_MD5 (MD5.hexdigest (md5_hash l)) = Some label ->
        first_rule format_float l r
        = detected (append "Known malware (MD5): " label) (hashed l r))
  /\ (forall (fs : filesystem) (p : string) (st_size : Z) (data : bytes)
             (fault : io_fault) (l : locals) (r1 : result) (label : string),
        fs p = Regular st_size data fault None ->
        st_size <> 0 ->
        opens fault ->
        for_chunks (reads data fault) initial_locals
          (with_size st_size (initial_result p))
        = (Normal l, r1) ->
        lookup KNOWN_BAD_MD5 (MD5.oneshot data) = Some label ->
        is_infected format_float fs p
        = Returns
            (Result true (Some (append "Known malware (MD5): " label))
                    (basename p) st_size
                    (Hashes (Some (MD5.oneshot data))
                            (Some (SHA256.oneshot data)))
                    (Fin 0))
        /\ mentions "Known malware (MD5)"
             (append "Known malware (MD5): " label) = true).
Proof.
  split; [apply post_stream_first_rule|]. split.
  - intros l r label H. unfold first_rule. rewrite H. reflexivity.
  - intros fs p st data fault l r1 label Hf Hd Ho Hl Hm. split; [|reflexivity].
    destruct (for_chunks_normal _ _ _ _ _ _ Hl) as [-> Hfed].
    unfold is_infected.
    rewrite (try_block_stream format_float fs p st data fault None _ Hf Hd Ho).
    unfold bind, with_closing. cbn [close_error]. rewrite Hl.
    rewrite <- (md5_streamed data l Hfed) in Hm.
    rewrite (post_stream_md5 format_float l _ label Hm).
    rewrite <- (md5_streamed data l Hfed), <- (sha256_streamed data l Hfed).
    reflexivity.
Qed.

(** C5 at the EICAR test file. *)
Lemma md5_blacklist_has_priority_witness :
  is_infected digits_elided eicar_fs "/srv/eicar.com"
  = Returns
      (Result true
         (Some "Known malware (MD5): EICAR Test (Production Placeholder)")
         "eicar.com" 68
         (Hashes (Some (MD5.oneshot eicar)) (Some (SHA256.oneshot eicar)))
         (Fin 0))
  /\ mentions "Known malware (MD5)"
       "Known malware (MD5): EICAR Test (Production Placeholder)" = true.
Proof.
  eapply (proj2 (proj2 (md5_blacklist_has_priority digits_elided))
            eicar_fs "/srv/eicar.com" 68 eicar NoFault).
  - reflexivity.
  - discriminate.
  - exact I.
  - vm_compute. reflexivity.
  - vm_compute. reflexivity.
Defined.

(** C6.  Feeding any sequence of chunks to the MD5 and SHA-256 objects and
    finalising gives the hexadecimal digests of the single-shot computation
    on the concatenation of the chunks; two ways of cutting the same
    content therefore give the same digests, and the digests that a scan
    stores are those of the content of the file. *)
Theorem chunked_digests_are_single_shot :
  (forall chunks : list bytes,
      MD5.hexdigest (fold_left MD5.update chunks MD5.md5)
      = MD5.oneshot (concat chunks)
      /\ SHA256.hexdigest (fold_left SHA256.update chunks SHA256.sha256)
         = SHA256.oneshot (concat chunks))
  /\ (forall chunks chunks' : list bytes,
        concat chunks = concat chunks' ->
        MD5.hexdigest (fold_left MD5.update chunks MD5.md5)
        = MD5.hexdigest (fold_left MD5.update chunks' MD5.md5)
        /\ SHA256.hexdigest (fold_left SHA256.update chunks SHA256.sha256)
           = SHA256.hexdigest (fold_left SHA256.update chunks' SHA256.sha256))
  /\ (forall (format_float : float -> string) (fs : filesystem) (p : string),
        match is_infected format_float fs p, fs p with
        | Returns r, Regular _ data _ _ =>
            hashes r = Hashes None None
            \/ hashes r = Hashes (Some (MD5.oneshot data))
                                 (Some (SHA256.oneshot data))
        | Returns r, _ => hashes r = Hashes None None
        | _, _ => False
        end).
Proof.
  assert (H1 : forall cs : list bytes,
             MD5.hexdigest (fold_left MD5.update cs MD5.md5)
             = MD5.oneshot (concat cs)
             /\ SHA256.hexdigest (fold_left SHA256.update cs SHA256.sha256)
                = SHA256.oneshot (concat cs)).
  { intros cs. split.
    - apply (hexdigest_fold_update MD5.chain).
    - apply (hexdigest_fold_update SHA256.chain). }
  split; [exact H1|]. split.
  - intros cs cs' E.
    destruct (H1 cs) as [-> ->], (H1 cs') as [-> ->]. rewrite E.
    split; reflexivity.
  - intros format_float fs p.
    destruct (is_infected_total format_float fs p) as [r Hr]. rewrite Hr.
    by_path Hr.
    + match goal with
      | Hf : isfile fs p = false |- _ =>
          unfold isfile in Hf; destruct (fs p); try discriminate; reflexivity
      end.
    + match goal with Hf : fs p = _ |- _ => rewrite Hf end.
      left. reflexivity.
    + match goal with Hf : fs p = _ |- _ => rewrite Hf end.
      left. reflexivity.
    + match goal with Hf : fs p = _ |- _ => rewrite Hf end.
      left. reflexivity.
    + match goal with Hf : fs p = _ |- _ => rewrite Hf end.
      left. reflexivity.
    + match goal with
      | Hf : fs p = Regular _ ?data _ _, Hfed : fed (chunks ?data) _ ?l |- _ =>
          rewrite Hf; right;
          rewrite first_rule_hashes,
            (md5_streamed data l Hfed), (sha256_streamed data l Hfed)
      end.
      reflexivity.
Qed.

(** C7.  Validation comes before any streaming.  A path that is not an
    existing regular file gives [infected = False] and the reason
    "File does not exist"; an existing file whose size is zero gives
    [infected = False] and the reason "File is empty" with [size] 0, and
    this whatever would happen on opening, reading or closing it.  In
    both results the two digests are [None] and the entropy is 0.0. *)
Theorem validation_short_circuits
    (format_float : float -> string) (fs : filesystem) (p : string) :
  (isfile fs p = false ->
   is_infected format_float fs p
   = Returns (Result false (Some "File does not exist") (basename p) 0
                     (Hashes None None) (Fin 0)))
  /\ (forall (data : bytes) (fault : io_fault) (close : option string),
        fs p = Regular 0 data fault close ->
        is_infected format_float fs p
        = Returns (Result false (Some "File is empty") (basename p) 0
                          (Hashes None None) (Fin 0))).
Proof.
  split.
  - intros H. unfold is_infected. rewrite try_block_missing by exact H.
    reflexivity.
  - intros data fault close H. unfold is_infected.
    rewrite (try_block_empty format_float fs p data fault close _ H).
    reflexivity.
Qed.

(** C7 at a path that names nothing, at a directory, at an empty file and
    at a file of procfs, whose size is reported as zero. *)
Lemma validation_short_circuits_witness :
  is_infected digits_elided validation_fs "/tmp/nothing.bin"
  = Returns (Result false (Some "File does not exist") "nothing.bin" 0
                    (Hashes None None) (Fin 0))
  /\ is_infected digits_elided validation_fs "/tmp"
     = Returns (Result false (Some "File does not exist") "tmp" 0
                       (Hashes None None) (Fin 0))
  /\ is_infected digits_elided validation_fs "/tmp/empty.bin"
     = Returns (Result false (Some "File is empty") "empty.bin" 0
                       (Hashes None None) (Fin 0))
  /\ is_infected digits_elided procfs_fs "/proc/version"
     = Returns (Result false (Some "File is empty") "version" 0
                       (Hashes None None) (Fin 0)).
Proof.
  split; [|split; [|split]].
  - apply (proj1 (validation_short_circuits digits_elided validation_fs
                    "/tmp/nothing.bin")).
    reflexivity.
  - apply (proj1 (validation_short_circuits digits_elided validation_fs
                    "/tmp")).
    reflexivity.
  - apply (proj2 (validation_short_circuits digits_elided validation_fs
                    "/tmp/empty.bin") [] (OpenFails "unreachable") None).
    reflexivity.
  - apply (proj2 (validation_short_circuits digits_elided procfs_fs
                    "/proc/version")
             (of_string "Linux version 6.1.0") NoFault None).
    reflexivity.
Defined.

(** C8.  The detectors look at one chunk at a time: after a complete
    stream each flag tells whether some chunk, taken alone, set off its
    detector.  So a pattern that lies across a chunk boundary is missed.
    The file [straddle] holds a run of twenty bytes 0x90, ten at the end of
    its first chunk of 8192 bytes and ten at the start of the second: no
    chunk holds the run, and the scan reports
    "Scan completed: No threats detected".  In the same way the marker
    "/JavaScript" of the PDF file [pdf_straddle] is cut in two by the chunk
    boundary and the file is reported clean. *)
Theorem shellcode_across_chunks_is_missed (format_float : float -> string) :
  (forall (data : bytes) (fault : io_fault) (l : locals) (r0 r1 : result),
      for_chunks (reads data fault) initial_locals r0 = (Normal l, r1) ->
      shellcode_detected l = existsb shellcode_chunk (chunks data)
      /\ suspicious_content l = existsb suspicious_chunk (chunks data))
  /\ (contains (replicate 20 x90) straddle = true
      /\ chunks straddle
         = [ repeat "A"%byte 8182 ++ repeat x90 10; repeat x90 10 ]
      /\ existsb shellcode_chunk (chunks straddle) = false
      /\ exists r : result,
           is_infected format_float straddle_fs "/srv/sled.bin" = Returns r
           /\ infected r = false
           /\ reason r = Some "Scan completed: No threats detected")
  /\ (startswith pdf_straddle PDF_SIG = true
      /\ contains (of_string "/JavaScript") pdf_straddle = true
      /\ exists r : result,
           is_infected format_float pdf_straddle_fs "/srv/form.pdf" = Returns r
           /\ infected r = false
           /\ reason r = Some "Scan completed: No threats detected").
Proof.
  split; [|split].
  - intros data fault l r0 r1 H.
    destruct (for_chunks_complete _ _ _ _ _ _ H) as (_ & _ & Hs & Hn).
    cbn [initial_locals suspicious_content shellcode_detected] in Hs, Hn.
    rewrite orb_false_r in Hs, Hn. split; assumption.
  - split; [vm_compute; reflexivity|].
    split; [vm_compute; reflexivity|].
    split; [vm_compute; reflexivity|].
    eexists. split.
    + eapply (is_infected_unlisted format_float straddle_fs "/srv/sled.bin"
                straddle NoFault).
      * reflexivity.
      * discriminate.
      * exact I.
      * vm_compute. reflexivity.
      * vm_compute. reflexivity.
      * vm_compute. reflexivity.
      * vm_compute. reflexivity.
    + split; reflexivity.
  - split; [vm_compute; reflexivity|].
    split; [vm_compute; reflexivity|].
    eexists. split.
    + eapply (is_infected_unlisted format_float pdf_straddle_fs
                "/srv/form.pdf" pdf_straddle NoFault).
      * reflexivity.
      * discriminate.
      * exact I.
      * vm_compute. reflexivity.
      * vm_compute. reflexivity.
      * vm_compute. reflexivity.
      * vm_compute. reflexivity.
    + split; reflexivity.
Qed.

(** C9.  The entropy step can divide by zero.  The validation step tests
    the size that [os.path.getsize] reports, and the entropy step divides
    by [byte_counts.sum()], the number of bytes that the reads delivered.
    For the file [/sys/module/m/notes] of [sysfs_fs], whose size is
    reported as 4096 and whose first read is already at the end of the
    file, the loop ends with a histogram of zeros, the divisor is 0, every
    probability is 0/0, and the scan returns a clean report whose entropy
    is NaN and whose digests are those of the empty string.  What does
    hold: a file whose size is reported as zero is turned away before any
    division; after a complete stream of a file from which at least one
    byte was read the divisor is the number of bytes of the content, which
    is positive; and for such a file, or one of size zero, the entropy
    stored in a returned dictionary is a finite number. *)
Theorem entropy_divides_by_the_bytes_read (format_float : float -> string) :
  (exists (l : locals) (r1 : result),
      for_chunks (reads [] NoFault) initial_locals
        (with_size 4096 (initial_result "/sys/module/m/notes"))
      = (Normal l, r1)
      /\ Int64.sum (byte_counts l) = 0
      /\ file_entropy l = NaN)
  /\ is_infected format_float sysfs_fs "/sys/module/m/notes"
     = Returns
         (Result false (Some "Scan completed: No threats detected") "notes"
                 4096
                 (Hashes
                    (Some "d41d8cd98f00b204e9800998ecf8427e")
                    (Some "e3b0c44298fc1c149afbf4c8996fb92427ae41e4649b934ca495991b7852b855"))
                 NaN)
  /\ (forall (fs : filesystem) (p : string) (data : bytes)
             (fault : io_fault) (close : option string),
        fs p = Regular 0 data fault close ->
        is_infected format_float fs p
        = Returns (with_reason "File is empty" (initial_result p)))
  /\ (forall (data : bytes) (fault : io_fault) (l : locals)
             (r0 r1 : result),
        data <> [] ->
        Z.of_nat (length data) < 2 ^ 63 ->
        for_chunks (reads data fault) initial_locals r0 = (Normal l, r1) ->
        Int64.sum (byte_counts l) = Z.of_nat (length data)
        /\ 0 < Int64.sum (byte_counts l))
  /\ (forall (fs : filesystem) (p : string) (st_size : Z) (data : bytes)
             (fault : io_fault) (close : option string) (r : result),
        fs p = Regular st_size data fault close ->
        st_size = 0 \/ data <> [] ->
        Z.of_nat (length data) < 2 ^ 63 ->
        is_infected format_float fs p = Returns r ->
        exists x : R, entropy r = Fin x).
Proof.
  split; [|split; [|split; [|split]]].
  - exists initial_locals. eexists. split; [reflexivity|].
    split; [vm_compute; reflexivity | exact entropy_of_nothing].
  - rewrite (is_infected_nothing_read format_float sysfs_fs
               "/sys/module/m/notes" 4096 eq_refl)
      by discriminate.
    vm_compute. reflexivity.
  - intros fs p data fault close Hf. unfold is_infected.
    rewrite (try_block_empty format_float fs p data fault close _ Hf).
    reflexivity.
  - intros data fault l r0 r1 Hd Hsz Hl.
    destruct (for_chunks_normal _ _ _ _ _ _ Hl) as [_ Hfed].
    destruct (streamed_total data l Hfed Hsz) as [Hs _].
    rewrite Hs. split; [reflexivity | apply length_positive; exact Hd].
  - intros fs p st data fault close r Hf Hd Hsz Hr.
    by_path Hr; try (exists 0%R; reflexivity).
    match goal with
    | Hf' : fs p = Regular ?st' ?d _ _, Hs : ?st' <> 0,
      Hfed : fed (chunks ?d) _ ?l |- _ =>
        rewrite Hf in Hf'; inversion Hf'; subst;
        destruct Hd as [Hd|Hd]; [contradiction|];
        destruct (streamed_entropy d l Hfed Hd Hsz) as (He & _);
        destruct (first_rule_entropy format_float l
                    (with_size st' (initial_result p)))
          as [E|E]; rewrite E
    end.
    + exists 0%R. reflexivity.
    + eexists. exact He.
Qed.

(** C10.  The reason returned is never the one of the high-entropy
    category.  The entropy is computed with the natural logarithm: the
    value stored in a returned dictionary is at most [ln 256] (about
    5.545) when it is a number, and NaN or minus infinity otherwise;
    [ln 256] is below the threshold 7.9, so the comparison
    [file_entropy > ENTROPY_THRESHOLD] never holds. *)
Theorem high_entropy_is_unreachable
    (format_float : float -> string) (fs : filesystem) (p : string)
    (r : result) (why : string) :
  is_infected format_float fs p = Returns r ->
  reason r = Some why ->
  names HighEntropy why = false
  /\ gt (entropy r) ENTROPY_THRESHOLD = false
  /\ match entropy r with
     | Fin h => (h <= ln 256)%R
     | PInf => False
     | NInf | NaN => True
     end
  /\ (ln 256 < 79 / 10)%R.
Proof.
  intros Hr Hwhy.
  assert (G0 : gt (Fin 0) ENTROPY_THRESHOLD = false).
  { unfold gt, ENTROPY_THRESHOLD.
    destruct (Rgt_dec 0 (79 / 10)); [lra | reflexivity]. }
  pose proof ln_256_nonneg as L0. pose proof ln_256_bound as B.
  by_path Hr.
  - inversion Hwhy; subst. repeat split; assumption.
  - inversion Hwhy; subst. repeat split; assumption.
  - inversion Hwhy; subst. repeat split; assumption.
  - inversion Hwhy; subst. repeat split; assumption.
  - inversion Hwhy; subst.
    match goal with Hw : stream_reason _ |- _ => destruct Hw end;
      repeat split; assumption.
  - match goal with
    | Hfed : fed _ _ ?l |- _ =>
        destruct (file_entropy_below _ l Hfed) as [Hgt Hb];
        split; [exact (first_rule_not_high_entropy _ l _ why Hgt Hwhy)|];
        match goal with
        | |- context [first_rule ?f l ?r0] =>
            destruct (first_rule_entropy f l r0) as [E|E]; rewrite E
        end
    end.
    + repeat split; assumption.
    + repeat split; assumption.
Qed.

(** C10 at a text file of five bytes, reported clean. *)
Lemma high_entropy_is_unreachable_witness :
  names HighEntropy "Scan completed: No threats detected" = false
  /\ (ln 256 < 79 / 10)%R.
Proof.
  eassert (Hr : is_infected digits_elided note_fs "/srv/note.txt"
                = Returns _).
  { eapply (is_infected_unlisted digits_elided note_fs "/srv/note.txt"
              (of_string "hello") NoFault).
    - reflexivity.
    - discriminate.
    - exact I.
    - vm_compute. reflexivity.
    - vm_compute. reflexivity.
    - vm_compute. reflexivity.
    - vm_compute. reflexivity. }
  destruct (high_entropy_is_unreachable digits_elided note_fs "/srv/note.txt"
              _ "Scan completed: No threats detected" Hr eq_refl)
    as (Hn & _ & _ & Hb).
  split; [exact Hn | exact Hb].
Defined.

(* ================================================================== *)
(** * Further facts *)

Import Decision Frequencies Json Main MoreSamples.

(** ** The scan in closed form *)

Module DecisionFacts.

Lemma find_filter {A} (f g : A -> bool) (l : list A) :
  find f (filter g l) = find (fun x => g x && f x) l.
Proof.
  induction l as [|x l IH]; [reflexivity|].
  simpl. destruct (g x); simpl; [|exact IH].
  destruct (f x); [reflexivity | exact IH].
Qed.

Lemma check_headers_find (table : list (bytes * string)) (chunk : bytes) :
  forall (pdf : bool) (r : result),
    check_headers table chunk pdf r
    = match find (fun e => negb (bytes_eqb (fst e) PDF_SIG)
                           && startswith chunk (fst e)) table with
      | Some e => (Returned, detected (header_reason (snd e)) r)
      | None =>
          (Normal
             (pdf || existsb (fun e => startswith chunk (fst e)
                                       && bytes_eqb (fst e) PDF_SIG) table),
           r)
      end.
Proof.
  induction table as [|[sig desc] table IH]; intros pdf r.
  - simpl. rewrite orb_false_r. reflexivity.
  - cbn [check_headers find existsb fst snd].
    destruct (startswith chunk sig); cbn [andb orb].
    + destruct (bytes_eqb sig PDF_SIG); cbn [negb andb orb].
      * rewrite IH. destruct (find _ table); [reflexivity|].
        rewrite orb_true_r. reflexivity.
      * reflexivity.
    + rewrite andb_false_r. rewrite IH. reflexivity.
Qed.

Lemma pdf_entry (chunk : bytes) :
  existsb (fun e => startswith chunk (fst e) && bytes_eqb (fst e) PDF_SIG)
          EXECUTABLE_HEADERS
  = startswith chunk PDF_SIG.
Proof.
  unfold EXECUTABLE_HEADERS. cbn [existsb fst].
  change (bytes_eqb [x4d; x5a] PDF_SIG) with false.
  change (bytes_eqb (x7f :: of_string "ELF") PDF_SIG) with false.
  change (bytes_eqb [xfe; xed; xfa; xce] PDF_SIG) with false.
  change (bytes_eqb [xfe; xed; xfa; xcf] PDF_SIG) with false.
  change (bytes_eqb PDF_SIG PDF_SIG) with true.
  rewrite !andb_false_r, andb_true_r, orb_false_r. reflexivity.
Qed.

Lemma check_headers_first (chunk : bytes) (pdf : bool) (r : result) :
  check_headers EXECUTABLE_HEADERS chunk pdf r
  = match header_of chunk with
    | Some desc => (Returned, detected (header_reason desc) r)
    | None => (Normal (pdf || startswith chunk PDF_SIG), r)
    end.
Proof.
  rewrite check_headers_find, pdf_entry.
  unfold header_of, executable_signatures. rewrite find_filter.
  destruct (find _ EXECUTABLE_HEADERS); reflexivity.
Qed.

Lemma loop_body_checked (c : bytes) (l : locals) (r : result) :
  header_checked l = true ->
  loop_body c l r
  = if pdf_checked l && javascript_chunk c
    then (Returned, detected javascript_reason r)
    else (Normal (absorbed (pdf_checked l) l c), r).
Proof.
  intros H. unfold loop_body. rewrite H. cbn [negb]. run.
  fold (javascript_chunk c).
  destruct (pdf_checked l && javascript_chunk c); reflexivity.
Qed.

Lemma loop_body_first (c : bytes) (l : locals) (r : result) :
  header_checked l = false ->
  loop_body c l r
  = match header_of c with
    | Some desc => (Returned, detected (header_reason desc) r)
    | None =>
        let pdf := pdf_checked l || startswith c PDF_SIG in
        if pdf && javascript_chunk c
        then (Returned, detected javascript_reason r)
        else (Normal (absorbed pdf l c), r)
    end.
Proof.
  intros H. unfold loop_body. rewrite H. cbn [negb]. run.
  rewrite check_headers_first.
  destruct (header_of c); [reflexivity|].
  cbv zeta. fold (javascript_chunk c).
  destruct ((pdf_checked l || startswith c PDF_SIG) && javascript_chunk c);
    reflexivity.
Qed.

Lemma for_chunks_checked (cs : list bytes) (rest : list read_result) :
  Forall (fun c => c <> []) cs ->
  forall (l : locals) (r : result),
    header_checked l = true ->
    for_chunks (map Data cs ++ rest) l r
    = if pdf_checked l && existsb javascript_chunk cs
      then (Returned, detected javascript_reason r)
      else for_chunks rest (fold_left (absorbed (pdf_checked l)) cs l) r.
Proof.
  induction 1 as [|c cs Hc Hcs IH]; intros l r Hl.
  - simpl. rewrite andb_false_r. reflexivity.
  - cbn [map app]. rewrite (for_chunks_first _ _ _ _ Hc).
    unfold bind. rewrite (loop_body_checked _ _ _ Hl).
    cbn [existsb fold_left].
    destruct (pdf_checked l) eqn:Hp; cbn [andb].
    + destruct (javascript_chunk c); [reflexivity|].
      rewrite IH by reflexivity. reflexivity.
    + rewrite IH by reflexivity. reflexivity.
Qed.

Lemma for_chunks_stream (cs : list bytes) (rest : list read_result)
    (r : result) :
  Forall (fun c => c <> []) cs ->
  for_chunks (map Data cs ++ rest) initial_locals r
  = match stream_detection cs with
    | Some why => (Returned, detected why r)
    | None => for_chunks rest (streamed cs) r
    end.
Proof.
  intros H. destruct H as [|c cs Hc Hcs]; [reflexivity|].
  cbn [map app]. rewrite (for_chunks_first _ _ _ _ Hc).
  unfold bind. rewrite loop_body_first by reflexivity.
  unfold stream_detection, streamed.
  destruct (header_of c); [reflexivity|].
  cbn [pdf_checked initial_locals orb existsb fold_left]. cbv zeta.
  destruct (startswith c PDF_SIG) eqn:Hp; cbn [andb].
  - destruct (javascript_chunk c); cbn [orb]; [reflexivity|].
    rewrite (for_chunks_checked cs rest Hcs) by reflexivity.
    cbn [pdf_checked absorbed andb].
    destruct (existsb javascript_chunk cs); reflexivity.
  - rewrite (for_chunks_checked cs rest Hcs) by reflexivity.
    reflexivity.
Qed.

Lemma streamed_fed (cs : list bytes) :
  Forall (fun c => c <> []) cs ->
  stream_detection cs = None ->
  fed cs initial_locals (streamed cs)
  /\ flagged cs initial_locals (streamed cs).
Proof.
  intros Hcs Hd.
  pose proof (for_chunks_stream cs [] (initial_result "") Hcs) as E.
  rewrite Hd in E. cbn [for_chunks] in E. unfold ret in E.
  destruct (for_chunks_prefix cs [] Hcs _ _ _ _ E) as (lm & Hf & Hg & Hend).
  cbn [for_chunks] in Hend. unfold ret in Hend. inversion Hend; subst.
  split; assumption.
Qed.

Lemma fed_counts (data : bytes) (l : locals) :
  fed (chunks data) initial_locals l ->
  byte_counts l = count_bytes data zeros.
Proof.
  intros (_ & _ & H). rewrite H, count_bytes_concat, chunks_concat.
  reflexivity.
Qed.

Lemma first_rule_content
    (format_float : float -> string) (p : string) (st_size : Z)
    (data : bytes) (l : locals) :
  fed (chunks data) initial_locals l ->
  flagged (chunks data) initial_locals l ->
  first_rule format_float l (sized p st_size)
  = content_verdict p st_size data.
Proof.
  intros Hfed (Hs & Hn).
  cbn [initial_locals suspicious_content shellcode_detected] in Hs, Hn.
  rewrite orb_false_r in Hs, Hn.
  destruct (file_entropy_below _ l Hfed) as [Hgt _].
  unfold first_rule, content_verdict, hashed, digests.
  rewrite (md5_streamed data l Hfed), (sha256_streamed data l Hfed).
  destruct (lookup KNOWN_BAD_MD5 _); [reflexivity|].
  destruct (lookup KNOWN_BAD_SHA256 _); [reflexivity|].
  cbv zeta. rewrite Hgt, Hs, Hn.
  unfold file_entropy, content_entropy. rewrite (fed_counts data l Hfed).
  reflexivity.
Qed.

Lemma reads_fault (data : bytes) (n : nat) (msg : string) :
  reads data (ReadFails n msg)
  = if (n <=? length (chunks data))%nat
    then map Data (firstn n (chunks data)) ++ [IOError msg]
    else map Data (chunks data) ++ [Data []].
Proof.
  unfold reads. rewrite map_app. change (map Data [[]]) with [Data []].
  rewrite length_app, length_map. cbn [length].
  destruct (Nat.leb_spec n (length (chunks data))) as [H|H].
  - replace (n <? length (chunks data) + 1)%nat with true
      by (symmetry; apply Nat.ltb_lt; lia).
    f_equal. rewrite firstn_app, length_map.
    replace (n - length (chunks data))%nat with O by lia.
    simpl firstn at 2. rewrite app_nil_r. apply firstn_map.
  - replace (n <? length (chunks data) + 1)%nat with false
      by (symmetry; apply Nat.ltb_ge; lia).
    reflexivity.
Qed.

(** When no read fails, every chunk of the file is delivered. *)
Lemma delivered_all (data : bytes) (fault : io_fault) :
  read_error data fault = None -> delivered data fault = chunks data.
Proof.
  destruct fault as [|msg|n msg]; try reflexivity.
  unfold read_error, delivered.
  destruct (Nat.leb_spec n (length (chunks data))) as [H|H]; [discriminate|].
  intros _. apply firstn_all2. lia.
Qed.

(** The reads of an open file: the chunks delivered, then the failing
    read or the empty read at the end of the file. *)
Lemma reads_delivered (data : bytes) (fault : io_fault) :
  opens fault ->
  reads data fault
  = map Data (delivered data fault)
    ++ [match read_error data fault with
        | Some msg => IOError msg
        | None => Data []
        end].
Proof.
  destruct fault as [|msg|n msg]; intros Ho.
  - unfold reads. rewrite map_app. reflexivity.
  - contradiction.
  - rewrite reads_fault. unfold read_error, delivered.
    destruct (Nat.leb_spec n (length (chunks data))) as [H|H];
      [reflexivity|].
    rewrite firstn_all2 by lia. reflexivity.
Qed.

Lemma delivered_nonempty (data : bytes) (fault : io_fault) :
  Forall (fun c => c <> []) (delivered data fault).
Proof.
  destruct fault; cbn [delivered];
    [|idtac|apply Forall_firstn]; apply chunks_nonempty.
Qed.

(** The loop over an open file, in closed form. *)
Lemma for_chunks_outcome (data : bytes) (fault : io_fault) (r : result) :
  opens fault ->
  for_chunks (reads data fault) initial_locals r
  = match stream_detection (delivered data fault) with
    | Some why => (Returned, detected why r)
    | None =>
        match read_error data fault with
        | Some msg => (Raised msg, r)
        | None => (Normal (streamed (chunks data)), r)
        end
    end.
Proof.
  intros Ho. rewrite (reads_delivered data fault Ho).
  rewrite for_chunks_stream by apply delivered_nonempty.
  destruct (stream_detection (delivered data fault)); [reflexivity|].
  destruct (read_error data fault) eqn:E; [reflexivity|].
  rewrite (delivered_all data fault E). reflexivity.
Qed.

Section Outcome.

Variable format_float : float -> string.

(** The scan of a regular file whose size is not zero, in closed form. *)
Lemma is_infected_outcome (fs : filesystem) (p : string) (st_size : Z)
    (data : bytes) (fault : io_fault) (close : option string) :
  fs p = Regular st_size data fault close -> st_size <> 0 ->
  is_infected format_float fs p
  = Returns (outcome p st_size data fault close).
Proof.
  intros Hf Hs. unfold is_infected.
  assert (Ho : (exists msg, fault = OpenFails msg) \/ opens fault).
  { destruct fault; [right; exact I | left; eauto | right; exact I]. }
  destruct Ho as [[msg ->]|Ho].
  { rewrite (try_block_open_fails format_float fs p st_size data msg close
               _ Hf Hs).
    reflexivity. }
  rewrite (try_block_stream format_float fs p st_size data fault close _
             Hf Hs Ho).
  unfold bind, with_closing. cbn [close_error].
  rewrite (for_chunks_outcome data fault _ Ho).
  assert (E : outcome p st_size data fault close
              = match stream_detection (delivered data fault) with
                | Some why =>
                    match close with
                    | Some msg => handled msg (detected why (sized p st_size))
                    | None => detected why (sized p st_size)
                    end
                | None =>
                    match close, read_error data fault with
                    | Some msg, _ => scan_error p st_size msg
                    | None, Some msg => scan_error p st_size msg
                    | None, None => content_verdict p st_size data
                    end
                end).
  { destruct fault; [reflexivity | contradiction | reflexivity]. }
  rewrite E.
  destruct (stream_detection (delivered data fault)) as [why|] eqn:D.
  - destruct close; reflexivity.
  - destruct (read_error data fault) as [msg|] eqn:R.
    + destruct close; reflexivity.
    + destruct close; [reflexivity|]. cbn [snd].
      rewrite (delivered_all data fault R) in D.
      rewrite post_stream_first_rule.
      destruct (streamed_fed (chunks data) (chunks_nonempty data) D)
        as [Hfed Hflag].
      fold (sized p st_size).
      rewrite (first_rule_content format_float p st_size data _ Hfed Hflag).
      reflexivity.
Qed.

End Outcome.

(** *** Signatures at the head of a file *)

Lemma startswith_cons (c s : byte) (chunk sig : bytes) :
  startswith (c :: chunk) (s :: sig) = true ->
  c = s /\ startswith chunk sig = true.
Proof.
  cbn [startswith]. intros H. apply andb_prop in H. destruct H as [H1 H2].
  split; [apply Byte.byte_dec_bl; exact H1 | exact H2].
Qed.

(** Two byte strings that both begin a chunk begin alike. *)
Lemma startswith_agree (chunk : bytes) :
  forall s t : bytes,
    startswith chunk s = true -> startswith chunk t = true ->
    startswith s t = true \/ startswith t s = true.
Proof.
  induction chunk as [|c chunk IH]; intros s t Hs Ht.
  - destruct s; [|discriminate]. right. destruct t; reflexivity.
  - destruct s as [|a s]; [right; destruct t; reflexivity|].
    destruct t as [|b t]; [left; reflexivity|].
    apply startswith_cons in Hs, Ht. destruct Hs as [-> Hs], Ht as [-> Ht].
    destruct (IH s t Hs Ht) as [H|H]; [left | right];
      cbn [startswith]; rewrite H, (Byte.byte_dec_lb eq_refl); reflexivity.
Qed.

Lemma startswith_clash (chunk s t : bytes) :
  startswith s t = false -> startswith t s = false ->
  startswith chunk s = true -> startswith chunk t = false.
Proof.
  intros H1 H2 Hs. destruct (startswith chunk t) eqn:Ht; [|reflexivity].
  destruct (startswith_agree chunk s t Hs Ht); congruence.
Qed.

(** [clash t]: the signature [t] does not begin the chunk, which begins
    with another one. *)
Ltac clash t :=
  match goal with
  | Hs : startswith ?c ?s = true |- _ =>
      rewrite (startswith_clash c s t eq_refl eq_refl Hs)
  end.

Lemma header_of_signature (chunk sig : bytes) (desc : string) :
  In (sig, desc) executable_signatures ->
  startswith chunk sig = true ->
  header_of chunk = Some desc.
Proof.
  intros Hin Hs. unfold header_of.
  change executable_signatures
    with [ ([x4d; x5a], "Windows PE (MZ)");
           (x7f :: of_string "ELF", "Linux ELF");
           ([xfe; xed; xfa; xce], "Mach-O (macOS)");
           ([xfe; xed; xfa; xcf], "Mach-O (macOS 64-bit)") ] in *.
  cbn [find fst].
  destruct Hin as [E|[E|[E|[E|[]]]]]; inversion E; subst; clear E.
  - rewrite Hs. reflexivity.
  - clash [x4d; x5a]. rewrite Hs. reflexivity.
  - clash [x4d; x5a]. clash (x7f :: of_string "ELF"). rewrite Hs.
    reflexivity.
  - clash [x4d; x5a]. clash (x7f :: of_string "ELF").
    clash [xfe; xed; xfa; xce]. rewrite Hs. reflexivity.
Qed.

Lemma header_of_inv (chunk : bytes) (desc : string) :
  header_of chunk = Some desc ->
  exists sig,
    In (sig, desc) executable_signatures /\ startswith chunk sig = true.
Proof.
  unfold header_of. intros H.
  destruct (find _ executable_signatures) as [[sig d]|] eqn:E;
    [|discriminate].
  inversion H; subst. apply find_some in E. exists sig. exact E.
Qed.

Lemma header_of_pdf (chunk : bytes) :
  startswith chunk PDF_SIG = true -> header_of chunk = None.
Proof.
  intros Hs. destruct (header_of chunk) as [desc|] eqn:E; [|reflexivity].
  apply header_of_inv in E. destruct E as (sig & Hin & Hsig).
  change executable_signatures
    with [ ([x4d; x5a], "Windows PE (MZ)");
           (x7f :: of_string "ELF", "Linux ELF");
           ([xfe; xed; xfa; xce], "Mach-O (macOS)");
           ([xfe; xed; xfa; xcf], "Mach-O (macOS 64-bit)") ] in Hin.
  destruct Hin as [E|[E|[E|[E|[]]]]]; inversion E; subst; clear E;
    match type of Hsig with
    | startswith chunk ?t = true =>
        rewrite (startswith_clash chunk PDF_SIG t eq_refl eq_refl Hs) in Hsig
    end;
    discriminate.
Qed.

Lemma chunks_first (data : bytes) :
  data <> [] ->
  exists cs, chunks data = firstn CHUNK_SIZE data :: cs.
Proof.
  intros H. destruct data as [|b data]; [congruence|].
  eexists. reflexivity.
Qed.

Lemma executable_signature_listed (sig : bytes) (desc : string) :
  In (sig, desc) executable_signatures -> In (sig, desc) EXECUTABLE_HEADERS.
Proof. intros H. apply filter_In in H. apply H. Qed.

Lemma startswith_nonempty (data sig : bytes) :
  startswith data sig = true -> sig <> [] -> data <> [].
Proof. intros H Hs ->. destruct sig; [congruence | discriminate]. Qed.

Lemma signature_nonempty (sig : bytes) (desc : string) :
  In (sig, desc) EXECUTABLE_HEADERS -> sig <> [].
Proof.
  intros H.
  destruct H as [E|[E|[E|[E|[E|[]]]]]]; inversion E; subst; discriminate.
Qed.

(** The header that the scan sees is the one of the file. *)
Lemma header_of_first_chunk (data : bytes) :
  header_of (firstn CHUNK_SIZE data) = header_of data.
Proof.
  unfold header_of. f_equal.
  change executable_signatures
    with [ ([x4d; x5a], "Windows PE (MZ)");
           (x7f :: of_string "ELF", "Linux ELF");
           ([xfe; xed; xfa; xce], "Mach-O (macOS)");
           ([xfe; xed; xfa; xcf], "Mach-O (macOS 64-bit)") ].
  cbn [find fst].
  rewrite !startswith_firstn by (apply Nat.leb_le; reflexivity).
  reflexivity.
Qed.

Lemma stream_detection_firstn (cs : list bytes) (n : nat) (why : string) :
  stream_detection (firstn n cs) = Some why ->
  stream_detection cs = Some why.
Proof.
  destruct n as [|n]; [discriminate|].
  destruct cs as [|c cs]; [discriminate|].
  cbn [firstn]. unfold stream_detection.
  destruct (header_of c); [auto|].
  destruct (startswith c PDF_SIG); cbn [andb]; [|auto].
  change (c :: firstn n cs) with (firstn (S n) (c :: cs)).
  destruct (existsb javascript_chunk (firstn (S n) (c :: cs))) eqn:E;
    [|discriminate].
  intros H.
  assert (E' : existsb javascript_chunk (c :: cs) = true).
  { apply existsb_exists in E. destruct E as (x & Hx & Hj).
    apply existsb_exists. exists x. split; [|exact Hj].
    rewrite <- (firstn_skipn (S n) (c :: cs)). apply in_or_app. left.
    exact Hx. }
  rewrite E'. exact H.
Qed.

Lemma not_pdf_signature (sig : bytes) (desc : string) :
  In (sig, desc) EXECUTABLE_HEADERS -> sig <> PDF_SIG ->
  In (sig, desc) executable_signatures.
Proof.
  intros Hin Hs. apply filter_In. split; [exact Hin|]. cbn [fst].
  destruct Hin as [E|[E|[E|[E|[E|[]]]]]]; inversion E; subst;
    try reflexivity.
  congruence.
Qed.

Lemma executable_signature_inv (sig : bytes) (desc : string) :
  In (sig, desc) executable_signatures ->
  In (sig, desc) EXECUTABLE_HEADERS /\ sig <> PDF_SIG.
Proof.
  intros H. split; [apply executable_signature_listed; exact H|].
  change executable_signatures
    with [ ([x4d; x5a], "Windows PE (MZ)");
           (x7f :: of_string "ELF", "Linux ELF");
           ([xfe; xed; xfa; xce], "Mach-O (macOS)");
           ([xfe; xed; xfa; xcf], "Mach-O (macOS 64-bit)") ] in H.
  destruct H as [E|[E|[E|[E|[]]]]]; inversion E; subst; discriminate.
Qed.

(** The detection in the chunks that a scan reads before a failing read
    or the end of the file. *)
Lemma stream_detection_header (data : bytes) (n : nat) (desc : string) :
  data <> [] -> header_of data = Some desc ->
  stream_detection (firstn (S n) (chunks data)) = Some (header_reason desc)
  /\ stream_detection (chunks data) = Some (header_reason desc).
Proof.
  intros Hd Hh. destruct (chunks_first data Hd) as [cs ->].
  cbn [firstn]. unfold stream_detection.
  rewrite header_of_first_chunk, Hh. split; reflexivity.
Qed.

(** What a detection inside the loop says about the file. *)
Lemma stream_detection_inv (data : bytes) (why : string) :
  stream_detection (chunks data) = Some why ->
  (exists desc,
      why = header_reason desc /\ header_of data = Some desc)
  \/ (why = javascript_reason
      /\ startswith data PDF_SIG = true
      /\ existsb javascript_chunk (chunks data) = true).
Proof.
  destruct data as [|b data]; [discriminate|].
  destruct (chunks_first (b :: data)) as [cs E]; [discriminate|].
  rewrite E. unfold stream_detection.
  rewrite header_of_first_chunk.
  destruct (header_of (b :: data)) as [desc|].
  - intros H. inversion H. left. exists desc. split; reflexivity.
  - rewrite startswith_firstn by (apply Nat.leb_le; reflexivity).
    destruct (startswith (b :: data) PDF_SIG); cbn [andb]; [|discriminate].
    destruct (existsb javascript_chunk _); [|discriminate].
    intros H. inversion H. right. repeat split.
Qed.

(** The reason of the closed form, case by case. *)
Lemma content_verdict_reason (p : string) (st_size : Z) (data : bytes) :
  (exists label,
      reason (content_verdict p st_size data)
      = Some (append "Known malware (MD5): " label))
  \/ (exists label,
        reason (content_verdict p st_size data)
        = Some (append "Known malware (SHA256): " label))
  \/ reason (content_verdict p st_size data)
     = Some "Suspicious content strings (potential ransomware or command injection)"
  \/ reason (content_verdict p st_size data)
     = Some "Potential shellcode pattern (NOP sled detected)"
  \/ (content_verdict p st_size data
      = Result false (Some "Scan completed: No threats detected")
               (basename p) st_size
               (Hashes (Some (MD5.oneshot data)) (Some (SHA256.oneshot data)))
               (content_entropy data)
      /\ lookup KNOWN_BAD_MD5 (MD5.oneshot data) = None
      /\ lookup KNOWN_BAD_SHA256 (SHA256.oneshot data) = None
      /\ existsb suspicious_chunk (chunks data) = false
      /\ existsb shellcode_chunk (chunks data) = false).
Proof.
  unfold content_verdict.
  destruct (lookup KNOWN_BAD_MD5 _) as [label|];
    [left; exists label; reflexivity|].
  destruct (lookup KNOWN_BAD_SHA256 _) as [label|];
    [right; left; exists label; reflexivity|].
  cbv zeta.
  destruct (existsb suspicious_chunk _); [right; right; left; reflexivity|].
  destruct (existsb shellcode_chunk _);
    [right; right; right; left; reflexivity|].
  right; right; right; right. repeat split.
Qed.

(** A detection in the chunks delivered is one in the chunks of the
    file. *)
Lemma stream_detection_delivered (data : bytes) (fault : io_fault)
    (why : string) :
  stream_detection (delivered data fault) = Some why ->
  stream_detection (chunks data) = Some why.
Proof.
  destruct fault as [|msg|n msg]; cbn [delivered]; try (intros H; exact H).
  apply stream_detection_firstn.
Qed.

(** The outcome of a scan is a detection inside the loop, the verdict on
    the content, the report of an exception, or the report of a failing
    [close] laid over a detection. *)
Lemma outcome_cases (p : string) (st_size : Z) (data : bytes)
    (fault : io_fault) (close : option string) :
  (exists why,
      close = None
      /\ stream_detection (chunks data) = Some why
      /\ outcome p st_size data fault close
         = detected why (sized p st_size))
  \/ (close = None
      /\ stream_detection (chunks data) = None
      /\ outcome p st_size data fault close
         = content_verdict p st_size data)
  \/ (exists msg,
        outcome p st_size data fault close = scan_error p st_size msg)
  \/ (exists why msg,
        close = Some msg
        /\ stream_detection (chunks data) = Some why
        /\ outcome p st_size data fault close
           = handled msg (detected why (sized p st_size))).
Proof.
  destruct fault as [|omsg|n fmsg] eqn:Ef;
    [|right; right; left; exists omsg; reflexivity|];
    rewrite <- Ef;
    (assert (E : outcome p st_size data fault close
                 = match stream_detection (delivered data fault) with
                   | Some why =>
                       match close with
                       | Some msg =>
                           handled msg (detected why (sized p st_size))
                       | None => detected why (sized p st_size)
                       end
                   | None =>
                       match close, read_error data fault with
                       | Some msg, _ => scan_error p st_size msg
                       | None, Some msg => scan_error p st_size msg
                       | None, None => content_verdict p st_size data
                       end
                   end) by (rewrite Ef; reflexivity));
    rewrite E; clear E Ef;
    (destruct (stream_detection (delivered data fault)) as [why|] eqn:D;
     [ apply stream_detection_delivered in D;
       destruct close as [msg|];
       [ right; right; right; exists why, msg; repeat split; exact D
       | left; exists why; repeat split; exact D ]
     | destruct close as [msg|];
       [ right; right; left; exists msg; reflexivity |];
       destruct (read_error data fault) as [msg|] eqn:R;
       [ right; right; left; exists msg; reflexivity |];
       rewrite (delivered_all data fault R) in D;
       right; left; repeat split; exact D ]).
Qed.

(** The result of a call, by the kind of thing that the path names. *)
Lemma is_infected_cases
    (format_float : float -> string) (fs : filesystem) (p : string) :
  (isfile fs p = false
   /\ is_infected format_float fs p
      = Returns (with_reason "File does not exist" (initial_result p)))
  \/ (exists data fault close,
        fs p = Regular 0 data fault close
        /\ is_infected format_float fs p
           = Returns (with_reason "File is empty" (initial_result p)))
  \/ (exists st_size data fault close,
        fs p = Regular st_size data fault close /\ st_size <> 0
        /\ is_infected format_float fs p
           = Returns (outcome p st_size data fault close)).
Proof.
  destruct (fs p) as [|sz|st data fault close] eqn:E.
  - left. assert (H : isfile fs p = false)
      by (unfold isfile; rewrite E; reflexivity).
    split; [exact H|]. unfold is_infected.
    rewrite try_block_missing by exact H. reflexivity.
  - left. assert (H : isfile fs p = false)
      by (unfold isfile; rewrite E; reflexivity).
    split; [exact H|]. unfold is_infected.
    rewrite try_block_missing by exact H. reflexivity.
  - destruct (Z.eq_dec st 0) as [->|Hs].
    + right. left. exists data, fault, close. split; [reflexivity|].
      unfold is_infected.
      rewrite (try_block_empty format_float fs p data fault close _ E).
      reflexivity.
    + right. right. exists st, data, fault, close.
      split; [reflexivity|]. split; [exact Hs|].
      apply is_infected_outcome; assumption.
Qed.

End DecisionFacts.
Import DecisionFacts.

(** ** File names and letter case *)

Module FieldFacts.

(** *** The file name *)

Lemma mentions_slash_cons (c : ascii) (s : string) :
  mentions "/" (String c s) = Ascii.eqb c "/" || mentions "/" s.
Proof.
  cbn [mentions begins]. rewrite andb_true_r, Ascii.eqb_sym. reflexivity.
Qed.

Lemma after_last_slash_none (p : string) :
  after_last_slash p = None <-> mentions "/" p = false.
Proof.
  induction p as [|c p IH].
  - split; reflexivity.
  - rewrite mentions_slash_cons. cbn [after_last_slash].
    destruct (after_last_slash p) as [t|].
    + split; [discriminate|]. intros H. apply orb_false_elim in H.
      destruct H as [_ H]. apply IH in H. discriminate.
    + destruct (Ascii.eqb c "/"); cbn [orb].
      * split; discriminate.
      * split; [intros _; apply IH; reflexivity | reflexivity].
Qed.

Lemma after_last_slash_some (p t : string) :
  after_last_slash p = Some t -> mentions "/" t = false.
Proof.
  revert t. induction p as [|c p IH]; intros t; [discriminate|].
  cbn [after_last_slash].
  destruct (after_last_slash p) as [u|] eqn:E.
  - intros H. inversion H; subst. apply IH. reflexivity.
  - destruct (Ascii.eqb c "/"); [|discriminate].
    intros H. inversion H; subst. apply after_last_slash_none. exact E.
Qed.

Lemma basename_no_slash (p : string) : mentions "/" (basename p) = false.
Proof.
  unfold basename. destruct (after_last_slash p) as [t|] eqn:E.
  - eapply after_last_slash_some. exact E.
  - apply after_last_slash_none. exact E.
Qed.

Lemma basename_join (d n : string) :
  mentions "/" n = false ->
  basename (append d (String "/" n)) = n.
Proof.
  intros H. apply after_last_slash_none in H. unfold basename.
  assert (E : after_last_slash (append d (String "/" n)) = Some n).
  { induction d as [|c d IH].
    - cbn [append after_last_slash]. rewrite H. reflexivity.
    - cbn [append after_last_slash]. rewrite IH. reflexivity. }
  rewrite E. reflexivity.
Qed.

Lemma outcome_filename_size (p : string) (st_size : Z) (data : bytes)
    (fault : io_fault) (close : option string) :
  filename (outcome p st_size data fault close) = basename p
  /\ size (outcome p st_size data fault close) = st_size.
Proof.
  destruct (outcome_cases p st_size data fault close)
    as [(why & _ & _ & ->)|[(_ & _ & ->)|[(msg & ->)|(why & msg & _ & _ & ->)]]].
  - split; reflexivity.
  - unfold content_verdict.
    destruct (lookup KNOWN_BAD_MD5 _); [split; reflexivity|].
    destruct (lookup KNOWN_BAD_SHA256 _); [split; reflexivity|].
    cbv zeta.
    destruct (existsb suspicious_chunk _); [split; reflexivity|].
    destruct (existsb shellcode_chunk _); split; reflexivity.
  - split; reflexivity.
  - split; reflexivity.
Qed.

(** *** Letter case *)

Lemma startswith_map (f : byte -> byte) (s : bytes) :
  forall c : bytes,
    startswith c s = true -> startswith (map f c) (map f s) = true.
Proof.
  induction s as [|a s IH]; intros c H; [destruct c; reflexivity|].
  destruct c as [|b c]; [discriminate|].
  apply startswith_cons in H. destruct H as [-> H].
  cbn [map startswith]. rewrite (Byte.byte_dec_lb eq_refl), IH by exact H.
  reflexivity.
Qed.

Lemma contains_map (f : byte -> byte) (s : bytes) :
  forall c : bytes,
    contains s c = true -> contains (map f s) (map f c) = true.
Proof.
  induction c as [|b c IH]; intros H.
  - cbn [contains] in H. rewrite orb_false_r in H.
    apply (startswith_map f) in H. cbn [map] in H.
    cbn [map contains]. rewrite H. reflexivity.
  - cbn [contains] in H. apply orb_prop in H. cbn [map contains].
    destruct H as [H|H].
    + apply (startswith_map f) in H. cbn [map] in H. rewrite H. reflexivity.
    + rewrite (IH H). apply orb_true_r.
Qed.

(** A chunk that holds a listed string in any spelling sets off the
    detector. *)
Lemma suspicious_any_case (chunk t : bytes) :
  In (lower t) suspicious_strings -> contains t chunk = true ->
  suspicious_chunk chunk = true.
Proof.
  intros Hin Hc. unfold suspicious_chunk. apply existsb_exists.
  exists (lower t). split; [exact Hin|]. apply contains_map. exact Hc.
Qed.

End FieldFacts.
Import FieldFacts.

(** ** The histogram and its entropy *)

Module FrequencyFacts.

(** *** The histogram of a file, bucket by bucket *)

Lemma nth_increment (a : list Z) :
  forall i j : nat,
    nth j (increment i a) 0
    = if (j =? i)%nat && (j <? length a)%nat
      then Int64.add (nth j a 0) 1 else nth j a 0.
Proof.
  induction a as [|c a IH]; intros i j.
  - destruct i, j; cbn [increment nth length];
      rewrite ?andb_false_r; reflexivity.
  - destruct i as [|i], j as [|j]; cbn [increment nth]; try reflexivity.
    rewrite IH. reflexivity.
Qed.

Lemma to_nat_inj (x y : byte) : Byte.to_nat x = Byte.to_nat y -> x = y.
Proof.
  intros H. pose proof (Byte.of_to_nat x) as Hx.
  rewrite H, Byte.of_to_nat in Hx. congruence.
Qed.

Lemma occurrences_cons (b0 b : byte) (data : bytes) :
  occurrences b0 (b :: data)
  = (if (Byte.to_nat b0 =? Byte.to_nat b)%nat then 1 else 0)
    + occurrences b0 data.
Proof.
  unfold occurrences. cbn [count_occ].
  destruct (Byte.byte_eq_dec b b0) as [->|Hne].
  - rewrite Nat.eqb_refl. lia.
  - destruct (Nat.eqb_spec (Byte.to_nat b0) (Byte.to_nat b)) as [E|_];
      [|lia].
    apply to_nat_inj in E. congruence.
Qed.

Lemma occurrences_nonneg (b : byte) (data : bytes) : 0 <= occurrences b data.
Proof. unfold occurrences. lia. Qed.

Lemma occurrences_bound (b : byte) (data : bytes) :
  occurrences b data <= Z.of_nat (length data).
Proof.
  unfold occurrences. pose proof (count_occ_bound Byte.byte_eq_dec b data).
  lia.
Qed.

(** Without overflow a bucket grows by the occurrences of its byte. *)
Lemma nth_count_bytes (b0 : byte) (data : bytes) :
  forall a : list Z,
    (Byte.to_nat b0 < length a)%nat ->
    0 <= nth (Byte.to_nat b0) a 0 ->
    nth (Byte.to_nat b0) a 0 + Z.of_nat (length data) < 2 ^ 63 ->
    nth (Byte.to_nat b0) (count_bytes data a) 0
    = nth (Byte.to_nat b0) a 0 + occurrences b0 data.
Proof.
  unfold count_bytes.
  induction data as [|b data IH]; intros a Hl Hnn Hb.
  - unfold occurrences. simpl. lia.
  - cbn [fold_left]. cbn [length] in Hb.
    pose proof (occurrences_nonneg b0 data) as Ho.
    rewrite IH.
    + rewrite nth_increment, occurrences_cons.
      apply Nat.ltb_lt in Hl. rewrite Hl, andb_true_r.
      destruct (Byte.to_nat b0 =? Byte.to_nat b)%nat; [|lia].
      unfold Int64.add. rewrite int64_wrap_small by lia. lia.
    + rewrite length_increment. exact Hl.
    + rewrite nth_increment. apply Nat.ltb_lt in Hl. rewrite Hl, andb_true_r.
      destruct (Byte.to_nat b0 =? Byte.to_nat b)%nat; [|lia].
      unfold Int64.add. rewrite int64_wrap_small by lia. lia.
    + rewrite nth_increment. apply Nat.ltb_lt in Hl. rewrite Hl, andb_true_r.
      destruct (Byte.to_nat b0 =? Byte.to_nat b)%nat; [|lia].
      unfold Int64.add. rewrite int64_wrap_small by lia. lia.
Qed.

Lemma all_bytes_to_nat : map Byte.to_nat all_bytes = seq 0 256.
Proof. vm_compute. reflexivity. Qed.

Lemma length_all_bytes : length all_bytes = 256%nat.
Proof. vm_compute. reflexivity. Qed.

Lemma nth_all_bytes (i : nat) :
  (i < 256)%nat -> Byte.to_nat (nth i all_bytes x00) = i.
Proof.
  intros Hi.
  rewrite <- (map_nth Byte.to_nat), all_bytes_to_nat.
  rewrite seq_nth by exact Hi. reflexivity.
Qed.

Lemma nth_zeros (i : nat) : nth i zeros 0 = 0.
Proof.
  unfold zeros. destruct (Nat.lt_ge_cases i 256) as [H|H].
  - apply nth_repeat_lt. exact H.
  - apply nth_overflow. rewrite repeat_length. exact H.
Qed.

(** The histogram of [data]: each bucket counts its byte. *)
Lemma count_bytes_occurrences (data : bytes) :
  Z.of_nat (length data) < 2 ^ 63 ->
  count_bytes data zeros = map (fun b => occurrences b data) all_bytes.
Proof.
  intros Hb.
  apply (nth_ext _ _ 0 (occurrences x00 data)).
  - rewrite length_count_bytes, length_map, length_all_bytes.
    apply repeat_length.
  - intros i Hi.
    rewrite length_count_bytes in Hi. unfold zeros in Hi.
    rewrite repeat_length in Hi.
    rewrite (map_nth (fun b => occurrences b data)).
    pose proof (nth_all_bytes i Hi) as E.
    rewrite <- E at 1.
    rewrite nth_count_bytes.
    + rewrite nth_zeros. lia.
    + rewrite E. unfold zeros. rewrite repeat_length. exact Hi.
    + rewrite nth_zeros. lia.
    + rewrite nth_zeros. lia.
Qed.

(** *** The entropy of the content *)

Section ContentEntropy.
Import Information.
Local Open Scope R_scope.

Lemma eta_nonneg (x : R) : 0 <= x <= 1 -> 0 <= eta x.
Proof.
  intros [H0 H1]. unfold eta.
  destruct (Rlt_dec 0 x) as [Hpos|_]; [|lra].
  pose proof (ln_le_pred x Hpos) as H.
  assert (Hl : ln x <= 0) by lra.
  replace (- x * ln x) with (x * - ln x) by lra.
  apply Rmult_le_pos; lra.
Qed.

Lemma Rsum_nonneg (l : list R) : Forall (fun x => 0 <= x) l -> 0 <= Rsum l.
Proof. induction 1 as [|x l Hx _ IH]; simpl; lra. Qed.

Lemma eta_0 : eta 0 = 0.
Proof. unfold eta. destruct (Rlt_dec 0 0); lra. Qed.

Lemma eta_1 : eta 1 = 0.
Proof. unfold eta. destruct (Rlt_dec 0 1); [rewrite ln_1; lra | lra]. Qed.

Lemma frequency_range (b : byte) (data : bytes) :
  0 <= IZR (occurrences b data) / IZR (Z.of_nat (length data)) <= 1.
Proof.
  pose proof (occurrences_nonneg b data) as H0.
  pose proof (occurrences_bound b data) as H1.
  apply IZR_le in H0, H1.
  destruct (Z.eq_dec (Z.of_nat (length data)) 0) as [E|E].
  - rewrite E in *. assert (IZR (occurrences b data) = 0) by lra.
    rewrite H. unfold Rdiv. rewrite Rmult_0_l. lra.
  - assert (Hn : 0 < IZR (Z.of_nat (length data))).
    { apply IZR_lt. lia. }
    split.
    + apply Rmult_le_pos; [exact H0|]. apply Rlt_le, Rinv_0_lt_compat.
      exact Hn.
    + apply (Rmult_le_reg_r (IZR (Z.of_nat (length data)))); [exact Hn|].
      unfold Rdiv. rewrite Rmult_assoc, Rinv_l by lra. lra.
Qed.

Lemma byte_entropy_nonneg (data : bytes) : 0 <= byte_entropy data.
Proof.
  unfold byte_entropy. apply Rsum_nonneg, Forall_map, Forall_forall.
  intros b _. apply eta_nonneg, frequency_range.
Qed.

Lemma histogram_of_content (data : bytes) :
  (Z.of_nat (length data) < 2 ^ 63)%Z ->
  histogram_of (Z.of_nat (length data)) (count_bytes data zeros).
Proof.
  intros Hb.
  apply (count_bytes_histogram data 0 zeros zeros_histogram). lia.
Qed.

Lemma shannon_nats_content (data : bytes) :
  (Z.of_nat (length data) < 2 ^ 63)%Z ->
  shannon_nats (count_bytes data zeros) = byte_entropy data.
Proof.
  intros Hb. destruct (histogram_of_content data Hb) as (_ & _ & Hz).
  unfold shannon_nats, byte_entropy. rewrite Hz.
  rewrite (count_bytes_occurrences data Hb), map_map. reflexivity.
Qed.

(** The float that the scan computes is the Shannon entropy of the byte
    values, in nats. *)
Lemma content_entropy_shannon (data : bytes) :
  data <> [] -> (Z.of_nat (length data) < 2 ^ 63)%Z ->
  content_entropy data = Fin (byte_entropy data).
Proof.
  intros Hd Hb. destruct (histogram_of_content data Hb) as (Hl & Hnn & Hz).
  pose proof (length_positive data Hd) as Hpos.
  unfold content_entropy. cbv zeta.
  rewrite (int64_sum_histogram _ _ (histogram_of_content data Hb) Hb).
  rewrite <- Hz.
  rewrite entropy_of_counts by (try exact Hnn; lia).
  rewrite (shannon_nats_content data Hb). reflexivity.
Qed.

Lemma byte_entropy_bound (data : bytes) :
  (Z.of_nat (length data) < 2 ^ 63)%Z -> byte_entropy data <= ln 256.
Proof.
  intros Hb. destruct data as [|b data].
  - unfold byte_entropy. rewrite Rsum_zero; [apply ln_256_nonneg|].
    apply Forall_map, Forall_forall. intros b _.
    unfold occurrences. cbn [count_occ length]. unfold Rdiv.
    rewrite Rmult_0_l. apply eta_0.
  - destruct (histogram_of_content (b :: data) Hb) as (Hl & Hnn & Hz).
    rewrite <- (shannon_nats_content _ Hb), <- INR_256, <- Hl.
    apply shannon_nats_bound; [exact Hnn | |].
    + rewrite Hz. cbn [length]. lia.
    + rewrite Hl. apply Nat.ltb_lt. reflexivity.
Qed.

Lemma byte_entropy_repeat (b : byte) (n : nat) :
  byte_entropy (repeat b n) = 0.
Proof.
  unfold byte_entropy. apply Rsum_zero, Forall_map, Forall_forall.
  intros b' _. unfold occurrences. rewrite repeat_length.
  destruct (Byte.byte_eq_dec b' b) as [->|Hne].
  - rewrite count_occ_repeat_eq by reflexivity.
    destruct n as [|n].
    + unfold Rdiv. cbn [Z.of_nat]. rewrite Rmult_0_l. apply eta_0.
    + replace (IZR (Z.of_nat (S n)) / IZR (Z.of_nat (S n))) with 1.
      * apply eta_1.
      * assert (0 < IZR (Z.of_nat (S n))) by (apply IZR_lt; lia).
        field. lra.
  - rewrite count_occ_repeat_neq by exact Hne.
    unfold Rdiv. cbn [Z.of_nat]. rewrite Rmult_0_l. apply eta_0.
Qed.

End ContentEntropy.

(** With no byte read the histogram is all zeros and the float is NaN. *)
Lemma content_entropy_nothing : content_entropy [] = NaN.
Proof. exact entropy_of_nothing. Qed.

(** The entropy field of the closed form. *)
Lemma outcome_entropy (p : string) (st_size : Z) (data : bytes)
    (fault : io_fault) (close : option string) :
  (entropy (outcome p st_size data fault close) = Fin 0
   \/ entropy (outcome p st_size data fault close) = content_entropy data)
  /\ (hashes (outcome p st_size data fault close) <> Hashes None None ->
      lookup KNOWN_BAD_MD5 (MD5.oneshot data) = None ->
      lookup KNOWN_BAD_SHA256 (SHA256.oneshot data) = None ->
      entropy (outcome p st_size data fault close) = content_entropy data).
Proof.
  destruct (outcome_cases p st_size data fault close)
    as [(why & _ & _ & ->)|[(_ & _ & ->)|[(msg & ->)|(why & msg & _ & _ & ->)]]];
    [|
     |split; [left; reflexivity|]; intros H; exfalso; apply H; reflexivity
     |split; [left; reflexivity|]; intros H; exfalso; apply H; reflexivity].
  - split; [left; reflexivity|]. intros H. exfalso. apply H. reflexivity.
  - unfold content_verdict.
    destruct (lookup KNOWN_BAD_MD5 _);
      [split; [left; reflexivity | discriminate]|].
    destruct (lookup KNOWN_BAD_SHA256 _);
      [split; [left; reflexivity | discriminate]|].
    cbv zeta.
    destruct (existsb suspicious_chunk _);
      [split; [right; reflexivity | reflexivity]|].
    destruct (existsb shellcode_chunk _);
      split; try (right; reflexivity); reflexivity.
Qed.

End FrequencyFacts.
Import FrequencyFacts.

(** ** The text that the script prints *)

Module ScriptFacts.

Lemma control_free_append (a b : string) :
  control_free (append a b) = control_free a && control_free b.
Proof.
  induction a as [|c a IH]; [reflexivity|].
  cbn [append control_free]. rewrite IH. apply andb_assoc.
Qed.

Lemma control_free_escape_char (ensure_ascii : bool) (c : ascii) :
  control_free (escape_char ensure_ascii c) = true.
Proof.
  destruct ensure_ascii;
    destruct c as [[] [] [] [] [] [] [] []]; vm_compute; reflexivity.
Qed.

Lemma control_free_escape (ensure_ascii : bool) (s : string) :
  control_free (escape ensure_ascii s) = true.
Proof.
  induction s as [|c s IH]; [reflexivity|].
  cbn [escape]. rewrite control_free_append, control_free_escape_char, IH.
  reflexivity.
Qed.

Lemma control_free_encode_string (ensure_ascii : bool) (s : string) :
  control_free (encode_string ensure_ascii s) = true.
Proof.
  unfold encode_string. cbn [control_free].
  rewrite control_free_append, control_free_escape. reflexivity.
Qed.

Lemma control_free_uint (d : Decimal.uint) :
  control_free (NilEmpty.string_of_uint d) = true.
Proof.
  induction d; cbn [NilEmpty.string_of_uint control_free];
    try rewrite IHd; reflexivity.
Qed.

Lemma control_free_encode_int (z : Z) : control_free (encode_int z) = true.
Proof.
  unfold encode_int, NilZero.string_of_int, NilZero.string_of_uint.
  destruct (Z.to_int z) as [d|d]; destruct d; cbn [control_free];
    try rewrite control_free_uint; reflexivity.
Qed.

Lemma control_free_encode_float (float_repr : R -> string) (x : float) :
  (forall r : R, control_free (float_repr r) = true) ->
  control_free (encode_float float_repr x) = true.
Proof. intros H. destruct x; [apply H | | |]; reflexivity. Qed.

Lemma control_free_optional
    (float_repr : R -> string) (ensure_ascii : bool) (s : option string) :
  control_free (dumps float_repr ensure_ascii (optional s)) = true.
Proof.
  destruct s as [t|]; [|reflexivity].
  apply control_free_encode_string.
Qed.

(** The serialisation of a result has no control character. *)
Lemma control_free_result
    (float_repr : R -> string) (ensure_ascii : bool) (r : result) :
  (forall x : R, control_free (float_repr x) = true) ->
  control_free (dumps float_repr ensure_ascii (to_json r)) = true.
Proof.
  intros H. unfold to_json. cbn [dumps].
  cbn [control_free].
  repeat (rewrite control_free_append
          || rewrite control_free_encode_string
          || rewrite control_free_optional
          || rewrite control_free_encode_int
          || rewrite (control_free_encode_float float_repr _ H)
          || cbn [control_free andb]).
  destruct (infected r); reflexivity.
Qed.

Lemma print_cases (encodable : string -> bool) (text : string) (after : Z) :
  (encodable text = true
   /\ print encodable text after = Run (append text newline) after)
  \/ (encodable text = false
      /\ print encodable text after = Run EmptyString 1).
Proof.
  unfold print. destruct (encodable text); [left | right]; split; reflexivity.
Qed.

End ScriptFacts.
Import ScriptFacts.

(** ** The log of a scan *)

Import Journal.

Module JournalFacts.

Ltac lrun :=
  cbv [Logged.bind Logged.lift Logged.emit Logged.emit_reason
       bind assign ret return_result raise read_result_field fst snd].

Lemma logged_check_headers_find (p : string)
    (table : list (bytes * string)) (chunk : bytes) :
  forall (pdf : bool) (r : result) (log : list Logged.entry),
    Logged.check_headers p table chunk pdf (r, log)
    = match find (fun e => negb (bytes_eqb (fst e) PDF_SIG)
                           && startswith chunk (fst e)) table with
      | Some e =>
          (Returned,
           (detected (header_reason (snd e)) r,
            log ++ critical (append "Executable header detected: "
                               (append (snd e) (append " in " p)))))
      | None =>
          (Normal
             (pdf || existsb (fun e => startswith chunk (fst e)
                                       && bytes_eqb (fst e) PDF_SIG) table),
           (r, log))
      end.
Proof.
  induction table as [|[sig desc] table IH]; intros pdf r log.
  - simpl. rewrite orb_false_r. reflexivity.
  - cbn [Logged.check_headers find existsb fst snd].
    destruct (startswith chunk sig); cbn [andb orb].
    + destruct (bytes_eqb sig PDF_SIG); cbn [negb andb orb].
      * rewrite IH. destruct (find _ table); [reflexivity|].
        rewrite orb_true_r. reflexivity.
      * reflexivity.
    + rewrite andb_false_r. rewrite IH. reflexivity.
Qed.

Lemma logged_check_headers_first (p : string) (chunk : bytes) (pdf : bool)
    (r : result) (log : list Logged.entry) :
  Logged.check_headers p EXECUTABLE_HEADERS chunk pdf (r, log)
  = match header_of chunk with
    | Some desc =>
        (Returned,
         (detected (header_reason desc) r,
          log ++ critical (append "Executable header detected: "
                             (append desc (append " in " p)))))
    | None => (Normal (pdf || startswith chunk PDF_SIG), (r, log))
    end.
Proof.
  rewrite logged_check_headers_find, pdf_entry.
  unfold header_of, executable_signatures. rewrite find_filter.
  destruct (find _ EXECUTABLE_HEADERS); reflexivity.
Qed.

Lemma logged_loop_body_checked (p : string) (c : bytes) (l : locals)
    (r : result) (log : list Logged.entry) :
  header_checked l = true ->
  Logged.loop_body p c l (r, log)
  = if pdf_checked l && javascript_chunk c
    then (Returned,
          (detected javascript_reason r,
           log ++ critical (append "Embedded JavaScript detected in PDF: " p)))
    else (Normal (absorbed (pdf_checked l) l c), (r, log)).
Proof.
  intros H. unfold Logged.loop_body. rewrite H. cbn [negb]. lrun.
  fold (javascript_chunk c).
  destruct (pdf_checked l && javascript_chunk c); reflexivity.
Qed.

Lemma logged_loop_body_first (p : string) (c : bytes) (l : locals)
    (r : result) (log : list Logged.entry) :
  header_checked l = false ->
  Logged.loop_body p c l (r, log)
  = match header_of c with
    | Some desc =>
        (Returned,
         (detected (header_reason desc) r,
          log ++ critical (append "Executable header detected: "
                             (append desc (append " in " p)))))
    | None =>
        let pdf := pdf_checked l || startswith c PDF_SIG in
        if pdf && javascript_chunk c
        then (Returned,
              (detected javascript_reason r,
               log ++ critical
                        (append "Embedded JavaScript detected in PDF: " p)))
        else (Normal (absorbed pdf l c), (r, log))
    end.
Proof.
  intros H. unfold Logged.loop_body. rewrite H. cbn [negb].
  unfold Logged.bind at 1. unfold Logged.bind at 1.
  rewrite logged_check_headers_first.
  destruct (header_of c); [reflexivity|].
  lrun. cbv zeta. fold (javascript_chunk c).
  destruct ((pdf_checked l || startswith c PDF_SIG) && javascript_chunk c);
    reflexivity.
Qed.

Lemma logged_for_chunks_first (p : string) (chunk : bytes)
    (f : list read_result) (l : locals) (s : result * list Logged.entry) :
  chunk <> [] ->
  Logged.for_chunks p (Data chunk :: f) l s
  = Logged.bind (Logged.loop_body p chunk l) (Logged.for_chunks p f) s.
Proof. intros H. destruct chunk; [congruence | reflexivity]. Qed.

Lemma logged_for_chunks_checked (p : string) (cs : list bytes)
    (rest : list read_result) :
  Forall (fun c => c <> []) cs ->
  forall (l : locals) (r : result) (log : list Logged.entry),
    header_checked l = true ->
    Logged.for_chunks p (map Data cs ++ rest) l (r, log)
    = if pdf_checked l && existsb javascript_chunk cs
      then (Returned,
            (detected javascript_reason r,
             log ++ critical
                      (append "Embedded JavaScript detected in PDF: " p)))
      else Logged.for_chunks p rest
             (fold_left (absorbed (pdf_checked l)) cs l) (r, log).
Proof.
  induction 1 as [|c cs Hc Hcs IH]; intros l r log Hl.
  - simpl. rewrite andb_false_r. reflexivity.
  - cbn [map app]. rewrite (logged_for_chunks_first _ _ _ _ _ Hc).
    unfold Logged.bind. rewrite (logged_loop_body_checked _ _ _ _ _ Hl).
    cbn [existsb fold_left].
    destruct (pdf_checked l) eqn:Hp; cbn [andb].
    + destruct (javascript_chunk c); [reflexivity|].
      rewrite IH by reflexivity. reflexivity.
    + rewrite IH by reflexivity. reflexivity.
Qed.

Lemma logged_for_chunks_stream (p : string) (cs : list bytes)
    (rest : list read_result) (r : result) (log : list Logged.entry) :
  Forall (fun c => c <> []) cs ->
  Logged.for_chunks p (map Data cs ++ rest) initial_locals (r, log)
  = match stream_detection cs with
    | Some why => (Returned, (detected why r, log ++ stream_log p cs))
    | None => Logged.for_chunks p rest (streamed cs) (r, log)
    end.
Proof.
  intros H. destruct H as [|c cs Hc Hcs]; [reflexivity|].
  cbn [map app]. rewrite (logged_for_chunks_first _ _ _ _ _ Hc).
  unfold Logged.bind. rewrite logged_loop_body_first by reflexivity.
  unfold stream_detection, stream_log, streamed.
  destruct (header_of c); [reflexivity|].
  cbn [pdf_checked initial_locals orb existsb fold_left]. cbv zeta.
  destruct (startswith c PDF_SIG) eqn:Hp; cbn [andb].
  - destruct (javascript_chunk c); cbn [orb]; [reflexivity|].
    rewrite (logged_for_chunks_checked p cs rest Hcs) by reflexivity.
    cbn [pdf_checked absorbed andb].
    destruct (existsb javascript_chunk cs); reflexivity.
  - rewrite (logged_for_chunks_checked p cs rest Hcs) by reflexivity.
    reflexivity.
Qed.

Section Formatting.

Variable format_float : float -> string.

(** After a complete stream the statements that follow leave the verdict
    on the content and log what the verdict calls for. *)
Lemma logged_post_stream (p : string) (st_size : Z) (data : bytes)
    (l : locals) (log : list Logged.entry) :
  fed (chunks data) initial_locals l ->
  flagged (chunks data) initial_locals l ->
  Logged.post_stream format_float p l (sized p st_size, log)
  = (Returned, (content_verdict p st_size data, log ++ content_log p data)).
Proof.
  intros Hfed (Hs & Hn).
  cbn [initial_locals suspicious_content shellcode_detected] in Hs, Hn.
  rewrite orb_false_r in Hs, Hn.
  destruct (file_entropy_below _ l Hfed) as [Hgt _].
  unfold file_entropy in Hgt.
  unfold Logged.post_stream, content_verdict, content_log, digests,
    content_entropy, sized, initial_result.
  rewrite <- (md5_streamed data l Hfed), <- (sha256_streamed data l Hfed).
  rewrite <- (fed_counts data l Hfed).
  lrun.
  cbv [with_md5 with_sha256 with_size hashes md5 sha256 option_map
       infected reason filename size entropy].
  destruct (lookup KNOWN_BAD_MD5 _); [reflexivity|].
  destruct (lookup KNOWN_BAD_SHA256 _); [reflexivity|].
  rewrite Hgt, Hs, Hn.
  destruct (existsb suspicious_chunk _); [reflexivity|].
  destruct (existsb shellcode_chunk _); [reflexivity|].
  rewrite app_nil_r. reflexivity.
Qed.

(** The loop over an open file, with what it logs. *)
Lemma logged_for_chunks_outcome (p : string) (data : bytes)
    (fault : io_fault) (r : result) (log : list Logged.entry) :
  opens fault ->
  Logged.for_chunks p (reads data fault) initial_locals (r, log)
  = match stream_detection (delivered data fault) with
    | Some why =>
        (Returned,
         (detected why r, log ++ stream_log p (delivered data fault)))
    | None =>
        match read_error data fault with
        | Some msg => (Raised msg, (r, log))
        | None => (Normal (streamed (chunks data)), (r, log))
        end
    end.
Proof.
  intros Ho. rewrite (reads_delivered data fault Ho).
  rewrite logged_for_chunks_stream by apply delivered_nonempty.
  destruct (stream_detection (delivered data fault)); [reflexivity|].
  destruct (read_error data fault) eqn:E; [reflexivity|].
  rewrite (delivered_all data fault E). reflexivity.
Qed.

Lemma logged_try_block_stream (fs : filesystem) (p : string) (st_size : Z)
    (data : bytes) (fault : io_fault) (close : option string) :
  fs p = Regular st_size data fault close -> st_size <> 0 -> opens fault ->
  Logged.try_block format_float fs p (initial_result p, [])
  = Logged.bind
      (Logged.with_closing (FileObject (reads data fault) close)
         (Logged.for_chunks p (reads data fault) initial_locals))
      (Logged.post_stream format_float p) (sized p st_size, []).
Proof.
  intros H Hs Ho. unfold Logged.try_block.
  rewrite (isfile_regular _ _ _ _ _ _ H). unfold getsize, open_rb. rewrite H.
  cbv [negb]. unfold Logged.bind at 1. unfold Logged.lift at 1.
  unfold ret at 1. cbn [fst snd].
  apply Z.eqb_neq in Hs. rewrite Hs.
  destruct fault; [reflexivity | contradiction | reflexivity].
Qed.

(** The logged scan returns what the scan returns, and logs the journal
    of the call. *)
Lemma logged_is_infected (fs : filesystem) (p : string) :
  Logged.is_infected format_float fs p
  = (is_infected format_float fs p, journal fs p).
Proof.
  unfold Logged.is_infected, journal.
  destruct (fs p) as [|sz|st data fault close] eqn:E.
  - assert (H : isfile fs p = false)
      by (unfold isfile; rewrite E; reflexivity).
    unfold is_infected. rewrite try_block_missing by exact H.
    unfold Logged.try_block. rewrite H. reflexivity.
  - assert (H : isfile fs p = false)
      by (unfold isfile; rewrite E; reflexivity).
    unfold is_infected. rewrite try_block_missing by exact H.
    unfold Logged.try_block. rewrite H. reflexivity.
  - destruct (Z.eq_dec st 0) as [->|Hs].
    { unfold is_infected.
      rewrite (try_block_empty format_float fs p data fault close _ E).
      unfold Logged.try_block. rewrite (isfile_regular _ _ _ _ _ _ E).
      unfold getsize. rewrite E. reflexivity. }
    rewrite (is_infected_outcome format_float fs p st data fault close E Hs).
    rewrite (proj2 (Z.eqb_neq st 0) Hs).
    assert (Ho : (exists msg, fault = OpenFails msg) \/ opens fault).
    { destruct fault; [right; exact I | left; eauto | right; exact I]. }
    destruct Ho as [[msg ->]|Ho].
    { unfold Logged.try_block. rewrite (isfile_regular _ _ _ _ _ _ E).
      unfold getsize, open_rb. rewrite E.
      cbv [negb]. unfold Logged.bind at 1. unfold Logged.lift at 1.
      unfold ret at 1. cbn [fst snd].
      rewrite (proj2 (Z.eqb_neq st 0) Hs). reflexivity. }
    rewrite (logged_try_block_stream fs p st data fault close E Hs Ho).
    unfold Logged.bind, Logged.with_closing. cbn [close_error].
    rewrite (logged_for_chunks_outcome p data fault _ _ Ho).
    assert (Eo : outcome p st data fault close
                 = match stream_detection (delivered data fault) with
                   | Some why =>
                       match close with
                       | Some msg => handled msg (detected why (sized p st))
                       | None => detected why (sized p st)
                       end
                   | None =>
                       match close, read_error data fault with
                       | Some msg, _ => scan_error p st msg
                       | None, Some msg => scan_error p st msg
                       | None, None => content_verdict p st data
                       end
                   end).
    { destruct fault; [reflexivity | contradiction | reflexivity]. }
    assert (El : outcome_log p data fault close
                 = match stream_detection (delivered data fault) with
                   | Some _ =>
                       stream_log p (delivered data fault)
                         ++ match close with
                            | Some msg => error_log p msg
                            | None => []
                            end
                   | None =>
                       match close, read_error data fault with
                       | Some msg, _ => error_log p msg
                       | None, Some msg => error_log p msg
                       | None, None => content_log p data
                       end
                   end).
    { destruct fault; [reflexivity | contradiction | reflexivity]. }
    rewrite Eo, El.
    destruct (stream_detection (delivered data fault)) as [why|] eqn:D.
    + destruct close; [reflexivity|]. rewrite app_nil_r. reflexivity.
    + destruct (read_error data fault) as [msg|] eqn:R.
      * destruct close; reflexivity.
      * destruct close; [reflexivity|]. cbn [snd].
        rewrite (delivered_all data fault R) in D.
        destruct (streamed_fed (chunks data) (chunks_nonempty data) D)
          as [Hfed Hflag].
        rewrite (logged_post_stream p st data _ [] Hfed Hflag).
        reflexivity.
Qed.

End Formatting.

End JournalFacts.

(** ** The level of a record *)

Module LevelFacts.
Import JournalFacts.

Lemma begins_append (p s : string) : begins p (append p s) = true.
Proof.
  induction p as [|c p IH]; [reflexivity|].
  cbn [append begins]. rewrite Ascii.eqb_refl, IH. reflexivity.
Qed.

Lemma mentions_begins (p s : string) : begins p s = true -> mentions p s = true.
Proof. intros H. destruct s; cbn [mentions]; rewrite H; reflexivity. Qed.

Lemma mentions_append (p a s : string) :
  mentions p s = true -> mentions p (append a s) = true.
Proof.
  intros H. induction a as [|c a IH]; [exact H|].
  cbn [append mentions]. rewrite IH. apply orb_true_r.
Qed.

(** A message that holds the path mentions it. *)
Lemma mentions_path (p a b : string) :
  mentions p (append a (append p b)) = true.
Proof. apply mentions_append, mentions_begins, begins_append. Qed.

Lemma mentions_path_last (p a : string) : mentions p (append a p) = true.
Proof.
  apply mentions_append, mentions_begins.
  induction p as [|c p IH]; [reflexivity|].
  cbn [begins]. rewrite Ascii.eqb_refl, IH. reflexivity.
Qed.

(** What the loop logs when it returns. *)
Lemma stream_log_cases (p : string) (cs : list bytes) (why : string) :
  stream_detection cs = Some why ->
  exists msg,
    stream_log p cs = [Logged.Entry Logged.CRITICAL msg]
    /\ mentions p msg = true
    /\ (names Signature why || names EmbeddedScript why = true)
    /\ String.eqb why "Scan completed: No threats detected" = false
    /\ begins "Scan error: " why = false.
Proof.
  destruct cs as [|c cs]; [discriminate|].
  unfold stream_detection, stream_log.
  destruct (header_of c) as [desc|].
  - intros H. inversion H. eexists. split; [reflexivity|].
    split; [|repeat split; reflexivity].
    apply mentions_append.
    apply mentions_append, mentions_path_last.
  - destruct (startswith c PDF_SIG && existsb javascript_chunk (c :: cs));
      [|discriminate].
    intros H. inversion H. eexists. split; [reflexivity|].
    split; [|repeat split; reflexivity].
    apply mentions_path_last.
Qed.

(** The level and the log of a detection inside the loop. *)
Lemma stream_level (p : string) (st_size : Z) (cs : list bytes)
    (why : string) :
  stream_detection cs = Some why ->
  level_of (detected why (sized p st_size)) = Some Logged.CRITICAL
  /\ error_after_detection (detected why (sized p st_size)) = false
  /\ exists msg,
       stream_log p cs = [Logged.Entry Logged.CRITICAL msg]
       /\ mentions p msg = true.
Proof.
  intros H.
  destruct (stream_log_cases p cs why H) as (msg & Hl & Hm & Hn & Hc & Hb).
  split; [|split; [|exists msg; split; assumption]].
  - unfold level_of. cbn [reason detected sized with_reason with_infected
                            with_size initial_result infected].
    rewrite Hc, Hb. apply orb_prop in Hn. destruct Hn as [-> | ->];
      [reflexivity | rewrite orb_true_r; reflexivity].
  - unfold error_after_detection.
    cbn [reason detected sized with_reason with_infected
         with_size initial_result infected].
    rewrite Hb. reflexivity.
Qed.

(** The level and the log of a verdict on the content. *)
Lemma content_level (p : string) (st_size : Z) (data : bytes) :
  error_after_detection (content_verdict p st_size data) = false
  /\ match level_of (content_verdict p st_size data) with
     | None =>
         reason (content_verdict p st_size data)
         = Some "Scan completed: No threats detected"
         /\ content_log p data = []
     | Some lv =>
         exists msg,
           content_log p data = [Logged.Entry lv msg]
           /\ mentions p msg = true
     end.
Proof.
  unfold content_verdict, content_log.
  destruct (lookup KNOWN_BAD_MD5 _) as [label|].
  { split; [reflexivity|]. eexists. split; [reflexivity|].
    apply mentions_append, mentions_append, mentions_path_last. }
  destruct (lookup KNOWN_BAD_SHA256 _) as [label|].
  { split; [reflexivity|]. eexists. split; [reflexivity|].
    apply mentions_append, mentions_append, mentions_path_last. }
  cbv zeta.
  destruct (existsb suspicious_chunk _).
  { split; [reflexivity|]. eexists. split; [reflexivity|].
    apply mentions_path_last. }
  destruct (existsb shellcode_chunk _).
  { split; [reflexivity|]. eexists. split; [reflexivity|].
    apply mentions_path_last. }
  split; [reflexivity|]. split; reflexivity.
Qed.

Lemma error_level (p : string) (st_size : Z) (msg : string) :
  level_of (scan_error p st_size msg) = Some Logged.ERROR
  /\ error_after_detection (scan_error p st_size msg) = false
  /\ mentions p (append "Unexpected error scanning "
                   (append p (append ": " msg))) = true.
Proof. split; [reflexivity | split; [reflexivity | apply mentions_path]]. Qed.

(** A failing [close] after a detection: the level is the one of the
    error, and the result still reports an infection. *)
Lemma handled_level (msg : string) (r : result) :
  level_of (handled msg r) = Some Logged.ERROR
  /\ error_after_detection (handled msg r) = infected r.
Proof.
  destruct r as [i w f s h e]. split; [reflexivity|].
  unfold error_after_detection. cbn. apply andb_true_r.
Qed.

(** The records of the scan of a regular file of non-zero size: none for
    a clean report; otherwise one, of the level of the result, except that
    a failing [close] after a detection inside the loop adds the record of
    the error to the one of the detection. *)
Lemma outcome_level (p : string) (st_size : Z) (data : bytes)
    (fault : io_fault) (close : option string) :
  match level_of (outcome p st_size data fault close) with
  | None =>
      reason (outcome p st_size data fault close)
      = Some "Scan completed: No threats detected"
      /\ outcome_log p data fault close = []
  | Some lv =>
      exists msg : string,
        mentions p msg = true
        /\ if error_after_detection (outcome p st_size data fault close)
           then exists first : string,
                  outcome_log p data fault close
                  = [Logged.Entry Logged.CRITICAL first; Logged.Entry lv msg]
                  /\ mentions p first = true
           else outcome_log p data fault close = [Logged.Entry lv msg]
  end.
Proof.
  assert (Er : forall msg,
             match level_of (scan_error p st_size msg) with
             | None =>
                 reason (scan_error p st_size msg)
                 = Some "Scan completed: No threats detected"
                 /\ error_log p msg = []
             | Some lv =>
                 exists m,
                   mentions p m = true
                   /\ if error_after_detection (scan_error p st_size msg)
                      then exists first : string,
                             error_log p msg
                             = [Logged.Entry Logged.CRITICAL first;
                                Logged.Entry lv m]
                             /\ mentions p first = true
                      else error_log p msg = [Logged.Entry lv m]
             end).
  { intros msg. destruct (error_level p st_size msg) as (-> & -> & H').
    eexists. split; [exact H' | reflexivity]. }
  destruct fault as [|omsg|n fmsg] eqn:Ef; [|apply Er|]; rewrite <- Ef;
    (assert (Eo : outcome p st_size data fault close
                  = match stream_detection (delivered data fault) with
                    | Some why =>
                        match close with
                        | Some msg =>
                            handled msg (detected why (sized p st_size))
                        | None => detected why (sized p st_size)
                        end
                    | None =>
                        match close, read_error data fault with
                        | Some msg, _ => scan_error p st_size msg
                        | None, Some msg => scan_error p st_size msg
                        | None, None => content_verdict p st_size data
                        end
                    end) by (rewrite Ef; reflexivity));
    (assert (El : outcome_log p data fault close
                  = match stream_detection (delivered data fault) with
                    | Some _ =>
                        stream_log p (delivered data fault)
                          ++ match close with
                             | Some msg => error_log p msg
                             | None => []
                             end
                    | None =>
                        match close, read_error data fault with
                        | Some msg, _ => error_log p msg
                        | None, Some msg => error_log p msg
                        | None, None => content_log p data
                        end
                    end) by (rewrite Ef; reflexivity));
    rewrite Eo, El; clear Eo El Ef;
    (destruct (stream_detection (delivered data fault)) as [why|] eqn:D;
     [ destruct (stream_level p st_size _ why D)
         as (Hlv & Hea & first & Hlog & Hm);
       destruct close as [msg|];
       [ destruct (handled_level msg (detected why (sized p st_size)))
           as [-> ->];
         cbn [detected with_infected with_reason infected];
         eexists; split; [apply mentions_path|];
         exists first; rewrite Hlog; split; [reflexivity | exact Hm]
       | rewrite Hlv, Hea, Hlog; exists first; split; [exact Hm | reflexivity] ]
     | destruct close as [msg|]; [apply Er|];
       destruct (read_error data fault) as [msg|]; [apply Er|];
       destruct (content_level p st_size data) as [-> Hc];
       destruct (level_of (content_verdict p st_size data)) as [lv|];
       [ destruct Hc as (m & Hlog & Hm); exists m; split; assumption
       | exact Hc ] ]).
Qed.

End LevelFacts.
Import JournalFacts LevelFacts.

(** ** File names and small files *)

Module InvarianceFacts.

(** The closed form depends on the path through the base name only. *)
Lemma outcome_renamed (p p' : string) (st_size : Z) (data : bytes)
    (fault : io_fault) (close : option string) :
  outcome p' st_size data fault close
  = Result (infected (outcome p st_size data fault close))
           (reason (outcome p st_size data fault close))
           (basename p') (size (outcome p st_size data fault close))
           (hashes (outcome p st_size data fault close))
           (entropy (outcome p st_size data fault close)).
Proof.
  assert (C : content_verdict p' st_size data
              = Result (infected (content_verdict p st_size data))
                       (reason (content_verdict p st_size data)) (basename p')
                       (size (content_verdict p st_size data))
                       (hashes (content_verdict p st_size data))
                       (entropy (content_verdict p st_size data))).
  { unfold content_verdict.
    destruct (lookup KNOWN_BAD_MD5 _); [reflexivity|].
    destruct (lookup KNOWN_BAD_SHA256 _); [reflexivity|].
    cbv zeta.
    destruct (existsb suspicious_chunk _); [reflexivity|].
    destruct (existsb shellcode_chunk _); reflexivity. }
  unfold outcome.
  destruct fault as [|msg|n msg]; [|reflexivity|];
    (destruct (stream_detection _);
     [ destruct close; reflexivity
     | destruct close; [reflexivity|];
       destruct (read_error data _); [reflexivity | exact C] ]).
Qed.

(** A file that fits one chunk is one chunk. *)
Lemma chunks_small (data : bytes) :
  data <> [] -> (length data <= CHUNK_SIZE)%nat -> chunks data = [data].
Proof.
  intros Hd Hl. destruct data as [|b data]; [congruence|].
  unfold chunks. cbn [length chunks_of].
  rewrite firstn_all2 by exact Hl.
  rewrite skipn_all2 by exact Hl.
  destruct (length data); reflexivity.
Qed.

End InvarianceFacts.
Import InvarianceFacts.

(* ================================================================== *)
(** * Further properties of the scanner and of the script *)

(** X1.  Every executable signature of the table is reported, not only
    the one of Windows.  A file of non-zero size that begins with the
    signature of an entry of [EXECUTABLE_HEADERS] other than the PDF one
    (MZ, ELF, either Mach-O magic), whose first chunk is read without an
    I/O failure and whose closing does not fail is reported infected, with
    the reason "Suspicious executable header: " followed by the description
    of that entry; the size that [os.path.getsize] gave is stored, both
    digests stay [None] and the entropy stays 0.0. *)
Theorem executable_headers_are_reported
    (format_float : float -> string) (fs : filesystem) (p : string)
    (st_size : Z) (data : bytes) (fault : io_fault) (sig : bytes)
    (desc : string) :
  fs p = Regular st_size data fault None ->
  st_size <> 0 ->
  first_read_succeeds fault ->
  In (sig, desc) EXECUTABLE_HEADERS ->
  sig <> PDF_SIG ->
  startswith data sig = true ->
  is_infected format_float fs p
  = Returns
      (Result true (Some (append "Suspicious executable header: " desc))
              (basename p) st_size (Hashes None None) (Fin 0)).
Proof.
  intros Hf Hst Hr Hin Hsig Hs.
  assert (Hd : data <> []).
  { eapply startswith_nonempty; [exact Hs|].
    eapply signature_nonempty. exact Hin. }
  pose proof (header_of_signature data sig desc
                (not_pdf_signature sig desc Hin Hsig) Hs) as Hh.
  rewrite (is_infected_outcome format_float fs p st_size data fault None
             Hf Hst).
  f_equal. unfold outcome.
  destruct fault as [|msg|n msg].
  - cbn [delivered].
    rewrite (proj2 (stream_detection_header data 0 desc Hd Hh)).
    reflexivity.
  - contradiction.
  - destruct n as [|n]; [simpl in Hr; congruence|].
    cbn [delivered].
    rewrite (proj1 (stream_detection_header data n desc Hd Hh)).
    reflexivity.
Qed.

(** X1 at the first bytes of a Linux executable. *)
Lemma executable_headers_are_reported_witness :
  is_infected digits_elided elf_fs "/usr/bin/tool"
  = Returns
      (Result true (Some "Suspicious executable header: Linux ELF")
              "tool" 8 (Hashes None None) (Fin 0)).
Proof.
  apply (executable_headers_are_reported digits_elided elf_fs "/usr/bin/tool"
           8 elf_header NoFault (x7f :: of_string "ELF") "Linux ELF").
  - reflexivity.
  - discriminate.
  - exact I.
  - right. left. reflexivity.
  - discriminate.
  - reflexivity.
Defined.

(** X2.  The two verdicts of the loop tell the truth about the head of
    the file.  A result whose reason is "Suspicious executable header: "
    followed by [desc] comes from a regular file that begins with a
    signature which the table describes by [desc]: a signature further
    inside the file is never reported.  A result whose reason is the one of
    embedded JavaScript comes from a regular file that begins with "%PDF-"
    and one chunk of which holds "/JavaScript": the marker in a file that
    is not a PDF is never reported. *)
Theorem stream_verdicts_are_sound
    (format_float : float -> string) (fs : filesystem) (p : string)
    (r : result) :
  is_infected format_float fs p = Returns r ->
  (forall desc : string,
      reason r = Some (append "Suspicious executable header: " desc) ->
      exists st_size data fault sig,
        fs p = Regular st_size data fault None
        /\ In (sig, desc) EXECUTABLE_HEADERS /\ sig <> PDF_SIG
        /\ startswith data sig = true)
  /\ (reason r = Some "Embedded JavaScript in PDF (potential exploit)" ->
      exists st_size data fault,
        fs p = Regular st_size data fault None
        /\ startswith data PDF_SIG = true
        /\ existsb javascript_chunk (chunks data) = true).
Proof.
  intros Hr.
  destruct (is_infected_cases format_float fs p)
    as [[_ E]|[(data & fault & close & _ & E)
              |(st & data & fault & close & Hf & Hst & E)]];
    rewrite E in Hr; inversion Hr; subst; clear Hr.
  - split; [intros desc H | intros H]; discriminate.
  - split; [intros desc H | intros H]; discriminate.
  - destruct (outcome_cases p st data fault close)
      as [(why & -> & Hw & ->)|[(_ & _ & ->)
         |[(msg & ->)|(why & msg & _ & _ & ->)]]].
    + destruct (stream_detection_inv data why Hw)
        as [(d & -> & Hh)|(-> & Hp & Hj)].
      * split; [|intros H; discriminate].
        intros desc H. inversion H as [H']. subst d.
        destruct (header_of_inv data desc Hh) as (sig & Hin & Hs).
        destruct (executable_signature_inv sig desc Hin) as [Hl Hn].
        exists st, data, fault, sig. repeat split; assumption.
      * split; [intros desc H; discriminate|].
        intros _. exists st, data, fault. repeat split; assumption.
    + destruct (content_verdict_reason p st data)
        as [[l H]|[[l H]|[H|[H|[H _]]]]]; rewrite H;
        (split; [intros desc H' | intros H']; discriminate).
    + split; [intros desc H | intros H]; discriminate.
    + split; [intros desc H | intros H]; discriminate.
Qed.

(** X2 at a small PDF document that carries a script. *)
Lemma stream_verdicts_are_sound_witness :
  exists (st_size : Z) (data : bytes) (fault : io_fault),
    pdf_script_fs "/srv/in/form.pdf" = Regular st_size data fault None
    /\ startswith data PDF_SIG = true
    /\ existsb javascript_chunk (chunks data) = true.
Proof.
  refine (proj2 (stream_verdicts_are_sound digits_elided pdf_script_fs
                   "/srv/in/form.pdf"
                   (Result true
                      (Some "Embedded JavaScript in PDF (potential exploit)")
                      "form.pdf" 63 (Hashes None None) (Fin 0)) _) eq_refl).
  vm_compute. reflexivity.
Defined.

(** X3.  A file of non-zero size that begins with "%PDF-", is read and
    closed without I/O failure and holds "/JavaScript" inside one of its
    chunks is reported infected, with the reason
    "Embedded JavaScript in PDF (potential exploit)".  The scan returns
    from inside the loop: both digests stay [None], the entropy stays 0.0
    and no blacklist is consulted. *)
Theorem pdf_javascript_is_reported
    (format_float : float -> string) (fs : filesystem) (p : string)
    (st_size : Z) (data : bytes) :
  fs p = Regular st_size data NoFault None ->
  st_size <> 0 ->
  startswith data PDF_SIG = true ->
  existsb javascript_chunk (chunks data) = true ->
  is_infected format_float fs p
  = Returns
      (Result true (Some "Embedded JavaScript in PDF (potential exploit)")
              (basename p) st_size (Hashes None None) (Fin 0)).
Proof.
  intros Hf Hst Hp Hj.
  assert (Hd : data <> [])
    by (eapply startswith_nonempty; [exact Hp | discriminate]).
  rewrite (is_infected_outcome format_float fs p st_size data NoFault None
             Hf Hst).
  f_equal. unfold outcome. cbn [delivered].
  destruct (chunks_first data Hd) as [cs E].
  rewrite E in Hj |- *. unfold stream_detection.
  rewrite header_of_first_chunk, (header_of_pdf data Hp).
  rewrite startswith_firstn by (apply Nat.leb_le; reflexivity).
  rewrite Hp, Hj. reflexivity.
Qed.

(** X3 at a small PDF document that carries a script. *)
Lemma pdf_javascript_is_reported_witness :
  is_infected digits_elided pdf_script_fs "/srv/in/form.pdf"
  = Returns
      (Result true (Some "Embedded JavaScript in PDF (potential exploit)")
              "form.pdf" 63 (Hashes None None) (Fin 0)).
Proof.
  apply (pdf_javascript_is_reported digits_elided pdf_script_fs
           "/srv/in/form.pdf" 63 pdf_script).
  - reflexivity.
  - discriminate.
  - reflexivity.
  - vm_compute. reflexivity.
Defined.

(** X4.  The report "Scan completed: No threats detected" stands for a
    complete scan.  It is only given for a regular file whose size is not
    reported as zero and whose closing did not fail; the result then has
    [infected = False], the size that [os.path.getsize] gave, the digests
    of the whole content read and the float that the entropy step computes
    on its histogram; and of the content it is true that it begins with no
    executable signature, that it is not a PDF one chunk of which holds
    "/JavaScript", that neither digest is listed, and that no chunk sets
    off the suspicious-string or the shellcode detector. *)
Theorem clean_report_means_full_scan
    (format_float : float -> string) (fs : filesystem) (p : string)
    (r : result) :
  is_infected format_float fs p = Returns r ->
  reason r = Some "Scan completed: No threats detected" ->
  exists (st_size : Z) (data : bytes) (fault : io_fault),
    fs p = Regular st_size data fault None /\ st_size <> 0
    /\ r = Result false (Some "Scan completed: No threats detected")
                  (basename p) st_size
                  (Hashes (Some (MD5.oneshot data))
                          (Some (SHA256.oneshot data)))
                  (content_entropy data)
    /\ header_of data = None
    /\ startswith data PDF_SIG && existsb javascript_chunk (chunks data)
       = false
    /\ lookup KNOWN_BAD_MD5 (MD5.oneshot data) = None
    /\ lookup KNOWN_BAD_SHA256 (SHA256.oneshot data) = None
    /\ existsb suspicious_chunk (chunks data) = false
    /\ existsb shellcode_chunk (chunks data) = false.
Proof.
  intros Hr Hwhy.
  destruct (is_infected_cases format_float fs p)
    as [[_ E]|[(data & fault & close & _ & E)
              |(st & data & fault & close & Hf & Hst & E)]];
    rewrite E in Hr; inversion Hr; subst; clear Hr; try discriminate.
  exists st, data, fault.
  destruct (outcome_cases p st data fault close)
    as [(why & _ & Hw & Ho)|[(Hc & Hn & Ho)
       |[(msg & Ho)|(why & msg & _ & _ & Ho)]]]; rewrite Ho in Hwhy |- *.
  - destruct (stream_detection_inv data why Hw)
      as [(d & -> & _)|(-> & _)]; discriminate.
  - subst close. split; [exact Hf|]. split; [exact Hst|].
    destruct (content_verdict_reason p st data)
      as [[l H]|[[l H]|[H|[H|(H & H1 & H2 & H3 & H4)]]]];
      try (rewrite H in Hwhy; discriminate).
    split; [exact H|].
    destruct data as [|b data]; [repeat split; assumption|].
    destruct (chunks_first (b :: data)) as [cs Ec]; [discriminate|].
    rewrite Ec in Hn. unfold stream_detection in Hn.
    rewrite header_of_first_chunk in Hn.
    rewrite startswith_firstn in Hn by (apply Nat.leb_le; reflexivity).
    rewrite <- Ec in Hn.
    destruct (header_of (b :: data)); [discriminate|].
    split; [reflexivity|].
    destruct (startswith (b :: data) PDF_SIG
              && existsb javascript_chunk (chunks (b :: data)));
      [discriminate|].
    repeat split; assumption.
  - discriminate.
  - discriminate.
Qed.

(** X4 at a text file of five bytes, reported clean. *)
Lemma clean_report_means_full_scan_witness :
  exists (st_size : Z) (data : bytes) (fault : io_fault),
    note_fs "/srv/note.txt" = Regular st_size data fault None
    /\ lookup KNOWN_BAD_MD5 (MD5.oneshot data) = None
    /\ existsb suspicious_chunk (chunks data) = false.
Proof.
  eassert (Hr : is_infected digits_elided note_fs "/srv/note.txt"
                = Returns _).
  { eapply (is_infected_unlisted digits_elided note_fs "/srv/note.txt"
              (of_string "hello") NoFault).
    - reflexivity.
    - discriminate.
    - exact I.
    - vm_compute. reflexivity.
    - vm_compute. reflexivity.
    - vm_compute. reflexivity.
    - vm_compute. reflexivity. }
  destruct (clean_report_means_full_scan digits_elided note_fs "/srv/note.txt"
              _ Hr eq_refl)
    as (st & data & fault & Hf & _ & _ & _ & _ & Hm & _ & Hs & _).
  exists st, data, fault. repeat split; assumption.
Defined.

(** X5.  For a regular file of non-zero size that is read and closed
    without I/O failure the result is a function of the path, of the size
    that [os.path.getsize] gave and of the content, [decision]: a detection
    inside the loop if there is one; else the MD5 list, the SHA-256 list,
    the suspicious-string flag and the shellcode flag, in this order; else
    the clean report.  The entropy threshold decides nothing and the
    rendering of floats plays no part.  The file is reported infected
    exactly when one of the five conditions holds. *)
Theorem verdict_is_decided_by_content
    (format_float : float -> string) (fs : filesystem) (p : string)
    (st_size : Z) (data : bytes) :
  fs p = Regular st_size data NoFault None ->
  st_size <> 0 ->
  is_infected format_float fs p = Returns (decision p st_size data)
  /\ (infected (decision p st_size data) = true <->
      stream_detection (chunks data) <> None
      \/ lookup KNOWN_BAD_MD5 (MD5.oneshot data) <> None
      \/ lookup KNOWN_BAD_SHA256 (SHA256.oneshot data) <> None
      \/ existsb suspicious_chunk (chunks data) = true
      \/ existsb shellcode_chunk (chunks data) = true).
Proof.
  intros Hf Hst.
  split;
    [exact (is_infected_outcome format_float fs p st_size data NoFault None
              Hf Hst)|].
  unfold decision, content_verdict.
  destruct (stream_detection (chunks data)) as [why|].
  { split; [intros _; left; discriminate | reflexivity]. }
  destruct (lookup KNOWN_BAD_MD5 _) as [label|].
  { split; [intros _; right; left; discriminate | reflexivity]. }
  destruct (lookup KNOWN_BAD_SHA256 _) as [label|].
  { split; [intros _; right; right; left; discriminate | reflexivity]. }
  cbv zeta.
  destruct (existsb suspicious_chunk _).
  { split; [intros _; right; right; right; left; reflexivity | reflexivity]. }
  destruct (existsb shellcode_chunk _).
  { split; [intros _; right; right; right; right; reflexivity | reflexivity]. }
  split; [discriminate|].
  intros [H|[H|[H|[H|H]]]]; congruence.
Qed.

(** X5 at a ransom note. *)
Lemma verdict_is_decided_by_content_witness :
  is_infected digits_elided ransom_fs "/home/u/README.txt"
  = Returns
      (decision "/home/u/README.txt" (Z.of_nat (length ransom_note))
         ransom_note).
Proof.
  apply (verdict_is_decided_by_content digits_elided ransom_fs
           "/home/u/README.txt" _ ransom_note).
  - reflexivity.
  - discriminate.
Defined.

(** X6.  A read failure discards what the scan has found, unless the
    loop has returned before: when the [n]-th read of a file of non-zero
    size fails and the first [n] chunks made the loop return no detection,
    the result is the report of an error, with [infected = False], no
    digest and the entropy 0.0, whatever the chunks read so far contain and
    whether or not the content is blacklisted.  The error reported is the
    one of the read, or the one of [close] when closing the file fails
    too. *)
Theorem read_failure_hides_detections
    (format_float : float -> string) (fs : filesystem) (p : string)
    (st_size : Z) (data : bytes) (n : nat) (msg : string)
    (close : option string) :
  fs p = Regular st_size data (ReadFails n msg) close ->
  st_size <> 0 ->
  (n <= length (chunks data))%nat ->
  stream_detection (firstn n (chunks data)) = None ->
  is_infected format_float fs p
  = Returns
      (Result false
              (Some (append "Scan error: "
                       match close with
                       | Some text => text
                       | None => msg
                       end))
              (basename p) st_size (Hashes None None) (Fin 0)).
Proof.
  intros Hf Hst Hn Hs.
  rewrite (is_infected_outcome format_float fs p st_size data _ close
             Hf Hst).
  unfold outcome, read_error. cbn [delivered].
  apply Nat.leb_le in Hn. rewrite Hn, Hs.
  destruct close; reflexivity.
Qed.

(** X6 at the EICAR test file, whose MD5 digest is listed, on a device
    where the read after its only chunk fails. *)
Lemma read_failure_hides_detections_witness :
  lookup KNOWN_BAD_MD5 (MD5.oneshot eicar)
  = Some "EICAR Test (Production Placeholder)"
  /\ is_infected digits_elided eicar_io_fs "/mnt/usb/eicar.com"
     = Returns
         (Result false (Some "Scan error: [Errno 5] Input/output error")
                 "eicar.com" 68 (Hashes None None) (Fin 0)).
Proof.
  split; [vm_compute; reflexivity|].
  apply (read_failure_hides_detections digits_elided eicar_io_fs
           "/mnt/usb/eicar.com" 68 eicar 1 "[Errno 5] Input/output error"
           None).
  - reflexivity.
  - discriminate.
  - vm_compute. apply le_n.
  - vm_compute. reflexivity.
Defined.

(** X7.  In every dictionary returned, early returns and error reports
    included, [filename] is the base name of the path: it holds no slash,
    and for a path [d/n] whose last component [n] has no slash it is [n];
    and [size] is what [os.path.getsize] gave for the regular file that
    the path names, whatever number of bytes was then read from it, and 0
    when the path names no regular file. *)
Theorem filename_and_size_fields
    (format_float : float -> string) (fs : filesystem) (p : string)
    (r : result) :
  is_infected format_float fs p = Returns r ->
  filename r = basename p
  /\ mentions "/" (filename r) = false
  /\ (forall d n : string,
        p = append d (String "/" n) -> mentions "/" n = false ->
        filename r = n)
  /\ size r = match fs p with
              | Regular st_size _ _ _ => st_size
              | _ => 0
              end.
Proof.
  intros Hr.
  assert (H : filename r = basename p
              /\ size r = match fs p with
                          | Regular st_size _ _ _ => st_size
                          | _ => 0
                          end).
  { destruct (is_infected_cases format_float fs p)
      as [[Hi E]|[(data & fault & close & Hf & E)
                |(st & data & fault & close & Hf & Hst & E)]];
      rewrite E in Hr; inversion Hr; subst; clear Hr.
    - split; [reflexivity|]. unfold isfile in Hi.
      destruct (fs p); [reflexivity | reflexivity | discriminate].
    - rewrite Hf. split; reflexivity.
    - rewrite Hf. apply outcome_filename_size. }
  destruct H as [Hn Hs]. rewrite Hn.
  split; [reflexivity|]. split; [apply basename_no_slash|].
  split; [|exact Hs].
  intros d n -> Hslash. apply basename_join. exact Hslash.
Qed.

(** X7 at a file whose size is reported as 4096 and from which no byte
    is read. *)
Lemma filename_and_size_fields_witness :
  exists r : result,
    is_infected digits_elided sysfs_fs "/sys/module/m/notes" = Returns r
    /\ filename r = "notes" /\ size r = 4096.
Proof.
  destruct (is_infected_total digits_elided sysfs_fs "/sys/module/m/notes")
    as [r Hr].
  destruct (filename_and_size_fields digits_elided sysfs_fs
              "/sys/module/m/notes" r Hr) as (_ & _ & Hn & Hs).
  exists r. split; [exact Hr|]. split; [|exact Hs].
  apply (Hn "/sys/module/m" "notes"); reflexivity.
Defined.

(** X8.  The suspicious strings are matched whatever the case of the
    ASCII letters.  Let a file of non-zero size be read and closed without
    I/O failure, cause no detection inside the loop and have unlisted
    digests; if one of its chunks holds a byte string [t] whose lower-case
    form is one of the six suspicious strings, the file is reported
    infected with the reason "Suspicious content strings (potential
    ransomware or command injection)", with its size, its digests and its
    entropy. *)
Theorem suspicious_strings_ignore_case
    (format_float : float -> string) (fs : filesystem) (p : string)
    (st_size : Z) (data chunk t : bytes) :
  fs p = Regular st_size data NoFault None ->
  st_size <> 0 ->
  stream_detection (chunks data) = None ->
  lookup KNOWN_BAD_MD5 (MD5.oneshot data) = None ->
  lookup KNOWN_BAD_SHA256 (SHA256.oneshot data) = None ->
  In chunk (chunks data) ->
  In (lower t) suspicious_strings ->
  contains t chunk = true ->
  is_infected format_float fs p
  = Returns
      (Result true
         (Some
            "Suspicious content strings (potential ransomware or command injection)")
         (basename p) st_size
         (Hashes (Some (MD5.oneshot data)) (Some (SHA256.oneshot data)))
         (content_entropy data)).
Proof.
  intros Hf Hst Hs H1 H2 Hin Ht Hc.
  rewrite (is_infected_outcome format_float fs p st_size data NoFault None
             Hf Hst).
  unfold outcome, content_verdict. cbn [delivered read_error].
  rewrite Hs, H1, H2. cbv zeta.
  assert (E : existsb suspicious_chunk (chunks data) = true).
  { apply existsb_exists. exists chunk. split; [exact Hin|].
    eapply suspicious_any_case; eassumption. }
  rewrite E. reflexivity.
Qed.

(** X8 at a ransom note that spells "BitCoin" with capitals. *)
Lemma suspicious_strings_ignore_case_witness :
  exists r : result,
    is_infected digits_elided ransom_fs "/home/u/README.txt" = Returns r
    /\ infected r = true
    /\ reason r
       = Some
           "Suspicious content strings (potential ransomware or command injection)".
Proof.
  eexists. split.
  - apply (suspicious_strings_ignore_case digits_elided ransom_fs
             "/home/u/README.txt" (Z.of_nat (length ransom_note))
             ransom_note ransom_note (of_string "BitCoin")).
    + reflexivity.
    + discriminate.
    + vm_compute. reflexivity.
    + vm_compute. reflexivity.
    + vm_compute. reflexivity.
    + left. reflexivity.
    + vm_compute. left. reflexivity.
    + vm_compute. reflexivity.
  - split; reflexivity.
Defined.

(** X9.  The entropy field is the Shannon entropy, in nats, of the
    distribution of the byte values over the whole content read, whatever
    the cutting into chunks (for a file of less than 2^63 bytes; rounding
    in float arithmetic is not modelled), except that it is NaN when no
    byte was read from a file whose size is not reported as zero.  The
    field holds 0.0, as initialised, or [byte_entropy data] for a content
    [data] that is not empty, or NaN for an empty one; it holds one of the
    latter two as soon as the digests are stored and neither is listed.
    The Shannon entropy lies between 0 and [ln 256]. *)
Theorem stored_entropy_is_shannon
    (format_float : float -> string) (fs : filesystem) (p : string)
    (st_size : Z) (data : bytes) (fault : io_fault)
    (close : option string) (r : result) :
  fs p = Regular st_size data fault close ->
  Z.of_nat (length data) < 2 ^ 63 ->
  is_infected format_float fs p = Returns r ->
  (entropy r = Fin 0
   \/ (data <> [] /\ entropy r = Fin (byte_entropy data))
   \/ (data = [] /\ st_size <> 0 /\ entropy r = NaN))
  /\ (hashes r <> Hashes None None ->
      lookup KNOWN_BAD_MD5 (MD5.oneshot data) = None ->
      lookup KNOWN_BAD_SHA256 (SHA256.oneshot data) = None ->
      entropy r = match data with
                  | [] => NaN
                  | _ :: _ => Fin (byte_entropy data)
                  end)
  /\ (0 <= byte_entropy data <= ln 256)%R.
Proof.
  intros Hf Hb Hr.
  assert (Hc : content_entropy data
               = match data with
                 | [] => NaN
                 | _ :: _ => Fin (byte_entropy data)
                 end).
  { destruct data as [|b data]; [exact content_entropy_nothing|].
    apply content_entropy_shannon; [discriminate | exact Hb]. }
  split; [|split];
    [| |split; [apply byte_entropy_nonneg | apply byte_entropy_bound, Hb]].
  - destruct (is_infected_cases format_float fs p)
      as [[_ E]|[(data' & fault' & close' & _ & E)
                |(st' & data' & fault' & close' & Hf' & Hst & E)]];
      rewrite E in Hr; inversion Hr; subst; clear Hr;
      try (left; reflexivity).
    rewrite Hf in Hf'. inversion Hf'; subst.
    destruct (proj1 (outcome_entropy p st' data' fault' close')) as [H|H];
      [left; exact H|].
    right. rewrite H, Hc.
    destruct data' as [|b data'];
      [right; repeat split; assumption | left; split; [discriminate|]].
    reflexivity.
  - destruct (is_infected_cases format_float fs p)
      as [[_ E]|[(data' & fault' & close' & _ & E)
                |(st' & data' & fault' & close' & Hf' & Hst & E)]];
      rewrite E in Hr; inversion Hr; subst; clear Hr;
      try (intros H; exfalso; apply H; reflexivity).
    rewrite Hf in Hf'. inversion Hf'; subst.
    rewrite <- Hc. apply outcome_entropy.
Qed.

(** X9 at a text file of five bytes, and at a file whose size is reported
    as 4096 and from which no byte is read. *)
Lemma stored_entropy_is_shannon_witness :
  (exists r : result,
      is_infected digits_elided note_fs "/srv/note.txt" = Returns r
      /\ (entropy r = Fin 0
          \/ entropy r = Fin (byte_entropy (of_string "hello")))
      /\ (0 <= byte_entropy (of_string "hello") <= ln 256)%R)
  /\ exists r : result,
       is_infected digits_elided sysfs_fs "/sys/module/m/notes" = Returns r
       /\ (entropy r = Fin 0 \/ entropy r = NaN).
Proof.
  split.
  - destruct (is_infected_total digits_elided note_fs "/srv/note.txt")
      as [r Hr].
    assert (Hb : Z.of_nat (length (of_string "hello")) < 2 ^ 63)
      by (vm_compute; reflexivity).
    destruct (stored_entropy_is_shannon digits_elided note_fs "/srv/note.txt"
                _ (of_string "hello") NoFault None r eq_refl Hb Hr)
      as (H1 & _ & H2).
    exists r. split; [exact Hr|]. split; [|exact H2].
    destruct H1 as [H|[[_ H]|[H _]]];
      [left; exact H | right; exact H | discriminate].
  - destruct (is_infected_total digits_elided sysfs_fs "/sys/module/m/notes")
      as [r Hr].
    assert (Hb : Z.of_nat (length (@nil byte)) < 2 ^ 63)
      by (vm_compute; reflexivity).
    destruct (stored_entropy_is_shannon digits_elided sysfs_fs
                "/sys/module/m/notes" 4096 [] NoFault None r eq_refl Hb Hr)
      as (H1 & _ & _).
    exists r. split; [exact Hr|].
    destruct H1 as [H|[[H _]|(_ & _ & H)]];
      [left; exact H | congruence | right; exact H].
Defined.

(** X10.  A file all of whose bytes have the same value has the entropy
    0.0 in whatever dictionary its scan returns (a file from which no byte
    is read being one whose size is reported as zero). *)
Theorem one_valued_file_has_zero_entropy
    (format_float : float -> string) (fs : filesystem) (p : string)
    (st_size : Z) (b : byte) (n : nat) (fault : io_fault)
    (close : option string) (r : result) :
  fs p = Regular st_size (repeat b n) fault close ->
  (n = 0%nat -> st_size = 0) ->
  Z.of_nat n < 2 ^ 63 ->
  is_infected format_float fs p = Returns r ->
  entropy r = Fin 0.
Proof.
  intros Hf Hn Hb Hr.
  destruct (is_infected_cases format_float fs p)
    as [[_ E]|[(data' & fault' & close' & _ & E)
              |(st' & data' & fault' & close' & Hf' & Hst & E)]];
    rewrite E in Hr; inversion Hr; subst; clear Hr; try reflexivity.
  rewrite Hf in Hf'. inversion Hf'; subst.
  destruct (proj1 (outcome_entropy p st' (repeat b n) fault' close'))
    as [H|H]; [exact H|].
  rewrite H, content_entropy_shannon, byte_entropy_repeat.
  - reflexivity.
  - destruct n; [exfalso; apply Hst, Hn; reflexivity | discriminate].
  - rewrite repeat_length. exact Hb.
Qed.

(** X10 at a file of 4096 zero bytes. *)
Lemma one_valued_file_has_zero_entropy_witness :
  exists r : result,
    is_infected digits_elided zero_fs "/var/swap.img" = Returns r
    /\ entropy r = Fin 0.
Proof.
  destruct (is_infected_total digits_elided zero_fs "/var/swap.img")
    as [r Hr].
  exists r. split; [exact Hr|].
  apply (one_valued_file_has_zero_entropy digits_elided zero_fs
           "/var/swap.img" 4096 x00 4096 NoFault None r).
  - reflexivity.
  - discriminate.
  - vm_compute. reflexivity.
  - exact Hr.
Defined.

(** X11.  The exit status of the script does not tell the verdict.
    Without a path argument the run ends with status 1.  With one,
    [is_infected] is called on [argv[1]] only and always returns a
    dictionary; the script prints its serialisation, as one line, and ends
    with status 0, be the file infected, clean, missing or unreadable.
    Only a line that standard output cannot encode ends the run with
    status 1, nothing being written. *)
Theorem exit_status_ignores_the_verdict
    (format_float : float -> string) (float_repr : R -> string)
    (encodable : string -> bool) (fs : filesystem) (argv : list string) :
  ((length argv < 2)%nat ->
   status (main format_float float_repr encodable fs argv) = 1)
  /\ ((2 <= length argv)%nat ->
      exists (r : result) (line : string),
        is_infected format_float fs (nth 1 argv EmptyString) = Returns r
        /\ line = dumps float_repr false (to_json r)
        /\ main format_float float_repr encodable fs argv
           = (if encodable line then Run (append line newline) 0
              else Run EmptyString 1)).
Proof.
  split.
  - intros H. unfold main. apply Nat.ltb_lt in H. rewrite H.
    unfold print. destruct (encodable _); reflexivity.
  - intros H. unfold main.
    replace (length argv <? 2)%nat with false
      by (symmetry; apply Nat.ltb_ge; exact H).
    cbv zeta.
    destruct (is_infected_total format_float fs (nth 1 argv EmptyString))
      as [r Hr].
    rewrite Hr. exists r, (dumps float_repr false (to_json r)).
    split; [reflexivity|]. split; reflexivity.
Qed.

(** X12.  What the script writes to standard output is nothing or
    exactly one line: the text before the final line break holds no
    control character, since [json.dumps] escapes those of file names and
    reasons (provided the rendering of floats holds none). *)
Theorem output_is_one_line
    (format_float : float -> string) (float_repr : R -> string)
    (encodable : string -> bool) (fs : filesystem) (argv : list string) :
  (forall x : R, control_free (float_repr x) = true) ->
  stdout (main format_float float_repr encodable fs argv) = EmptyString
  \/ exists line : string,
       stdout (main format_float float_repr encodable fs argv)
       = append line newline
       /\ control_free line = true.
Proof.
  intros H. unfold main.
  destruct (length argv <? 2)%nat.
  - match goal with
    | |- context [print _ ?t ?a] =>
        destruct (print_cases encodable t a) as [[_ ->]|[_ ->]]
    end.
    + right. eexists. split; [reflexivity|]. vm_compute. reflexivity.
    + left. reflexivity.
  - cbv zeta.
    destruct (is_infected_total format_float fs (nth 1 argv EmptyString))
      as [r Hr].
    rewrite Hr.
    match goal with
    | |- context [print _ ?t ?a] =>
        destruct (print_cases encodable t a) as [[_ ->]|[_ ->]]
    end.
    + right. eexists. split; [reflexivity|].
      apply control_free_result. exact H.
    + left. reflexivity.
Qed.

(** X12 at a run of the script on the EICAR test file. *)
Lemma output_is_one_line_witness :
  exists line : string,
    stdout (main digits_elided (fun _ => "0.0") (fun _ => true) eicar_fs
              ["antivirus.py"; "/srv/eicar.com"])
    = append line newline
    /\ control_free line = true.
Proof.
  destruct (output_is_one_line digits_elided (fun _ => "0.0") (fun _ => true)
              eicar_fs ["antivirus.py"; "/srv/eicar.com"]) as [H|H].
  - intros x. reflexivity.
  - vm_compute in H. discriminate.
  - exact H.
Defined.

(** X13.  A dictionary with [infected = False] carries one of four
    reasons: "File does not exist", "File is empty", "Scan completed: No
    threats detected", or "Scan error: " followed by the text of the
    exception.  Among them only the clean report comes with digests: a
    caller tells a failed scan from a clean file by the reason or by the
    digests, not by the flag. *)
Theorem uninfected_reasons
    (format_float : float -> string) (fs : filesystem) (p : string)
    (r : result) :
  is_infected format_float fs p = Returns r ->
  infected r = false ->
  (reason r = Some "File does not exist"
   \/ reason r = Some "File is empty"
   \/ reason r = Some "Scan completed: No threats detected"
   \/ exists msg : string, reason r = Some (append "Scan error: " msg))
  /\ (hashes r <> Hashes None None ->
      reason r = Some "Scan completed: No threats detected").
Proof.
  intros Hr Hi.
  destruct (is_infected_cases format_float fs p)
    as [[_ E]|[(data & fault & close & _ & E)
              |(st & data & fault & close & Hf & Hst & E)]];
    rewrite E in Hr; inversion Hr; subst; clear Hr.
  - split; [left; reflexivity|]. intros H. exfalso. apply H. reflexivity.
  - split; [right; left; reflexivity|].
    intros H. exfalso. apply H. reflexivity.
  - destruct (outcome_cases p st data fault close)
      as [(why & _ & _ & Ho)|[(_ & _ & Ho)
         |[(msg & Ho)|(why & msg & _ & _ & Ho)]]]; rewrite Ho in Hi |- *;
      [| | |discriminate].
    + discriminate.
    + unfold content_verdict in *.
      destruct (lookup KNOWN_BAD_MD5 _); [discriminate|].
      destruct (lookup KNOWN_BAD_SHA256 _); [discriminate|].
      cbv zeta in *.
      destruct (existsb suspicious_chunk _); [discriminate|].
      destruct (existsb shellcode_chunk _); [discriminate|].
      split; [right; right; left; reflexivity | reflexivity].
    + split; [right; right; right; exists msg; reflexivity|].
      intros H. exfalso. apply H. reflexivity.
Qed.

(** X13 at the EICAR test file on a device where a read fails. *)
Lemma uninfected_reasons_witness :
  exists r : result,
    is_infected digits_elided eicar_io_fs "/mnt/usb/eicar.com" = Returns r
    /\ (reason r = Some "File does not exist"
        \/ reason r = Some "File is empty"
        \/ reason r = Some "Scan completed: No threats detected"
        \/ exists msg : string, reason r = Some (append "Scan error: " msg)).
Proof.
  exists (Result false (Some "Scan error: [Errno 5] Input/output error")
                 "eicar.com" 68 (Hashes None None) (Fin 0)).
  assert (Hr : is_infected digits_elided eicar_io_fs "/mnt/usb/eicar.com"
               = Returns
                   (Result false
                      (Some "Scan error: [Errno 5] Input/output error")
                      "eicar.com" 68 (Hashes None None) (Fin 0)))
    by (vm_compute; reflexivity).
  split; [exact Hr|].
  exact (proj1 (uninfected_reasons digits_elided eicar_io_fs
                  "/mnt/usb/eicar.com" _ Hr eq_refl)).
Defined.

(** X14.  What a call logs can be read off the dictionary that it
    returns.  With the calls of [logging] put back the function returns
    the same dictionary as without them.  A clean report logs nothing.
    Every other result logs one record whose message holds the path, of
    the level CRITICAL for an executable header, for embedded JavaScript
    and for a listed digest, WARNING for an empty file and for the
    heuristic detections, ERROR for a missing file and for a scan error
    ([level_of]).  One case logs two records: when closing the file fails
    after a detection inside the loop, the CRITICAL record of the detection
    is followed by the ERROR record of the handler, and the dictionary
    reports an infection under the reason of a scan error.  The file
    [/mnt/share/setup.exe] of [stale_pe_fs] is such a case. *)
Theorem records_follow_the_result (format_float : float -> string) :
  (forall (fs : filesystem) (p : string),
      exists (r : result) (log : list Logged.entry),
        Logged.is_infected format_float fs p = (Returns r, log)
        /\ is_infected format_float fs p = Returns r
        /\ match level_of r with
           | None =>
               reason r = Some "Scan completed: No threats detected"
               /\ log = []
           | Some lv =>
               exists msg : string,
                 mentions p msg = true
                 /\ if error_after_detection r
                    then exists first : string,
                           log = [Logged.Entry Logged.CRITICAL first;
                                  Logged.Entry lv msg]
                           /\ mentions p first = true
                    else log = [Logged.Entry lv msg]
           end)
  /\ Logged.is_infected format_float stale_pe_fs "/mnt/share/setup.exe"
     = (Returns
          (Result true (Some "Scan error: [Errno 5] Input/output error")
                  "setup.exe" 8 (Hashes None None) (Fin 0)),
        [Logged.Entry Logged.CRITICAL
           "Executable header detected: Windows PE (MZ) in /mnt/share/setup.exe";
         Logged.Entry Logged.ERROR
           "Unexpected error scanning /mnt/share/setup.exe: [Errno 5] Input/output error"]).
Proof.
  split; [|vm_compute; reflexivity].
  intros fs p.
  destruct (is_infected_total format_float fs p) as [r Hr].
  exists r, (journal fs p).
  split; [rewrite logged_is_infected, Hr; reflexivity|].
  split; [exact Hr|].
  unfold journal.
  destruct (is_infected_cases format_float fs p)
    as [[Hi E]|[(data & fault & close & Hf & E)
              |(st & data & fault & close & Hf & Hst & E)]];
    rewrite E in Hr; inversion Hr; subst; clear Hr.
  - assert (J : match fs p with
                | Regular _ _ _ _ => False
                | _ => True
                end).
    { unfold isfile in Hi. destruct (fs p); try discriminate; exact I. }
    destruct (fs p); try contradiction;
      (eexists; split; [apply mentions_append, mentions_path_last|];
       reflexivity).
  - rewrite Hf. eexists.
    split; [apply mentions_append, mentions_path_last | reflexivity].
  - rewrite Hf, (proj2 (Z.eqb_neq st 0) Hst). apply outcome_level.
Qed.

(** X15.  The verdict does not depend on the name of the file: two
    regular files with the same content and the same I/O behaviour get
    results that differ in the [filename] field only.  No rule looks at
    the name or at its extension. *)
Theorem verdict_ignores_the_file_name
    (format_float : float -> string) (fs fs' : filesystem) (p p' : string)
    (st_size : Z) (data : bytes) (fault : io_fault)
    (close : option string) (r r' : result) :
  fs p = Regular st_size data fault close ->
  fs' p' = Regular st_size data fault close ->
  is_infected format_float fs p = Returns r ->
  is_infected format_float fs' p' = Returns r' ->
  r' = Result (infected r) (reason r) (basename p') (size r) (hashes r)
              (entropy r).
Proof.
  intros Hf Hf' Hr Hr'.
  destruct (Z.eq_dec st_size 0) as [->|Hst].
  - unfold is_infected in Hr, Hr'.
    rewrite (try_block_empty format_float fs p data fault close _ Hf) in Hr.
    rewrite (try_block_empty format_float fs' p' data fault close _ Hf')
      in Hr'.
    inversion Hr; inversion Hr'. reflexivity.
  - rewrite (is_infected_outcome format_float fs p _ _ fault close Hf Hst)
      in Hr.
    rewrite (is_infected_outcome format_float fs' p' _ _ fault close Hf' Hst)
      in Hr'.
    inversion Hr; inversion Hr'. apply outcome_renamed.
Qed.

(** X15 at the first bytes of a Linux executable under the name of a
    picture. *)
Lemma verdict_ignores_the_file_name_witness :
  is_infected digits_elided
    (single_file "/tmp/holiday.jpg" elf_header NoFault) "/tmp/holiday.jpg"
  = Returns
      (Result true (Some "Suspicious executable header: Linux ELF")
              "holiday.jpg" 8 (Hashes None None) (Fin 0)).
Proof.
  assert (H : is_infected digits_elided elf_fs "/usr/bin/tool"
              = Returns
                  (Result true (Some "Suspicious executable header: Linux ELF")
                          "tool" 8 (Hashes None None) (Fin 0)))
    by (vm_compute; reflexivity).
  destruct (is_infected_total digits_elided
              (single_file "/tmp/holiday.jpg" elf_header NoFault)
              "/tmp/holiday.jpg") as [r' Hr'].
  rewrite Hr'. f_equal.
  apply (verdict_ignores_the_file_name digits_elided elf_fs
           (single_file "/tmp/holiday.jpg" elf_header NoFault)
           "/usr/bin/tool" "/tmp/holiday.jpg" 8 elf_header NoFault None _ r'
           eq_refl eq_refl H Hr').
Defined.

(** X16.  A file of at most 8192 bytes, of non-zero size, that is read
    and closed without failure is examined as a whole: it is one chunk,
    and it is reported infected exactly when it begins with an executable
    signature, or begins with "%PDF-" and holds "/JavaScript", or has a
    listed digest, or holds a suspicious string in some letter case, or
    holds a run of twenty bytes 0x90. *)
Theorem small_files_are_examined_whole
    (format_float : float -> string) (fs : filesystem) (p : string)
    (st_size : Z) (data : bytes) (r : result) :
  fs p = Regular st_size data NoFault None ->
  st_size <> 0 ->
  data <> [] ->
  (length data <= CHUNK_SIZE)%nat ->
  is_infected format_float fs p = Returns r ->
  (infected r = true <->
   header_of data <> None
   \/ startswith data PDF_SIG && javascript_chunk data = true
   \/ lookup KNOWN_BAD_MD5 (MD5.oneshot data) <> None
   \/ lookup KNOWN_BAD_SHA256 (SHA256.oneshot data) <> None
   \/ suspicious_chunk data = true
   \/ shellcode_chunk data = true).
Proof.
  intros Hf Hst Hd Hl Hr.
  rewrite (is_infected_outcome format_float fs p st_size data NoFault None
             Hf Hst) in Hr.
  inversion Hr; subst; clear Hr.
  unfold outcome, content_verdict. cbn [delivered read_error].
  rewrite (chunks_small data Hd Hl).
  unfold stream_detection. cbn [existsb]. rewrite !orb_false_r.
  destruct (header_of data) as [desc|].
  { split; [intros _; left; discriminate | reflexivity]. }
  destruct (startswith data PDF_SIG && javascript_chunk data).
  { split; [intros _; right; left; reflexivity | reflexivity]. }
  destruct (lookup KNOWN_BAD_MD5 _) as [label|].
  { split; [intros _; right; right; left; discriminate | reflexivity]. }
  destruct (lookup KNOWN_BAD_SHA256 _) as [label|].
  { split; [intros _; right; right; right; left; discriminate | reflexivity]. }
  cbv zeta.
  destruct (suspicious_chunk data).
  { split; [intros _; right; right; right; right; left; reflexivity
           | reflexivity]. }
  destruct (shellcode_chunk data).
  { split; [intros _; right; right; right; right; right; reflexivity
           | reflexivity]. }
  split; [discriminate|].
  intros [H|[H|[H|[H|[H|H]]]]]; congruence.
Qed.

(** X16 at a ransom note of 59 bytes. *)
Lemma small_files_are_examined_whole_witness :
  exists r : result,
    is_infected digits_elided ransom_fs "/home/u/README.txt" = Returns r
    /\ suspicious_chunk ransom_note = true
    /\ infected r = true.
Proof.
  destruct (is_infected_total digits_elided ransom_fs "/home/u/README.txt")
    as [r Hr].
  exists r. split; [exact Hr|].
  assert (Hs : suspicious_chunk ransom_note = true)
    by (vm_compute; reflexivity).
  split; [exact Hs|].
  apply (small_files_are_examined_whole digits_elided ransom_fs
           "/home/u/README.txt" (Z.of_nat (length ransom_note))
           ransom_note r).
  - reflexivity.
  - discriminate.
  - discriminate.
  - apply Nat.leb_le. vm_compute. reflexivity.
  - exact Hr.
  - right. right. right. right. left. exact Hs.
Defined.
